(** * A shallow embedding of the shore / shut / slam command-line tools

    The development follows the Python sources:

    - [Py]: the few Python primitives the sources rely on (string slicing
      with Python's index clamping, [str.split], [str.join], truthiness).
    - [Licenses]: [wrap_license_text] of [shut/util/external/licenses.py].
    - [PyDict]: insertion-ordered dictionaries and [sorted].
    - [Shore]: the [bump], [checks] and [publish] commands of
      [shore/__main__.py], written in a small state-and-abort monad over an
      explicit world (working directory, files, git repository, log).
    - [Slam]: [TestCommand.handle] of [slam/ext/application/test.py].
    - [Demo]: a small instance of the modules the sources import, to run
      the commands on concrete inputs.
    - [Rules]: the statements about the commands, as predicates.

    The properties follow the definitions, module by module.

    Python [int]s are [Z]; Python [str]s are [string]; a [dict] that is
    iterated is an association list in insertion order; the file system is a
    finite map from resolved paths to contents. *)

From Stdlib Require Import ZArith String Ascii List Lia Bool.
From stdpp Require Import base gmap strings list pretty sorting.
Import ListNotations.

Local Open Scope string_scope.
Local Open Scope Z_scope.
Local Open Scope list_scope.

(** ** Python primitives *)

Module Py.

(** [len(s)] for a string and for a list, as Python integers. *)
Definition len (s : string) : Z := Z.of_nat (String.length s).
Definition llen {A} (l : list A) : Z := Z.of_nat (List.length l).

(** The first [n] characters of [s], and [s] without them. *)
Fixpoint str_take (n : nat) (s : string) : string :=
  match n, s with
  | O, _ => ""
  | S _, EmptyString => ""
  | S n', String c s' => String c (str_take n' s')
  end.

Fixpoint str_drop (n : nat) (s : string) : string :=
  match n, s with
  | O, _ => s
  | S _, EmptyString => ""
  | S n', String _ s' => str_drop n' s'
  end.

(** How a slice bound [i] is resolved against a sequence of length [n]:
    a negative bound counts from the end, and the result is clamped to
    [0..n]. *)
Definition slice_index (n : Z) (i : Z) : nat :=
  Z.to_nat (if i <? 0 then Z.max 0 (n + i) else Z.min i n).

(** [s[:i]], [s[i:]] and [s[i:j]]. *)
Definition slice_to (s : string) (i : Z) : string :=
  str_take (slice_index (len s) i) s.

Definition slice_from (s : string) (i : Z) : string :=
  str_drop (slice_index (len s) i) s.

Definition slice (s : string) (i j : Z) : string :=
  let a := slice_index (len s) i in
  let b := slice_index (len s) j in
  str_take (b - a)%nat (str_drop a s).

(** [s.split(sep)] for a one-character separator: every occurrence of the
    separator cuts, so the result is never empty and may hold empty
    strings. *)
Fixpoint split (sep : ascii) (s : string) : list string :=
  match s with
  | EmptyString => [""]
  | String c s' =>
      if Ascii.eqb c sep then "" :: split sep s'
      else match split sep s' with
           | w :: ws => String c w :: ws
           | [] => [String c ""]
           end
  end.

(** [sep.join(l)]. *)
Fixpoint join (sep : string) (l : list string) : string :=
  match l with
  | [] => ""
  | [x] => x
  | x :: rest => x +:+ sep +:+ join sep rest
  end.

(** [sum(l)] over integers. *)
Definition sum (l : list Z) : Z := fold_left Z.add l 0.

(** [s.startswith(p)]. *)
Definition startswith (s p : string) : bool := String.prefix p s.

(** [s.rjust(width)]: pad with spaces on the left up to [width]. *)
Definition rjust (s : string) (width : Z) : string :=
  String.concat "" (repeat " " (Z.to_nat (width - len s))) +:+ s.

(** [c.isspace()] for the ASCII characters. *)
Definition is_space (c : ascii) : bool :=
  let n := nat_of_ascii c in
  ((n =? 32) || ((9 <=? n) && (n <=? 13)) || ((28 <=? n) && (n <=? 31)))%nat.

(** [s.rstrip()]: without its trailing white space. *)
Fixpoint rstrip (s : string) : string :=
  match s with
  | EmptyString => ""
  | String c s' =>
      match rstrip s' with
      | EmptyString => if is_space c then "" else String c ""
      | rest => String c rest
      end
  end.

(** Truthiness of an optional string ([None] and [''] are falsy). *)
Definition truthy (o : option string) : bool :=
  match o with
  | Some s => negb (String.eqb s "")
  | None => false
  end.

(** [sum(map(bool, l))]. *)
Definition count_true (l : list bool) : Z :=
  sum (map (fun b : bool => if b then 1 else 0) l).

(** [max(l)] over a non-empty list of integers ([None] models the
    [ValueError] on an empty sequence). *)
Definition max_list (l : list Z) : option Z :=
  match l with
  | [] => None
  | x :: rest => Some (fold_left Z.max rest x)
  end.

(** The line feed character. *)
Definition LF : ascii := "010"%char.
Definition SP : ascii := " "%char.

End Py.

(** ** License text wrapping ([shut/util/external/licenses.py]) *)

Module Licenses.
Import Py.

(** The loop state of the inner [for word in line] loop:
    [lines], [words] and [length]. *)
Definition wrap_state : Type := list string * list string * Z.

(** One iteration of the inner loop (source lines 115 to 121). *)
Definition wrap_word (width : Z) (st : wrap_state) (word : string) : wrap_state :=
  let '(lines, words, length) := st in
  if length + 1 + len word >=? width then
    (lines ++ [join " " words], [], -1)
  else
    (lines, words ++ [word], length + len word + 1).

(** One iteration of the outer [for raw_line in ...] loop (lines 109 to 125). *)
Definition wrap_line (width : Z) (lines : list string) (raw_line : string)
  : list string :=
  let line := split SP raw_line in
  let length := sum (map len line) + llen line - 1 in
  if length >? width then
    let '(lines, words, _) := fold_left (wrap_word width) line (lines, [], -1) in
    match words with
    | [] => lines
    | _ :: _ => lines ++ [join " " words]
    end
  else
    lines ++ [join " " line].

Definition wrap_license_text (license_text : string) (width : Z) : string :=
  join (String LF "") (fold_left (wrap_line width) (split LF license_text) []).

(** The default value of the [width] parameter. *)
Definition default_width : Z := 79.

(** The words of a text: its lines cut at spaces. *)
Definition words_of (text : string) : list string :=
  concat (map (split SP) (split LF text)).

(** The second paragraph of the MIT license, on one line of 126 characters. *)
Definition mit_line : string :=
  "The above copyright notice and this permission notice shall be included in all copies or substantial portions of the Software.".

End Licenses.

(** ** Insertion-ordered dictionaries and sorting *)

Module PyDict.

(** A [dict] with string keys, as the list of its items in insertion order. *)
Definition dict (V : Type) : Type := list (string * V).

(** [d[k] = v]: an existing key keeps its position, a new key goes last. *)
Fixpoint set {V} (k : string) (v : V) (d : dict V) : dict V :=
  match d with
  | [] => [(k, v)]
  | (k', v') :: d' =>
      if String.eqb k' k then (k, v) :: d' else (k', v') :: set k v d'
  end.

(** [d.update(e)]. *)
Definition update {V} (d e : dict V) : dict V :=
  fold_left (fun acc kv => set (fst kv) (snd kv) acc) e d.

Definition keys {V} (d : dict V) : list string := map fst d.
Definition values {V} (d : dict V) : list V := map snd d.

(** [sorted(l, key=key)] for string keys: a stable insertion sort. *)
Fixpoint insert_sorted {A} (key : A -> string) (x : A) (l : list A) : list A :=
  match l with
  | [] => [x]
  | y :: l' =>
      if String.ltb (key x) (key y) then x :: y :: l'
      else y :: insert_sorted key x l'
  end.

Definition sorted {A} (key : A -> string) (l : list A) : list A :=
  fold_left (fun acc x => insert_sorted key x acc) l [].

End PyDict.

(** ** The shore command line ([shore/__main__.py]) *)

Module Shore.
Import Py.

(** *** Data

    The classes below are declared in [shore.core.plugins], [shore.model]
    and [shore.util.git], which are not among the sources; each record
    holds the attributes and methods that [shore/__main__.py] reads. *)

(** [CheckResult.Level]: the three members the command names, ordered
    [INFO < WARNING < ERROR] for [max]. *)
Inductive Level := INFO | WARNING | ERROR.

Definition level_rank (l : Level) : Z :=
  match l with INFO => 0 | WARNING => 1 | ERROR => 2 end.

Definition level_name (l : Level) : string :=
  match l with INFO => "INFO" | WARNING => "WARNING" | ERROR => "ERROR" end.

Definition level_max (a b : Level) : Level :=
  if level_rank a <? level_rank b then b else a.

Definition level_eqb (a b : Level) : bool := level_rank a =? level_rank b.

(** A check result: the subject it is on (its name, and whether it is a
    monorepo), its level and its message. *)
Record CheckResult := {
  on_name : string;
  on_monorepo : bool;
  level : Level;
  message : string
}.

(** A version reference: a file, the offsets [start] and [end] of the
    version string in it, and the version string found there. *)
Record VersionRef := {
  filename : string;
  start : Z;
  end_ : Z;
  value : string
}.

(** An entry of [git status --porcelain]. *)
Record FileStatus := {
  mode : string;
  status_filename : string
}.

(** The file system: resolved path to contents. *)
Abbreviation Files := (gmap string string).

(** A build target. [build dir files] runs the build on the files and tells
    whether it completed ([false]: it raised). *)
Record Build := {
  get_build_artifacts : list string;
  build : string -> Files -> bool * Files
}.

(** A publish target; [publish] as [build]. *)
Record Publisher := {
  get_build_selectors : list string;
  publish : list Build -> bool -> string -> Files -> bool * Files
}.

(** What a plugin reports for the subject it is attached to. *)
Record Plugin := {
  get_checks : list CheckResult;
  get_version_refs : list VersionRef
}.

Section Subjects.
Context {Version : Type}.

Record Package := {
  pkg_name : string;
  pkg_version : Version;
  pkg_directory : string;
  (** [subject.monorepo.mono_versioning], [None] without a monorepo *)
  pkg_monorepo : option bool;
  pkg_plugins : list Plugin;
  pkg_get_tag : Version -> string;
  pkg_private : bool;
  pkg_build_targets : PyDict.dict Build;
  pkg_publish_targets : PyDict.dict Publisher
}.

Record Monorepo := {
  mono_name : string;
  mono_version : Version;
  mono_directory : string;
  mono_versioning : bool;
  mono_plugins : list Plugin;
  mono_get_tag : Version -> string;
  mono_private : bool;
  mono_packages : list Package;
  mono_build_targets : PyDict.dict Build;
  mono_publish_targets : PyDict.dict Publisher
}.

Inductive Subject :=
| IsPackage (p : Package)
| IsMonorepo (m : Monorepo).

Definition name (s : Subject) : string :=
  match s with IsPackage p => pkg_name p | IsMonorepo m => mono_name m end.

Definition version (s : Subject) : Version :=
  match s with IsPackage p => pkg_version p | IsMonorepo m => mono_version m end.

Definition directory (s : Subject) : string :=
  match s with IsPackage p => pkg_directory p | IsMonorepo m => mono_directory m end.

Definition get_plugins (s : Subject) : list Plugin :=
  match s with IsPackage p => pkg_plugins p | IsMonorepo m => mono_plugins m end.

Definition get_tag (s : Subject) : Version -> string :=
  match s with IsPackage p => pkg_get_tag p | IsMonorepo m => mono_get_tag m end.

Definition get_private (s : Subject) : bool :=
  match s with IsPackage p => pkg_private p | IsMonorepo m => mono_private m end.

Definition get_build_targets (s : Subject) : PyDict.dict Build :=
  match s with
  | IsPackage p => pkg_build_targets p
  | IsMonorepo m => mono_build_targets m
  end.

Definition get_publish_targets (s : Subject) : PyDict.dict Publisher :=
  match s with
  | IsPackage p => pkg_publish_targets p
  | IsMonorepo m => mono_publish_targets m
  end.

Definition is_monorepo (s : Subject) : bool :=
  match s with IsPackage _ => false | IsMonorepo _ => true end.

End Subjects.

Arguments Package : clear implicits.
Arguments Monorepo : clear implicits.
Arguments Subject : clear implicits.

(** *** The world and what the program prints *)

Inductive Severity := LogDebug | LogInfo | LogWarning | LogError | LogException.

(** A log record keeps the format string and its arguments; [Print] keeps
    the fields given to [print]. Quotation marks and non-ASCII glyphs of
    the messages are written with ASCII characters. *)
Inductive Event :=
| Log (sev : Severity) (fmt : string) (args : list string)
| Print (fields : list string)
| Makedirs (path : string).

Record World {Git : Type} := mkWorld {
  cwd : string;
  files : Files;
  git : Git;
  output : list Event
}.
Arguments World : clear implicits.
Arguments mkWorld {Git}.

(** Exceptions and the other ways a command stops. [parser.error] prints the
    usage message and raises [SystemExit(2)]. *)
Inductive Exn :=
| RuntimeError (msg : string)
| AssertionError (msg : string)
| FileNotFoundError (path : string)
| ValueError (msg : string)
| Exception (msg : string).

Inductive Abort :=
| Return (v : option Z)
| ParserError (msg : string)
| Raise (e : Exn).

Inductive Outcome (A : Type) :=
| Ok (a : A)
| Stop (ab : Abort).
Arguments Ok {A}.
Arguments Stop {A}.

(** The modules of the repository that the command line imports:
    [shore.util.version], [shore.util.ci], [shore.util.git], [shore.model],
    together with [os.path] and [termcolor]. *)
Class Externals := {
  Version : Type;
  Git : Type;
  (** [shore.util.version]; [None] stands for a raised exception *)
  parse_version : string -> option Version;
  version_str : Version -> string;
  version_ltb : Version -> Version -> bool;
  version_eqb : Version -> Version -> bool;
  bump_version : Version -> string -> option Version;
  (** [shore.util.ci] *)
  get_ci_version : Subject Version -> Git -> option Version;
  (** [shore.util.git]; the working tree is given with the repository *)
  porcelain : Git -> Files -> list FileStatus;
  git_add : list string -> string -> Files -> Git -> Git;
  git_commit : string -> Git -> Git;
  git_tag : string -> bool -> Git -> Git;
  rev_parse : string -> Git -> option string;
  rev_list : string -> string -> Git -> list string;
  (** [Package.load] and [Monorepo.load], from the working directory *)
  Package_load : string -> string -> Files -> Package Version;
  Monorepo_load : string -> string -> Files -> Monorepo Version;
  (** [os.path.normpath(os.path.abspath(f))] in a working directory; files
      are keyed by this path *)
  resolve : string -> string -> string;
  (** [os.path.relpath(f)] and [os.path.join(a, b)] *)
  relpath : string -> string -> string;
  path_join : string -> string -> string;
  (** [termcolor.colored] *)
  colored : string -> option string -> string
}.

(** *** Parsed command-line arguments

    The attributes of the [argparse] namespace of each sub-command. *)

Module BumpArgs.
Record t := {
  path : option string;
  skip_checks : bool;
  version : option string;
  major : bool;
  minor : bool;
  patch : bool;
  post : bool;
  ci : bool;
  force : bool;
  tag : bool;
  dry : bool;
  show : bool;
  get_single_version : bool;
  status : bool
}.

(** [bool(getattr(args, k))]. *)
Definition getattr (args : t) (k : string) : bool :=
  if String.eqb k "path" then truthy (path args)
  else if String.eqb k "skip_checks" then skip_checks args
  else if String.eqb k "version" then truthy (version args)
  else if String.eqb k "major" then major args
  else if String.eqb k "minor" then minor args
  else if String.eqb k "patch" then patch args
  else if String.eqb k "post" then post args
  else if String.eqb k "ci" then ci args
  else if String.eqb k "force" then force args
  else if String.eqb k "tag" then tag args
  else if String.eqb k "dry" then dry args
  else if String.eqb k "show" then show args
  else if String.eqb k "get_single_version" then get_single_version args
  else if String.eqb k "status" then status args
  else false.
End BumpArgs.

Module ChecksArgs.
Record t := {
  treat_warnings_as_errors : bool
}.
End ChecksArgs.

Module PublishArgs.
Record t := {
  target : option string;
  test : bool;
  build_dir : string;
  reuse : bool
}.
End PublishArgs.

(** *** The command monad *)

Section Commands.
Context {E : Externals}.

Abbreviation world := (World Git).

(** A command runs in a world and either yields a value or stops. *)
Definition M (A : Type) : Type := world -> Outcome A * world.

Definition ret {A} (a : A) : M A := fun w => (Ok a, w).

Definition bind {A B} (m : M A) (k : A -> M B) : M B :=
  fun w =>
    match m w with
    | (Ok a, w') => k a w'
    | (Stop ab, w') => (Stop ab, w')
    end.

Definition stop {A} (ab : Abort) : M A := fun w => (Stop ab, w).

Notation "x <- m ;; k" := (bind m (fun x => k))
  (at level 100, m at next level, right associativity).
Notation "m ;;; k" := (bind m (fun _ => k))
  (at level 100, right associativity).

Definition return_ {A} (v : option Z) : M A := stop (Return v).
Definition parser_error {A} (msg : string) : M A := stop (ParserError msg).
Definition raise {A} (e : Exn) : M A := stop (Raise e).

Definition when (b : bool) (m : M unit) : M unit := if b then m else ret tt.

(** [for x in l: body x]. *)
Fixpoint for_each {A} (l : list A) (body : A -> M unit) : M unit :=
  match l with
  | [] => ret tt
  | x :: l' => body x ;;; for_each l' body
  end.

(** Calling a function: its [return] ends the call, not the caller, and
    falling off the end returns [None]. *)
Definition call (body : M unit) : M (option Z) :=
  fun w =>
    match body w with
    | (Ok tt, w') => (Ok None, w')
    | (Stop (Return v), w') => (Ok v, w')
    | (Stop ab, w') => (Stop ab, w')
    end.

(** The exit status of the process when a command ends this way:
    [sys.exit(main())]. *)
Definition exit_code {A} (o : Outcome A) : Z :=
  match o with
  | Ok _ => 0
  | Stop (Return None) => 0
  | Stop (Return (Some n)) => n
  | Stop (ParserError _) => 2
  | Stop (Raise _) => 1
  end.

(** Primitive effects. *)
Definition emit (e : Event) : M unit :=
  fun w => (Ok tt, mkWorld (cwd w) (files w) (git w) (output w ++ [e])).

Definition logger (sev : Severity) (fmt : string) (args : list string) : M unit :=
  emit (Log sev fmt args).

Definition print (fields : list string) : M unit := emit (Print fields).

Definition get_world : M world := fun w => (Ok w, w).

Definition chdir (path : string) : M unit :=
  fun w => (Ok tt, mkWorld (resolve (cwd w) path) (files w) (git w) (output w)).

Definition set_files (fs : Files) : M unit :=
  fun w => (Ok tt, mkWorld (cwd w) fs (git w) (output w)).

Definition set_git (g : Git) : M unit :=
  fun w => (Ok tt, mkWorld (cwd w) (files w) g (output w)).

(** [os.path.isfile(f)]. *)
Definition isfile (f : string) : M bool :=
  fun w => (Ok (bool_decide (is_Some (files w !! resolve (cwd w) f))), w).

(** [open(f).read()]. *)
Definition read_file (f : string) : M string :=
  fun w =>
    match files w !! resolve (cwd w) f with
    | Some contents => (Ok contents, w)
    | None => (Stop (Raise (FileNotFoundError f)), w)
    end.

(** [open(f, 'w').write(contents)]. *)
Definition write_file (f : string) (contents : string) : M unit :=
  fun w =>
    (Ok tt, mkWorld (cwd w) (<[resolve (cwd w) f := contents]> (files w))
                    (git w) (output w)).

(** A value that may have raised. *)
Definition or_raise {A} (o : option A) (e : Exn) : M A :=
  match o with
  | Some a => ret a
  | None => raise e
  end.

(** *** [_report_conflict] and [_load_subject] *)

(** Source lines 65 to 72. [has_opts] is a set; the order in which the
    message lists its members is the order of [opts] here. *)
Definition _report_conflict (args : BumpArgs.t) (opts : list string) : M unit :=
  let has_opts := remove_dups (List.filter (BumpArgs.getattr args) opts) in
  if llen has_opts >? 1 then
    parser_error ("conflicting options: " +:+
                  join " and " (map (fun k => "--" +:+ k) has_opts))
  else ret tt.

(** Source lines 75 to 86. *)
Definition _load_subject : M (Subject Version) :=
  has_package <- isfile "package.yaml" ;;
  has_monorepo <- isfile "monorepo.yaml" ;;
  w <- get_world ;;
  let package :=
    if has_package then Some (Package_load "package.yaml" (cwd w) (files w))
    else None in
  let monorepo :=
    if has_monorepo then Some (Monorepo_load "monorepo.yaml" (cwd w) (files w))
    else None in
  match package, monorepo with
  | Some _, Some _ =>
      raise (RuntimeError "found package.yaml and monorepo.yaml in the same directory")
  | None, None =>
      parser_error "no package.yaml or monorepo.yaml in current directory"
  | Some p, _ => ret (IsPackage p)
  | None, Some m => ret (IsMonorepo m)
  end.

(** *** [_run_for_subject] and [_run_checks] *)

(** The subjects [_run_for_subject] visits (source lines 266 to 270). *)
Definition subjects_of (subject : Subject Version) : list (Subject Version) :=
  match subject with
  | IsMonorepo m =>
      subject :: PyDict.sorted name (map IsPackage (mono_packages m))
  | IsPackage _ => [subject]
  end.

Definition _run_for_subject {A} (subject : Subject Version)
    (func : Subject Version -> A) : list A :=
  map func (subjects_of subject).

Definition _color_subject_name (on_monorepo : bool) (on_name : string) : string :=
  let color := if on_monorepo then "blue" else "cyan" in
  colored on_name (Some color).

Definition _collect_checks (subject : Subject Version) : list CheckResult :=
  concat (map get_checks (get_plugins subject)).

(** The [colors] table of source line 299. *)
Definition colors (l : Level) : option string :=
  match l with ERROR => Some "red" | WARNING => Some "magenta" | INFO => None end.

(** Source lines 278 to 305. *)
Definition _run_checks (subject : Subject Version)
    (treat_warnings_as_errors : bool) : M (option Z) :=
  call (
    let checks := concat (_run_for_subject subject _collect_checks) in
    match checks with
    | [] =>
        logger LogInfo "no checks triggered" [] ;;;
        return_ (Some 0)
    | c :: cs =>
        let max_level := fold_left level_max (map level cs) (level c) in
        let status :=
          match max_level with
          | INFO => 0
          | WARNING => if treat_warnings_as_errors then 1 else 0
          | ERROR => 1
          end in
        logger LogInfo "%s %s check(s) triggered"
          [if negb (status =? 0) then "failed" else "passed"; pretty (llen checks)] ;;;
        for_each checks (fun check =>
          let level := colored (level_name (level check)) (colors (level check)) in
          print ["  " +:+ level +:+ " (" +:+
                 _color_subject_name (on_monorepo check) (on_name check) +:+
                 "): " +:+ message check]) ;;;
        logger LogDebug "exiting with status %s" [pretty status] ;;;
        return_ (Some 1)
    end).

(** Source lines 308 to 310. *)
Definition _checks (args : ChecksArgs.t) : M unit :=
  subject <- _load_subject ;;
  r <- _run_checks subject (ChecksArgs.treat_warnings_as_errors args) ;;
  return_ r.

(** *** [_bump], in the order of the source

    The body of [_bump] is cut into consecutive blocks; each [bump_*]
    command below is the function up to the end of one block, and hands the
    local variables it has bound to the next. *)

Definition _git_porcelain : M (list FileStatus) :=
  fun w => (Ok (porcelain (git w) (files w)), w).

Definition _git_add (fs : list string) : M unit :=
  w <- get_world ;; set_git (git_add fs (cwd w) (files w) (git w)).

Definition _git_commit (msg : string) : M unit :=
  w <- get_world ;; set_git (git_commit msg (git w)).

Definition _git_tag (tag_name : string) (force : bool) : M unit :=
  w <- get_world ;; set_git (git_tag tag_name force (git w)).

(** The nested [_status] of source lines 404 to 415. *)
Definition _status (width : Z) (subject : Subject Version) : M unit :=
  w <- get_world ;;
  let tag := get_tag subject (version subject) in
  let ref := rev_parse tag (git w) in
  let status :=
    if negb (truthy ref) then
      colored ("tag '" +:+ tag +:+ "' not found") (Some "red")
    else
      let count := llen (rev_list (tag +:+ "..HEAD") (directory subject) (git w)) in
      if count =? 0 then
        colored "no commits" (Some "green") +:+ " since '" +:+ tag +:+ "'"
      else
        colored (pretty count +:+ " commit(s)") (Some "yellow") +:+
        " since '" +:+ tag +:+ "'" in
  print [rjust (name subject) width; status].

(** The nested [_get_version_refs] of source lines 427 to 429. *)
Definition _get_version_refs (subject : Subject Version) : list (list VersionRef) :=
  map get_version_refs (get_plugins subject).

(** Source lines 385 to 444: option conflicts, the subject, the selected
    operation, the checks, [--status], the monorepo rule, the version
    references and [--show]. *)
Definition bump_collect (args : BumpArgs.t)
  : M (Subject Version * list VersionRef) :=
  _report_conflict args ["version"; "ci"] ;;;
  _report_conflict args ["major"; "minor"; "patch"; "version"] ;;;
  when (truthy (BumpArgs.path args))
    (chdir (default "" (BumpArgs.path args))) ;;;
  subject <- _load_subject ;;
  let options :=
    [BumpArgs.post args; BumpArgs.patch args; BumpArgs.minor args;
     BumpArgs.major args; truthy (BumpArgs.version args); BumpArgs.show args;
     BumpArgs.ci args; BumpArgs.get_single_version args; BumpArgs.status args] in
  (if count_true options =? 0 then parser_error "no operation specified"
   else if count_true options >? 1 then parser_error "multiple operations specified"
   else ret tt) ;;;
  when (negb (BumpArgs.status args) && negb (BumpArgs.get_single_version args)
        && negb (BumpArgs.skip_checks args))
    (_ <- _run_checks subject true ;; ret tt) ;;;
  when (BumpArgs.status args)
    (width <- or_raise (max_list (_run_for_subject subject (fun s => len (name s))))
                       (ValueError "max() arg is an empty sequence") ;;
     for_each (subjects_of subject) (_status width) ;;;
     return_ (Some 0)) ;;;
  when (match subject with
        | IsPackage p => bool_decide (pkg_monorepo p = Some true)
        | IsMonorepo _ => false
        end)
    (if BumpArgs.force args then
       logger LogWarning
         "forcing version bump on individual package version that is usually managed by the monorepo." []
     else
       parser_error "cannot bump individual package version if managed by monorepo.") ;;;
  let version_refs :=
    match subject with
    | IsMonorepo m =>
        if mono_versioning m then
          concat (concat (_run_for_subject subject _get_version_refs))
        else concat (_get_version_refs subject)
    | IsPackage _ => concat (_get_version_refs subject)
    end in
  when (bool_decide (version_refs = []))
    (parser_error "no version refs found") ;;;
  when (BumpArgs.show args)
    (w <- get_world ;;
     for_each version_refs (fun ref =>
       print [relpath (cwd w) (filename ref) +:+ ": " +:+ value ref]) ;;;
     return_ (Some 0)) ;;;
  ret (subject, version_refs).

(** [any(parse_version(x.value) != subject.version for x in version_refs)]:
    the references are parsed in order until one differs; [None] when a
    value does not parse. *)
Fixpoint any_inconsistent (version_refs : list VersionRef) (v : Version)
  : option bool :=
  match version_refs with
  | [] => Some false
  | x :: rest =>
      match parse_version (value x) with
      | None => None
      | Some pv =>
          if negb (version_eqb pv v) then Some true
          else any_inconsistent rest v
      end
  end.

(** Source lines 446 to 459, after [bump_collect]. *)
Definition bump_checked (args : BumpArgs.t)
  : M (Subject Version * list VersionRef) :=
  found <- bump_collect args ;;
  let '(subject, version_refs) := found in
  is_inconsistent <- or_raise (any_inconsistent version_refs (version subject))
                              (ValueError "invalid version") ;;
  (if is_inconsistent && negb (BumpArgs.force args) then
     logger LogError "inconsistent versions across files need to be fixed first." [] ;;;
     return_ (Some 1)
   else if is_inconsistent && BumpArgs.get_single_version args then
     logger LogError "no single consistent version found." [] ;;;
     return_ (Some 1)
   else if is_inconsistent then
     logger LogWarning "inconsistent versions across files were found." []
   else ret tt) ;;;
  when (BumpArgs.get_single_version args)
    (print [version_str (version subject)] ;;;
     return_ (Some 0)) ;;;
  ret (subject, version_refs).

(** Source lines 461 to 475. *)
Definition new_version_of (args : BumpArgs.t) (subject : Subject Version)
  : M Version :=
  let current_version := version subject in
  if BumpArgs.post args then
    or_raise (bump_version current_version "post") (ValueError "bump_version")
  else if BumpArgs.patch args then
    or_raise (bump_version current_version "patch") (ValueError "bump_version")
  else if BumpArgs.minor args then
    or_raise (bump_version current_version "minor") (ValueError "bump_version")
  else if BumpArgs.major args then
    or_raise (bump_version current_version "major") (ValueError "bump_version")
  else if truthy (BumpArgs.version args) then
    or_raise (parse_version (default "" (BumpArgs.version args)))
             (ValueError "invalid version")
  else if BumpArgs.ci args then
    w <- get_world ;;
    or_raise (get_ci_version subject (git w)) (ValueError "get_ci_version")
  else raise (RuntimeError "what happened?").

Definition bump_versioned (args : BumpArgs.t)
  : M (Subject Version * list VersionRef * Version) :=
  found <- bump_checked args ;;
  let '(subject, version_refs) := found in
  new_version <- new_version_of args subject ;;
  ret (subject, version_refs, new_version).

(** Source lines 477 to 484: the new version must not be lower than, nor
    print like, the current one. *)
Definition bump_admitted (args : BumpArgs.t)
  : M (Subject Version * list VersionRef * Version) :=
  found <- bump_versioned args ;;
  let '(subject, version_refs, new_version) := found in
  let current_version := version subject in
  when (version_ltb new_version current_version && negb (BumpArgs.force args))
    (parser_error ("new version " +:+ version_str new_version +:+
                   " is lower than currenet version " +:+
                   version_str current_version)) ;;;
  when (String.eqb (version_str new_version) (version_str current_version)
        && negb (BumpArgs.force args))
    (parser_error ("new version " +:+ version_str new_version +:+
                   " is equal to current version " +:+
                   version_str current_version)) ;;;
  ret (subject, version_refs, new_version).

(** The set [n_files] of source lines 488 and 489. *)
Definition n_files (cwd : string) (version_refs : list VersionRef) : list string :=
  remove_dups (map (fun ref => resolve cwd (filename ref)) version_refs).

(** Source lines 486 to 491. *)
Definition bump_asserted (args : BumpArgs.t)
  : M (Subject Version * list VersionRef * Version) :=
  found <- bump_admitted args ;;
  let '(subject, version_refs, new_version) := found in
  w <- get_world ;;
  (if llen (n_files (cwd w) version_refs) =? llen version_refs then ret tt
   else raise (AssertionError
     "multiple version refs in one file is not currently supported.")) ;;;
  ret (subject, version_refs, new_version).

(** The replacement of source line 499. *)
Definition splice (contents : string) (ref : VersionRef) (new_version : Version)
  : string :=
  slice_to contents (start ref) +:+ version_str new_version +:+
  slice_from contents (end_ ref).

(** The body of the loop of source lines 494 to 501. *)
Definition rewrite_ref (args : BumpArgs.t) (new_version : Version)
    (ref : VersionRef) : M unit :=
  w <- get_world ;;
  logger LogInfo "  %s: %s -> %s"
    [relpath (cwd w) (filename ref); value ref; version_str new_version] ;;;
  when (negb (BumpArgs.dry args))
    (contents <- read_file (filename ref) ;;
     let contents := splice contents ref new_version in
     write_file (filename ref) contents).

(** Source lines 493 to 501. *)
Definition bump_rewritten (args : BumpArgs.t)
  : M (Subject Version * list VersionRef * Version) :=
  found <- bump_asserted args ;;
  let '(subject, version_refs, new_version) := found in
  logger LogInfo "bumping %d version reference(s)" [pretty (llen version_refs)] ;;;
  for_each version_refs (rewrite_ref args new_version) ;;;
  ret (subject, version_refs, new_version).

Definition has_mode (m : string) (l : list FileStatus) : bool :=
  existsb (fun f => String.eqb (mode f) m) l.

(** Source lines 503 to 519. *)
Definition tagging (args : BumpArgs.t) (subject : Subject Version)
    (version_refs : list VersionRef) (new_version : Version) : M unit :=
  when (BumpArgs.tag args)
    (staged <- _git_porcelain ;;
     when (has_mode "A" staged)
       (logger LogError "cannot tag with non-empty staging area" [] ;;;
        return_ (Some 1)) ;;;
     let tag_name := get_tag subject new_version in
     logger LogInfo "tagging %s" [tag_name] ;;;
     when (negb (BumpArgs.dry args))
       (let changed_files := map filename version_refs in
        _git_add changed_files ;;;
        staged <- _git_porcelain ;;
        when (has_mode "M" staged)
          (_git_commit ("(" +:+ name subject +:+ ") bump version to " +:+
                        version_str new_version)) ;;;
        _git_tag tag_name (BumpArgs.force args))).

(** Source lines 384 to 519. *)
Definition _bump (args : BumpArgs.t) : M unit :=
  found <- bump_rewritten args ;;
  let '(subject, version_refs, new_version) := found in
  tagging args subject version_refs new_version.

(** *** [_publish] *)

(** Source lines 522 to 525. *)
Definition _filter_targets {V} (targets : PyDict.dict V) (target : string)
  : PyDict.dict V :=
  List.filter
    (fun kv => String.eqb target (fst kv) || startswith (fst kv) (target +:+ ":"))
    targets.

(** [try: body except: handler], with a bare [except] clause: it takes
    every exception, [SystemExit] included, and lets a [return] pass. *)
Definition try_except {A} (body handler : M A) : M A :=
  fun w =>
    match body w with
    | (Stop (Raise _), w') => handler w'
    | (Stop (ParserError _), w') => handler w'
    | r => r
    end.

(** [build.build(dir)] and [publisher.publish(...)] as commands. *)
Definition run_build (b : Build) (dir : string) : M unit :=
  fun w =>
    let '(completed, fs) := build b dir (files w) in
    (if completed then Ok tt else Stop (Raise (Exception "build")),
     mkWorld (cwd w) fs (git w) (output w)).

Definition run_publish (p : Publisher) (builds : list Build) (test : bool)
    (dir : string) : M unit :=
  fun w =>
    let '(completed, fs) := publish p builds test dir (files w) in
    (if completed then Ok tt else Stop (Raise (Exception "publish")),
     mkWorld (cwd w) fs (git w) (output w)).

(** The nested [_needs_build] of source lines 566 to 570. *)
Definition _needs_build (args : PublishArgs.t) (b : Build) : M bool :=
  fun w =>
    (Ok (existsb
           (fun filename =>
              negb (bool_decide (is_Some
                (files w !! resolve (cwd w)
                              (path_join (PublishArgs.build_dir args) filename)))))
           (get_build_artifacts b)), w).

(** The loop over the selectors of source lines 576 to 581; [None] when a
    selector matches no build (the function then returns [False]). *)
Fixpoint collect_required (builds : PyDict.dict Build) (selectors : list string)
    (required_builds : PyDict.dict Build) : M (option (PyDict.dict Build)) :=
  match selectors with
  | [] => ret (Some required_builds)
  | selector :: rest =>
      let selector_builds := _filter_targets builds selector in
      match selector_builds with
      | [] =>
          logger LogError "selector '%s' could not be satisfied" [selector] ;;;
          ret None
      | _ :: _ =>
          collect_required builds rest (PyDict.update required_builds selector_builds)
      end
  end.

(** The [try] block of [_run_publisher] after its first record (source
    lines 575 to 592). *)
Definition publisher_body (args : PublishArgs.t) (builds : PyDict.dict Build)
    (publisher : Publisher) : M bool :=
  required <- collect_required builds (get_build_selectors publisher) [] ;;
  match required with
  | None => ret false
  | Some required_builds =>
      for_each required_builds (fun item =>
        let '(target_id, b) := item in
        skip <- (if PublishArgs.reuse args then
                   needs <- _needs_build args b ;; ret (negb needs)
                 else ret false) ;;
        if skip : bool then
          logger LogInfo "skipping target %s" [colored target_id (Some "blue")]
        else
          logger LogInfo "building target %s" [colored target_id (Some "blue")] ;;;
          emit (Makedirs (PublishArgs.build_dir args)) ;;;
          run_build b (PublishArgs.build_dir args)) ;;;
      run_publish publisher (PyDict.values required_builds)
        (PublishArgs.test args) (PublishArgs.build_dir args) ;;;
      ret true
  end.

(** The nested [_run_publisher] of source lines 572 to 595. *)
Definition _run_publisher (args : PublishArgs.t) (builds : PyDict.dict Build)
    (name : string) (publisher : Publisher) : M bool :=
  try_except
    (logger LogInfo "collecting builds for '%s' ..." [name] ;;;
     publisher_body args builds publisher)
    (logger LogException "error while running publisher '%s'" [name] ;;;
     ret false).

(** The loop of source lines 597 to 600. *)
Fixpoint run_publishers (args : PublishArgs.t) (builds : PyDict.dict Build)
    (publishers : PyDict.dict Publisher) (status : Z) : M Z :=
  match publishers with
  | [] => ret status
  | (key, publisher) :: rest =>
      succeeded <- _run_publisher args builds key publisher ;;
      run_publishers args builds rest (if negb succeeded then 1 else status)
  end.

(** Source lines 548 to 603. *)
Definition _publish (args : PublishArgs.t) : M unit :=
  subject <- _load_subject ;;
  let builds := get_build_targets subject in
  let publishers := get_publish_targets subject in
  when (get_private subject)
    (logger LogError "'%s' is marked private, publish prevented." [name subject] ;;;
     return_ (Some 1)) ;;;
  publishers <-
    (if truthy (PublishArgs.target args) then
       let publishers :=
         _filter_targets publishers (default "" (PublishArgs.target args)) in
       match publishers with
       | [] =>
           logger LogError "no publish targets matched '%s'"
             [default "" (PublishArgs.target args)] ;;;
           return_ (Some 1)
       | _ :: _ => ret publishers
       end
     else ret publishers) ;;
  when (bool_decide (publishers = []))
    (logger LogInfo "no publish targets" []) ;;;
  status <- run_publishers args builds publishers 0 ;;
  logger LogDebug "exit with status code %s" [pretty status] ;;;
  return_ (Some status).

End Commands.

End Shore.

(** ** The slam test command ([slam/ext/application/test.py]) *)

Module Slam.
Import Py.

(** The attributes of [slam.project.Project] that the command reads. *)
Record Project := {
  id : string;
  directory : string
}.

Record Test := {
  project : Project;
  name : string;
  command : string
}.

#[global] Instance Project_eq_dec : EqDecision Project.
Proof. solve_decision. Defined.

#[global] Instance Test_eq_dec : EqDecision Test.
Proof. solve_decision. Defined.

(** The [id] property of [Test] (source lines 71 to 73). *)
Definition test_id (t : Test) : string :=
  id (project t) +:+ ":" +:+ name t.

(** What the command writes, and the processes it starts. *)
Inductive IOEvent :=
| Write (text : string)
| Line (text : string)
| LineError (text : string) (style : string)
| Spawn (command : list string) (cwd : string).

(** How a call ends. *)
Inductive Result :=
| Returned (code : Z)
| Raised (exception : string).

(** The operating system under [TestRunner.run]:
    [os.get_terminal_size()] ([None]: [OSError]);
    [subprocess.Popen(command, cwd=cwd, ...)] with the lines read from its
    output and [returncode] after [wait()];
    [PtyProcessUnicode.spawn(command, dimensions, cwd)] with the lines
    read up to the end of file and [exitstatus] after [wait()]. *)
Class Processes := {
  Env : Type;
  get_terminal_size : Env -> option (Z * Z);
  popen : list string -> string -> Env -> list string * option Z * Env;
  pty_spawn : list string -> Z * Z -> string -> Env -> list string * option Z * Env
}.

(** The class attribute [TestRunner._colors]. *)
Definition _colors : list string := ["blue"; "cyan"; "magenta"; "yellow"].

(** [l.index(x)], for a member. *)
Fixpoint index_of (x : string) (l : list string) : nat :=
  match l with
  | [] => O
  | y :: l' => if String.eqb y x then O else S (index_of x l')
  end.

(** The color of source line 33. *)
Definition next_color (prev_color : option string) : string :=
  match prev_color with
  | None => nth 0 _colors ""
  | Some c => nth ((index_of c _colors + 1) mod List.length _colors) _colors ""
  end.

Section TestCommand.
Context {P : Processes}.

(** The environment, the class attribute [TestRunner._prev_color], and what
    was written so far. *)
Record State := mkState {
  env : Env;
  _prev_color : option string;
  io : list IOEvent
}.

(** [TestRunner]: the attributes set by [__init__]. *)
Record TestRunner := {
  runner_name : string;
  config : string;
  cwd : string;
  line_prefixing : bool
}.

(** The command object: [self.tests], [self.monorepo], and the parsed
    argument [test] and option [no-line-prefix] ([None]: [NotSet.Value]). *)
Record TestCommand := {
  tests : list Test;
  monorepo : bool;
  argument_test : list string;
  option_no_line_prefix : option bool
}.

Definition emit (e : IOEvent) (s : State) : State :=
  mkState (env s) (_prev_color s) (io s ++ [e]).

Definition line (text : string) (s : State) : State := emit (Line text) s.

Definition line_error (text style : string) (s : State) : State :=
  emit (LineError text style) s.

(** The two copies of the loop over the output lines (source lines 43 to
    47 and 53 to 60). *)
Definition write_lines (self : TestRunner) (color prefix : string)
    (lines : list string) (s : State) : State :=
  fold_left
    (fun s line_ =>
       let line_ := rstrip line_ in
       let s := if line_prefixing self
                then emit (Write ("<fg=" +:+ color +:+ ">" +:+ prefix +:+ "</fg>")) s
                else s in
       emit (Write (line_ +:+ String LF "")) s)
    lines s.

(** [TestRunner.run] (source lines 26 to 63). *)
Definition run (self : TestRunner) (s : State) : Result * State :=
  let color := next_color (_prev_color s) in
  let s := mkState (env s) (Some color) (io s) in
  let command := ["bash"; "-c"; config self] in
  let prefix := runner_name self +:+ "| " in
  match get_terminal_size (env s) with
  | None =>
      let '(lines, returncode, e) := popen command (cwd self) (env s) in
      let s := emit (Spawn command (cwd self)) s in
      let s := write_lines self color prefix lines s in
      let s := mkState e (_prev_color s) (io s) in
      match returncode with
      | None => (Raised "AssertionError", s)
      | Some code => (Returned code, s)
      end
  | Some (cols, rows) =>
      let '(lines, exitstatus, e) :=
        pty_spawn command (rows, cols - len prefix) (cwd self) (env s) in
      let s := emit (Spawn command (cwd self)) s in
      let s := write_lines self color prefix lines s in
      let s := mkState e (_prev_color s) (io s) in
      match exitstatus with
      | None => (Raised "AssertionError", s)
      | Some code => (Returned code, s)
      end
  end.

(** Source lines 110 to 127; [None] stands for the [ValueError]. The set
    [result] is the list of its members, without repetition. *)
Definition _select_tests (self : TestCommand) (name_ : string) : option (list Test) :=
  let use_test (test : Test) : bool :=
    (monorepo self &&
       (String.eqb name_ (test_id test)
        || (startswith name_ ":" && String.eqb (name test) (slice_from name_ 1))
        || String.eqb (id (project test)) name_))
    || (negb (monorepo self) && String.eqb name_ (name test)) in
  let result := remove_dups (List.filter use_test (tests self)) in
  match result with
  | [] => None
  | _ :: _ => Some result
  end.

(** The set comprehension of source line 140: the names are looked up in
    order; the first one that matches nothing is the error. *)
Fixpoint select_all (self : TestCommand) (test_names : list string)
  : string + list Test :=
  match test_names with
  | [] => inr []
  | a :: rest =>
      match _select_tests self a with
      | None => inl a
      | Some ts =>
          match select_all self rest with
          | inl bad => inl bad
          | inr more => inr (ts ++ more)
          end
      end
  end.

(** The tests to run (source lines 134 to 143): all of them, or those the
    names select; [inl] carries the name that matched nothing. *)
Definition selected (self : TestCommand) : string + list Test :=
  match argument_test self with
  | [] => inr (remove_dups (tests self))
  | _ :: _ =>
      match select_all self (argument_test self) with
      | inl bad => inl bad
      | inr ts => inr (remove_dups ts)
      end
  end.

(** Source line 148. *)
Definition single_project (self : TestCommand) : bool :=
  bool_decide (List.length (remove_dups (map project (tests self))) = 1%nat).

(** Source lines 145 and 146. *)
Definition no_line_prefix (self : TestCommand) (tests_ : list Test) : bool :=
  match option_no_line_prefix self with
  | None => bool_decide (List.length tests_ = 1%nat)
  | Some b => b
  end.

(** The key under which a result is stored (source lines 152 and 153). *)
Definition result_key (single_project : bool) (test : Test) : string :=
  if single_project then name test else test_id test.

(** The runner of source lines 152 to 158. *)
Definition runner_of (single_project no_line_prefix : bool) (test : Test)
  : TestRunner :=
  {| runner_name := result_key single_project test;
     config := command test;
     cwd := directory (project test);
     line_prefixing := negb no_line_prefix |}.

(** The loop of source lines 151 to 158; an exception raised by a runner
    ends it. *)
Fixpoint run_tests (single_project no_line_prefix : bool) (sorted_tests : list Test)
    (results : PyDict.dict Z) (s : State) : (string + PyDict.dict Z) * State :=
  match sorted_tests with
  | [] => (inr results, s)
  | test :: rest =>
      match run (runner_of single_project no_line_prefix test) s with
      | (Returned code, s') =>
          run_tests single_project no_line_prefix rest
            (PyDict.set (result_key single_project test) code results) s'
      | (Raised e, s') => (inl e, s')
      end
  end.

(** The summary of source lines 160 to 164. *)
Definition summary (results : PyDict.dict Z) (s : State) : State :=
  fold_left
    (fun s kv =>
       let color := if snd kv =? 0 then "green" else "red" in
       line ("  <fg=" +:+ color +:+ ">*</fg> " +:+ fst kv +:+
             " (exit code: " +:+ pretty (snd kv) +:+ ")") s)
    results
    (line (String LF "<comment>test summary:</comment>") s).

(** [set(results.values()) == {0}]. *)
Definition all_zero (results : PyDict.dict Z) : bool :=
  match PyDict.values results with
  | [] => false
  | vs => forallb (fun v => v =? 0) vs
  end.

(** Source lines 129 to 166. *)
Definition handle (self : TestCommand) (s : State) : Result * State :=
  match tests self with
  | [] => (Returned 1, line_error "error: no tests configured" "error" s)
  | _ :: _ =>
      match selected self with
      | inl bad =>
          (Returned 1,
           line_error ("error: '" +:+ bad +:+ "' did not match any tests")
             "error" s)
      | inr tests_ =>
          match run_tests (single_project self) (no_line_prefix self tests_)
                  (PyDict.sorted test_id tests_) [] s with
          | (inl e, s1) => (Raised e, s1)
          | (inr results, s1) =>
              let s2 :=
                if (1 <? List.length tests_)%nat then summary results s1 else s1 in
              (Returned (if all_zero results then 0 else 1), s2)
          end
      end
  end.

(** What each test returned, in the order the loop runs them: every
    runner is run in the state the one before it leaves. *)
Fixpoint test_outcomes (single_project no_line_prefix : bool)
    (sorted_tests : list Test) (s : State) : list (string * Result) :=
  match sorted_tests with
  | [] => []
  | test :: rest =>
      let r := run (runner_of single_project no_line_prefix test) s in
      (result_key single_project test, fst r)
      :: test_outcomes single_project no_line_prefix rest (snd r)
  end.

(** A test that returned 0. *)
Definition succeeded (r : Result) : bool :=
  match r with
  | Returned code => code =? 0
  | Raised _ => false
  end.

(** The commands that were started, with their directories. *)
Definition spawned (events : list IOEvent) : list (list string * string) :=
  omap (fun e => match e with Spawn c d => Some (c, d) | _ => None end) events.


(** Every process ends with an exit status. *)
Definition exits_with_status : Prop :=
  (forall command_ cwd_ e, is_Some (snd (fst (popen command_ cwd_ e))))
  /\ (forall command_ dims cwd_ e,
        is_Some (snd (fst (pty_spawn command_ dims cwd_ e)))).

End TestCommand.

End Slam.

(** ** A small instance of the external modules

    Release versions [major.minor.patch], a git repository reduced to its
    index, its commits and its tags, and a directory holding one package.
    The instance runs the commands on concrete inputs. *)

Module Demo.
Import Py Shore.

(** Modelled from the spec: the [Version] of [shore.util.version] (parsed
    version with major, minor and patch fields, ordered, printed and parsed
    back), restricted to release triples. *)
Definition SimpleVersion : Type := (nat * nat * nat)%type.

Definition digit (c : ascii) : option nat :=
  let n := nat_of_ascii c in
  if ((48 <=? n) && (n <=? 57))%nat then Some (n - 48)%nat else None.

Fixpoint parse_digits (s : string) (acc : nat) : option nat :=
  match s with
  | EmptyString => Some acc
  | String c s' =>
      match digit c with
      | Some d => parse_digits s' (10 * acc + d)%nat
      | None => None
      end
  end.

Definition parse_nat (s : string) : option nat :=
  match s with
  | EmptyString => None
  | _ => parse_digits s 0
  end.

Definition simple_parse (s : string) : option SimpleVersion :=
  match split "."%char s with
  | [a; b; c] =>
      match parse_nat a, parse_nat b, parse_nat c with
      | Some x, Some y, Some z => Some (x, y, z)
      | _, _, _ => None
      end
  | _ => None
  end.

Definition simple_str (v : SimpleVersion) : string :=
  let '(x, y, z) := v in
  pretty x +:+ "." +:+ pretty y +:+ "." +:+ pretty z.

Definition simple_ltb (v w : SimpleVersion) : bool :=
  let '(x, y, z) := v in
  let '(x', y', z') := w in
  ((x <? x') || ((x =? x') && ((y <? y') || ((y =? y') && (z <? z')))))%nat.

Definition simple_eqb (v w : SimpleVersion) : bool :=
  let '(x, y, z) := v in
  let '(x', y', z') := w in
  ((x =? x') && (y =? y') && (z =? z'))%nat.

Definition simple_bump (v : SimpleVersion) (kind : string) : option SimpleVersion :=
  let '(x, y, z) := v in
  if String.eqb kind "major" then Some (S x, O, O)
  else if String.eqb kind "minor" then Some (x, S y, O)
  else if String.eqb kind "patch" then Some (x, y, S z)
  else None.

(** A git repository: the entries of its status, its commits, its tags. *)
Record SimpleGit := {
  index : list FileStatus;
  commits : list string;
  tags : list (string * bool)
}.

Definition simple_add (fs : list string) (g : SimpleGit) : SimpleGit :=
  {| index := index g ++ map (fun f => {| mode := "M"; status_filename := f |}) fs;
     commits := commits g;
     tags := tags g |}.

Definition simple_commit (msg : string) (g : SimpleGit) : SimpleGit :=
  {| index := []; commits := commits g ++ [msg]; tags := tags g |}.

Definition simple_tag (tag_name : string) (force : bool) (g : SimpleGit) : SimpleGit :=
  {| index := index g; commits := commits g; tags := tags g ++ [(tag_name, force)] |}.

Definition simple_resolve (cwd f : string) : string :=
  if String.prefix "/" f then f else cwd +:+ "/" +:+ f.

Definition empty_monorepo : Monorepo SimpleVersion :=
  {| mono_name := "mono"; mono_version := (0, 0, 0)%nat; mono_directory := "/repo";
     mono_versioning := false; mono_plugins := [];
     mono_get_tag := fun v => "v" +:+ simple_str v; mono_private := false;
     mono_packages := []; mono_build_targets := []; mono_publish_targets := [] |}.

(** The external modules, around the package that [package.yaml] describes. *)
Definition externals (pkg : Package SimpleVersion) : Externals :=
  {| Version := SimpleVersion;
     Git := SimpleGit;
     parse_version := simple_parse;
     version_str := simple_str;
     version_ltb := simple_ltb;
     version_eqb := simple_eqb;
     bump_version := simple_bump;
     get_ci_version := fun _ _ => None;
     porcelain := fun g _ => index g;
     git_add := fun fs _ _ g => simple_add fs g;
     git_commit := simple_commit;
     git_tag := simple_tag;
     rev_parse := fun t g => if existsb (fun e => String.eqb (fst e) t) (tags g)
                             then Some t else None;
     rev_list := fun _ _ _ => [];
     Package_load := fun _ _ _ => pkg;
     Monorepo_load := fun _ _ _ => empty_monorepo;
     resolve := simple_resolve;
     relpath := fun _ f => f;
     path_join := fun a b => a +:+ "/" +:+ b;
     colored := fun text _ => text |}.

Definition setup_ref : VersionRef :=
  {| filename := "setup.py"; start := 9; end_ := 14; value := "1.0.0" |}.

Definition init_ref : VersionRef :=
  {| filename := "src/demo/__init__.py"; start := 15; end_ := 20; value := "1.0.0" |}.

Definition stale_ref : VersionRef :=
  {| filename := "setup.py"; start := 9; end_ := 14; value := "0.9.0" |}.

Definition info_check : CheckResult :=
  {| on_name := "demo"; on_monorepo := false; level := INFO;
     message := "no changelog entry" |}.

(** A build that writes its artifact, and publishers that succeed or fail. *)
Definition sdist : Build :=
  {| get_build_artifacts := ["demo-1.0.0.tar.gz"];
     build := fun dir fs => (true, <[dir +:+ "/demo-1.0.0.tar.gz" := "sdist"]> fs) |}.

Definition good_publisher : Publisher :=
  {| get_build_selectors := ["setuptools"];
     publish := fun _ _ _ fs => (true, fs) |}.

Definition failing_publisher : Publisher :=
  {| get_build_selectors := ["setuptools"];
     publish := fun _ _ _ fs => (false, fs) |}.

Definition package_with (checks : list CheckResult) (refs : list VersionRef)
  : Package SimpleVersion :=
  {| pkg_name := "demo"; pkg_version := (1, 0, 0)%nat; pkg_directory := "/repo";
     pkg_monorepo := None;
     pkg_plugins := [{| get_checks := checks; get_version_refs := refs |}];
     pkg_get_tag := fun v => "v" +:+ simple_str v;
     pkg_private := false;
     pkg_build_targets := [("setuptools:sdist", sdist)];
     pkg_publish_targets := [("pypi", failing_publisher); ("mirror", good_publisher)] |}.

(** The package of the examples: two version references, in two files. *)
Definition package : Package SimpleVersion :=
  package_with [] [setup_ref; init_ref].

Definition clean_git : SimpleGit := {| index := []; commits := []; tags := [] |}.

Definition staged_git : SimpleGit :=
  {| index := [{| mode := "A"; status_filename := "NEWS.md" |}];
     commits := []; tags := [] |}.

Definition repo_files : Files :=
  <["/repo/package.yaml" := "name: demo"]>
  (<["/repo/setup.py" := "version='1.0.0'"]>
  (<["/repo/src/demo/__init__.py" := "__version__ = '1.0.0'"]> ∅)).

Definition repo (g : SimpleGit) : World SimpleGit :=
  {| cwd := "/repo"; files := repo_files; git := g; output := [] |}.



(** [shore bump --patch], with [--force], [--tag] and [--dry] as given. *)
Definition patch_args (force tag dry : bool) : BumpArgs.t :=
  {| BumpArgs.path := None; BumpArgs.skip_checks := false;
     BumpArgs.version := None; BumpArgs.major := false; BumpArgs.minor := false;
     BumpArgs.patch := true; BumpArgs.post := false; BumpArgs.ci := false;
     BumpArgs.force := force; BumpArgs.tag := tag; BumpArgs.dry := dry;
     BumpArgs.show := false; BumpArgs.get_single_version := false;
     BumpArgs.status := false |}.

(** [shore bump --version V], with [--force] as given. *)
Definition version_args (v : string) (force : bool) : BumpArgs.t :=
  {| BumpArgs.path := None; BumpArgs.skip_checks := false;
     BumpArgs.version := Some v; BumpArgs.major := false; BumpArgs.minor := false;
     BumpArgs.patch := false; BumpArgs.post := false; BumpArgs.ci := false;
     BumpArgs.force := force; BumpArgs.tag := false; BumpArgs.dry := false;
     BumpArgs.show := false; BumpArgs.get_single_version := false;
     BumpArgs.status := false |}.

(** [shore bump --get-single-version --force]. *)
Definition single_version_args : BumpArgs.t :=
  {| BumpArgs.path := None; BumpArgs.skip_checks := false;
     BumpArgs.version := None; BumpArgs.major := false; BumpArgs.minor := false;
     BumpArgs.patch := false; BumpArgs.post := false; BumpArgs.ci := false;
     BumpArgs.force := true; BumpArgs.tag := false; BumpArgs.dry := false;
     BumpArgs.show := false; BumpArgs.get_single_version := true;
     BumpArgs.status := false |}.

(** The operating system of the examples: no terminal; the command
    [false] exits with status 1, every other command with status 0. *)
Definition shell : Slam.Processes :=
  {| Slam.Env := unit;
     Slam.get_terminal_size := fun _ => None;
     Slam.popen := fun command _ e =>
       ([], Some (if String.eqb (nth 2 command "") "false" then 1 else 0), e);
     Slam.pty_spawn := fun command _ _ e =>
       ([], Some (if String.eqb (nth 2 command "") "false" then 1 else 0), e) |}.

Definition demo_project : Slam.Project :=
  {| Slam.id := "demo"; Slam.directory := "/repo" |}.

(** [[tool.slam.test]] with [lint = "false"] and [unit = "true"]. *)
Definition demo_tests : list Slam.Test :=
  [{| Slam.project := demo_project; Slam.name := "unit"; Slam.command := "true" |};
   {| Slam.project := demo_project; Slam.name := "lint"; Slam.command := "false" |}].


Definition quiet_terminal : @Slam.State shell := @Slam.mkState shell tt None [].

Definition publish_args : PublishArgs.t :=
  {| PublishArgs.target := None; PublishArgs.test := false;
     PublishArgs.build_dir := "/repo/build"; PublishArgs.reuse := false |}.

End Demo.


(** ** The statements about the commands *)

Module Rules.
Import Py Shore.

Section Rules.
Context {E : Externals}.

(** A command that leaves the files and the repository as they are,
    however it ends. *)
Definition quiet {A} (m : M A) : Prop :=
  forall w, files (snd (m w)) = files w /\ git (snd (m w)) = git w.

(** A command that only adds to what was printed, and adds only [P]. *)
Definition prints {A} (P : Event -> Prop) (m : M A) : Prop :=
  forall w, exists evs, output (snd (m w)) = output w ++ evs /\ Forall P evs.

(** A command that does not end by a [return]. *)
Definition no_return {A} (m : M A) : Prop :=
  forall w v w', m w <> (Stop (Return v), w').

(** The world after one more log record. *)
Definition logged (e : Event) (w : World Git) : World Git :=
  mkWorld (cwd w) (files w) (git w) (output w ++ [e]).

(** The file a reference points into. *)
Definition ref_path (w : World Git) (ref : VersionRef) : string :=
  resolve (cwd w) (filename ref).

(** The record the loop logs for a reference. *)
Definition rewrite_record (w : World Git) (new_version : Version)
    (ref : VersionRef) : Event :=
  Log LogInfo "  %s: %s -> %s"
    [relpath (cwd w) (filename ref); value ref; version_str new_version].

(** Offsets [start, end) into the contents. *)
Definition in_range (ref : VersionRef) (contents : string) : Prop :=
  0 <= start ref /\ start ref <= end_ ref /\ end_ ref <= len contents.


(** A reference whose value parses to another version than the subject's. *)
Definition disagrees (subject : Subject Version) (ref : VersionRef) : Prop :=
  exists pv, parse_version (value ref) = Some pv
             /\ version_eqb pv (version subject) = false.

(** When all references disagree: refusal without [--force], a warning and
    the bump goes on with it. *)
Definition inconsistency_rule (args : BumpArgs.t) (w : World Git) : Prop :=
  forall subject refs w1,
    bump_collect args w = (Ok (subject, refs), w1) ->
    Forall (disagrees subject) refs ->
    if BumpArgs.force args then
      bump_checked args w
      = (Ok (subject, refs),
         logged (Log LogWarning "inconsistent versions across files were found." []) w1)
    else
      _bump args w
      = (Stop (Return (Some 1)),
         logged (Log LogError
                   "inconsistent versions across files need to be fixed first." []) w1)
      /\ files w1 = files w.

(** The commit message of source line 518. *)
Definition commit_message (subject : Subject Version) (new_version : Version)
  : string :=
  "(" +:+ name subject +:+ ") bump version to " +:+ version_str new_version.

(** The repository after staging the changed files, committing if some
    entry is modified, and tagging. *)
Definition tagged_repository (args : BumpArgs.t) (subject : Subject Version)
    (refs : list VersionRef) (new_version : Version) (w : World Git) : Git :=
  let g1 := git_add (map filename refs) (cwd w) (files w) (git w) in
  let g2 := if has_mode "M" (porcelain g1 (files w))
            then git_commit (commit_message subject new_version) g1 else g1 in
  git_tag (get_tag subject new_version) (BumpArgs.force args) g2.

(** With [--tag]: refusal when an entry of the index is added; otherwise
    stage, commit if modified, tag. *)
Definition tagging_rule (args : BumpArgs.t) (w : World Git) : Prop :=
  forall subject refs new_version w2,
    BumpArgs.tag args = true ->
    bump_rewritten args w = (Ok (subject, refs, new_version), w2) ->
    if has_mode "A" (porcelain (git w2) (files w2)) then
      _bump args w
      = (Stop (Return (Some 1)),
         logged (Log LogError "cannot tag with non-empty staging area" []) w2)
    else
      exists w',
        _bump args w = (Ok tt, w')
        /\ git w' = tagged_repository args subject refs new_version w2
        /\ files w' = files w2.

(** Two of the options that exclude each other are set. *)
Definition conflicting (args : BumpArgs.t) : bool :=
  (truthy (BumpArgs.version args) && BumpArgs.ci args)
  || (count_true [BumpArgs.major args; BumpArgs.minor args; BumpArgs.patch args;
                  truthy (BumpArgs.version args)] >? 1).

(** The operations, of which exactly one is to be selected. *)
Definition operations (args : BumpArgs.t) : list bool :=
  [BumpArgs.post args; BumpArgs.patch args; BumpArgs.minor args;
   BumpArgs.major args; truthy (BumpArgs.version args); BumpArgs.show args;
   BumpArgs.ci args; BumpArgs.get_single_version args; BumpArgs.status args].


(** The directory the command works in. *)
Definition bump_directory (args : BumpArgs.t) (w : World Git) : string :=
  if truthy (BumpArgs.path args)
  then resolve (cwd w) (default "" (BumpArgs.path args))
  else cwd w.


(** What each publisher returned, in the order the loop runs them. *)
Fixpoint publisher_outcomes (args : PublishArgs.t) (builds : PyDict.dict Build)
    (publishers : PyDict.dict Publisher) (w : World Git) : list (string * bool) :=
  match publishers with
  | [] => []
  | (key, publisher) :: rest =>
      let r := _run_publisher args builds key publisher w in
      (key, match fst r with Ok true => true | _ => false end)
      :: publisher_outcomes args builds rest (snd r)
  end.

(** The record that opens the run of a publisher. *)
Definition attempt_of (e : Event) : option string :=
  match e with
  | Log LogInfo "collecting builds for '%s' ..." [name_] => Some name_
  | _ => None
  end.

(** A record that opens no run. *)
Definition no_attempt (e : Event) : Prop := attempt_of e = None.

(** The publishers that were started, from the log. *)
Definition attempts (events : list Event) : list string := omap attempt_of events.

(** The publish targets the arguments select (source lines 557 to 561). *)
Definition selected_publishers (args : PublishArgs.t) (subject : Subject Version)
  : PyDict.dict Publisher :=
  if truthy (PublishArgs.target args) then
    _filter_targets (get_publish_targets subject)
                    (default "" (PublishArgs.target args))
  else get_publish_targets subject.

End Rules.

End Rules.
(** ** What a command leaves as it was *)

Module Effects.
Import Py Shore Rules.

Section Effects.
Context {E : Externals}.

(** A command whose final world is related to the initial one by [R],
    however it ends. *)
Definition keeps (R : World Git -> World Git -> Prop) {A} (m : M A) : Prop :=
  forall w, R w (snd (m w)).

(** The files and the repository are the same. *)
Definition same_store (w w' : World Git) : Prop :=
  files w' = files w /\ git w' = git w.

(** The repository is the same. *)
Definition same_git (w w' : World Git) : Prop := git w' = git w.

(** The working directory is the same, and so is every file but those at
    [paths]. *)
Definition same_outside (paths : list string) (w w' : World Git) : Prop :=
  cwd w' = cwd w /\ forall p, p ∉ paths -> files w' !! p = files w !! p.

(** The working directory and the repository are the same, and the output
    has only grown. *)
Definition same_place (w w' : World Git) : Prop :=
  cwd w' = cwd w /\ git w' = git w
  /\ exists evs, output w' = output w ++ evs.

(** The files the references of a bump point into: those of the references
    that reach the loop of source lines 494 to 501. *)
Definition bump_paths (args : BumpArgs.t) (w : World Git) : list string :=
  match bump_asserted args w with
  | (Ok (_, refs, _), w1) => map (ref_path w1) refs
  | (Stop _, _) => []
  end.

(** A command that, when it ends by a [return], returns a value in [P]. *)
Definition returns_only (P : option Z -> Prop) {A} (m : M A) : Prop :=
  forall w v w', m w = (Stop (Return v), w') -> P v.

(** The statuses a command returns: 0 or 1. *)
Definition zero_or_one (v : option Z) : Prop := v = Some 0 \/ v = Some 1.

(** The fields that were printed, in order. *)
Definition printed (events : list Event) : list (list string) :=
  omap (fun e => match e with Print fields => Some fields | _ => None end) events.


(** A build target that a selector of the publisher selects. *)
Definition selects (builds : PyDict.dict Build) (publisher : Publisher)
    (target_id : string) : Prop :=
  exists selector,
    selector ∈ get_build_selectors publisher
    /\ target_id ∈ PyDict.keys (_filter_targets builds selector).

(** Every artifact of the build is a file of the build directory. *)
Definition artifacts_present (args : PublishArgs.t) (w : World Git) (b : Build)
  : Prop :=
  forall filename,
    filename ∈ get_build_artifacts b ->
    is_Some (files w !! resolve (cwd w)
                          (path_join (PublishArgs.build_dir args) filename)).

(** The line [_run_checks] prints for a check (source lines 300 to 303). *)
Definition check_line (check : CheckResult) : list string :=
  ["  " +:+ colored (level_name (level check)) (colors (level check)) +:+ " (" +:+
   _color_subject_name (on_monorepo check) (on_name check) +:+
   "): " +:+ message check].

(** The directories that were made for a build, in order. *)
Definition made_directories (events : list Event) : list string :=
  omap (fun e => match e with Makedirs d => Some d | _ => None end) events.

End Effects.

End Effects.

(** ** More commands of [shore/__main__.py] *)

Module ShoreCommands.
Import Py Shore.

(** The namespace that [argparse] fills for [shore build]: the attributes
    of the top-level parser (source lines 90 to 94) and of the [build]
    sub-parser (lines 142 to 147). *)
Module BuildArgs.
Record t := {
  change_directory : option string;
  verbose : bool;
  target : option string;
  build_dir : string
}.

Inductive Value :=
| VStr (s : option string)
| VBool (b : bool).

(** [getattr(args, k)]; [None] when the namespace has no attribute [k]
    (an [AttributeError]). *)
Definition getattr (args : t) (k : string) : option Value :=
  if String.eqb k "change_directory" then Some (VStr (change_directory args))
  else if String.eqb k "verbose" then Some (VBool (verbose args))
  else if String.eqb k "command" then Some (VStr (Some "build"))
  else if String.eqb k "target" then Some (VStr (target args))
  else if String.eqb k "build_dir" then Some (VStr (Some (build_dir args)))
  else None.
End BuildArgs.

Section Commands.
Context {E : Externals}.

Notation "x <- m ;; k" := (bind m (fun x => k))
  (at level 100, m at next level, right associativity).
Notation "m ;;; k" := (bind m (fun _ => k))
  (at level 100, right associativity).

(** Reading the attribute [k] of the namespace as a path. The exceptions
    [AttributeError] and [TypeError] are written as [Exception] with their
    name in the message. *)
Definition path_attribute (args : BuildArgs.t) (k : string) : M string :=
  match BuildArgs.getattr args k with
  | None =>
      raise (Exception ("AttributeError: 'Namespace' object has no attribute '"
                        +:+ k +:+ "'"))
  | Some (BuildArgs.VStr (Some s)) => ret s
  | Some _ => raise (Exception "TypeError: expected str, bytes or os.PathLike object")
  end.

(** [_build] (source lines 528 to 545). *)
Definition _build (args : BuildArgs.t) : M unit :=
  subject <- _load_subject ;;
  let targets := get_build_targets subject in
  targets <-
    (if truthy (BuildArgs.target args) then
       let targets := _filter_targets targets (default "" (BuildArgs.target args)) in
       match targets with
       | [] =>
           logger LogError "no build targets matched '%s'"
             [default "" (BuildArgs.target args)] ;;;
           return_ (Some 1)
       | _ :: _ => ret targets
       end
     else ret targets) ;;
  when (bool_decide (targets = []))
    (logger LogInfo "no build targets" [] ;;;
     return_ (Some 0)) ;;;
  directory <- path_attribute args "directory" ;;
  emit (Makedirs directory) ;;;
  for_each targets (fun item =>
    let '(target_id, target) := item in
    logger LogInfo "building target %s" [colored target_id (Some "blue")] ;;;
    directory <- path_attribute args "directory" ;;
    run_build target directory).

(** [_tag_matcher] of [_verify] (source lines 344 to 349): a monorepo
    yields nothing, a package yields itself when the tag of its version is
    the tag given. *)
Definition _tag_matcher (tag : string) (subject : Subject Version)
  : list (Subject Version) :=
  match subject with
  | IsMonorepo _ => []
  | IsPackage _ =>
      if String.eqb (get_tag subject (version subject)) tag then [subject] else []
  end.

(** The build targets the arguments select (source lines 530 to 536). *)
Definition selected_builds (args : BuildArgs.t) (subject : Subject Version)
  : PyDict.dict Build :=
  if truthy (BuildArgs.target args) then
    _filter_targets (get_build_targets subject)
                    (default "" (BuildArgs.target args))
  else get_build_targets subject.

End Commands.

(** The files a plugin renders, from [shore.core.plugins]: the name of a
    [FileToRender], [plugin.get_files(subject)], and the text that
    [write_to_disk(file, fp=fp)] writes into [fp] in a working directory
    with its files. *)
Class Rendering {E : Externals} := {
  FileToRender : Type;
  file_name : FileToRender -> string;
  get_files : Plugin -> Subject Version -> list FileToRender;
  rendered : FileToRender -> string -> Files -> string
}.

Module VerifyArgs.
Record t := {
  tag : option string
}.
End VerifyArgs.

Section Verify.
Context {E : Externals} {R : Rendering}.

Notation "x <- m ;; k" := (bind m (fun x => k))
  (at level 100, m at next level, right associativity).
Notation "m ;;; k" := (bind m (fun _ => k))
  (at level 100, right associativity).

(** [_virtual_update] of [_verify] (source lines 332 to 342): the names of
    the files that are not there or do not hold what is rendered. *)
Definition _virtual_update (w : World Git) (subject : Subject Version)
  : list string :=
  map file_name
    (List.filter
       (fun file =>
          match files w !! resolve (cwd w) (file_name file) with
          | None => true
          | Some on_disk =>
              negb (String.eqb (rendered file (cwd w) (files w)) on_disk)
          end)
       (concat (map (fun x => get_files x subject) (get_plugins subject)))).

(** [_verify] (source lines 331 to 381). *)
Definition _verify (args : VerifyArgs.t) : M unit :=
  let status := 0 in
  subject <- _load_subject ;;
  w <- get_world ;;
  let files := concat (_run_for_subject subject (_virtual_update w)) in
  status <-
    (match files with
     | _ :: _ =>
         logger LogWarning "%s file(s) would be changed by an update."
           [pretty (llen files)] ;;;
         ret 1
     | [] =>
         logger LogInfo "no files would be changed by an update." [] ;;;
         ret status
     end) ;;
  for_each files (fun file =>
    w <- get_world ;;
    logger LogWarning "  %s" [relpath (cwd w) file]) ;;;
  status <-
    (if truthy (VerifyArgs.tag args) then
       let tag := default "" (VerifyArgs.tag args) in
       let matches := concat (_run_for_subject subject (_tag_matcher tag)) in
       if llen matches =? 0 then
         logger LogError "unexpected tag: %s" [tag] ;;;
         ret 1
       else if llen matches >? 1 then
         logger LogError "tag matches multiple subjects: %s" [tag] ;;;
         for_each matches (fun m => logger LogError "  %s" [name m]) ;;;
         ret 1
       else
         logger LogInfo "tag %s matches %s"
           [tag; name (nth 0 matches subject)] ;;;
         ret status
     else ret status) ;;
  return_ (Some status).

End Verify.

End ShoreCommands.

(** ** The plugin of the slam test command *)

Module SlamPlugin.
Import Py Slam.

(** [TestCommandPlugin.load_configuration] (source lines 171 to 176).
    [raw_test_config project] is [project.raw_config().get('test', {})]:
    the test names and their commands, in the order of the configuration. *)
Definition load_configuration (projects : list Project)
    (raw_test_config : Project -> PyDict.dict string) : list Test :=
  flat_map
    (fun project =>
       map (fun item =>
              {| project := project; name := fst item; command := snd item |})
           (raw_test_config project))
    projects.

(** [TestCommandPlugin.activate] (source lines 178 and 179): the command
    that is added to the application, with the arguments it is then called
    with. *)
Definition activate (config : list Test) (is_monorepo : bool)
    (argument_test : list string) (option_no_line_prefix : option bool)
  : TestCommand :=
  {| tests := config; monorepo := is_monorepo;
     argument_test := argument_test;
     option_no_line_prefix := option_no_line_prefix |}.

(** A string without a colon. *)
Fixpoint colon_free (s : string) : bool :=
  match s with
  | EmptyString => true
  | String c s' => negb (Ascii.eqb c ":") && colon_free s'
  end.

(** A value of [TestRunner._prev_color] for which [_colors.index] does not
    raise. *)
Definition known_color (c : option string) : Prop :=
  match c with
  | None => True
  | Some x => x ∈ _colors
  end.

(** The key at position [i] does not come again after it. *)
Definition last_of_its_key (keys : list string) (i : nat) : Prop :=
  forall j k k',
    keys !! i = Some k -> keys !! j = Some k' -> (i < j)%nat -> k' <> k.

(** [name] selects [test] (the [use_test] of source lines 113 to 122). *)
Definition use_test (self : TestCommand) (name_ : string) (test : Test) : bool :=
  (monorepo self &&
     (String.eqb name_ (test_id test)
      || (startswith name_ ":" && String.eqb (name test) (slice_from name_ 1))
      || String.eqb (id (project test)) name_))
  || (negb (monorepo self) && String.eqb name_ (name test)).

End SlamPlugin.

(** ** The lines of a wrapped license text *)

Module Wrapping.
Import Py Licenses.

(** The list [lines] at the end of [wrap_license_text] (source line 125),
    before it is joined. *)
Definition wrapped_lines (license_text : string) (width : Z) : list string :=
  fold_left (wrap_line width) (split LF license_text) [].

(** The character [c] occurs in [s]. *)
Fixpoint occurs (c : ascii) (s : string) : bool :=
  match s with
  | EmptyString => false
  | String c' s' => Ascii.eqb c' c || occurs c s'
  end.

(** The words of a text that are not empty. *)
Definition proper_words (text : string) : list string :=
  List.filter (fun word => negb (String.eqb word "")) (words_of text).

End Wrapping.

(** ** The slap link command ([slap/ext/application/link.py]) *)

Module Link.
Import Py.

(** The values of a parsed [pyproject.toml]. A table is a [dict]: the
    list of its items in insertion order. *)
#[local] Set Warnings "-register-all".
Inductive Value :=
| Str (s : string)
| Int (n : Z)
| Bool (b : bool)
| Array (l : list Value)
| Table (items : list (string * Value)).

Abbreviation table := (PyDict.dict Value).

(** [d.get(k)]. *)
Fixpoint lookup (k : string) (d : table) : option Value :=
  match d with
  | [] => None
  | (k', v) :: d' => if String.eqb k' k then Some v else lookup k d'
  end.

(** [bool(v)]. *)
Definition truthy (v : Value) : bool :=
  match v with
  | Str s => negb (String.eqb s "")
  | Int n => negb (n =? 0)
  | Bool b => b
  | Array l => match l with [] => false | _ :: _ => true end
  | Table items => match items with [] => false | _ :: _ => true end
  end.

(** The exceptions of the dictionary accesses. *)
Inductive Error :=
| KeyError (key : string)
| AttributeError (attribute : string)
| TypeError (message : string)
| Exception (message : string).

(** [v.get], [v.setdefault] and [v[k] = x] are there for a table only. *)
Definition as_table (v : Value) (e : Error) : Error + table :=
  match v with
  | Table items => inr items
  | _ => inl e
  end.

Definition no_item_assignment : Error :=
  TypeError "object does not support item assignment".

(** [_setup_flit_config] (source lines 147 to 166). The function changes
    [data] in place; the result is [data] as it is when the function
    returns, or the exception it raises. *)
Definition _setup_flit_config (module dist_name : string) (data : table)
  : Error + table :=
  match lookup "tool" data with
  | None => inl (KeyError "tool")
  | Some tool_value =>
  match as_table tool_value (AttributeError "get") with
  | inl e => inl e
  | inr tool =>
  let poetry_value := default (Table []) (lookup "poetry" tool) in
  let tool := match lookup "flit" tool with
              | Some _ => tool
              | None => PyDict.set "flit" (Table []) tool
              end in
  let flit_value := default (Table []) (lookup "flit" tool) in
  match as_table poetry_value (AttributeError "get") with
  | inl e => inl e
  | inr poetry =>
  let plugins := default (Table []) (lookup "plugins" poetry) in
  let scripts := default (Table []) (lookup "scripts" poetry) in
  let data := PyDict.set "tool" (Table tool) data in
  let data := match lookup "project" data with
              | Some _ => data
              | None => PyDict.set "project" (Table []) data
              end in
  let project_value := default (Table []) (lookup "project" data) in
  match as_table project_value no_item_assignment with
  | inl e => inl e
  | inr project =>
  let project := if truthy plugins then PyDict.set "entry-points" plugins project
                 else project in
  let project := if truthy scripts then PyDict.set "scripts" scripts project
                 else project in
  let project := PyDict.set "name" (Str dist_name) project in
  match lookup "version" poetry with
  | None => inl (KeyError "version")
  | Some version =>
  let project := PyDict.set "version" version project in
  let project := PyDict.set "description" (Str "") project in
  match as_table flit_value no_item_assignment with
  | inl e => inl e
  | inr flit =>
  let flit := PyDict.set "module" (Table [("name", Str module)]) flit in
  let tool := PyDict.set "flit" (Table flit) tool in
  let data := PyDict.set "project" (Table project) data in
  inr (PyDict.set "tool" (Table tool) data)
  end end end end end end.

(** The attributes of a project that [link_repository] reads:
    [project.packages()] by the names of the packages,
    [project.pyproject_toml] by its path and its value,
    [project.dist_name()], and [project.directory.resolve().name]. *)
Record Project := {
  is_python_project : bool;
  packages : list string;
  pyproject_path : string;
  pyproject_value : table;
  dist_name : option string;
  directory_name : string
}.

(** What [link_repository] writes, and the installations it has Flit do:
    the path of the configuration, the Python executable, and the
    configuration that is at the path during the installation. *)
Inductive Effect :=
| WriteErrorLine (text : string)
| WriteLine (text : string)
| Install (path : string) (python : string) (config : table).

(** The functions [link_repository] calls: [shutil.which],
    [Path.absolute] and [toml_highlight]. *)
Class System := {
  which : string -> option string;
  absolute : string -> string;
  toml_highlight : table -> string
}.

Section LinkRepository.
Context {S : System}.

(** The counters [num_projects] and [num_skipped], and what was done. *)
Record Progress := mkProgress {
  num_projects : Z;
  num_skipped : Z;
  effects : list Effect
}.

Definition record (e : Effect) (st : Progress) : Progress :=
  mkProgress (num_projects st) (num_skipped st) (effects st ++ [e]).

(** The body of the loop of source lines 111 to 142; [inl] is the
    exception that ends the loop. *)
Definition link_project (dump_pyproject : bool) (python_bin : string)
    (project : Project) (st : Progress) : Error + Progress :=
  if negb (is_python_project project) then inr st
  else
    match packages project with
    | [] => inr st
    | package :: others =>
        let st := mkProgress (num_projects st + 1) (num_skipped st) (effects st) in
        if llen (package :: others) >? 1 then
          let st := record (WriteErrorLine
            "warning: multiple packages can not currently be installed with <opt>slap link</opt>")
            st in
          inr (mkProgress (num_projects st) (num_skipped st + 1) (effects st))
        else
          let name := if Py.truthy (dist_name project)
                      then default "" (dist_name project)
                      else directory_name project in
          match _setup_flit_config package name (pyproject_value project) with
          | inl e => inl e
          | inr config =>
              if dump_pyproject then
                inr (record (WriteLine (toml_highlight config))
                       (record (WriteLine ("<fg=dark_gray># " +:+
                                           pyproject_path project +:+ "</fg>")) st))
              else
                inr (record (Install (pyproject_path project)
                               (absolute python_bin) config)
                       (record (WriteLine ("symlinking <info>" +:+ name +:+ "</info>"))
                          st))
          end
    end.

Fixpoint link_projects (dump_pyproject : bool) (python_bin : string)
    (projects : list Project) (st : Progress) : Error * Progress + Progress :=
  match projects with
  | [] => inr st
  | project :: rest =>
      match link_project dump_pyproject python_bin project st with
      | inl e => inl (e, st)
      | inr st' => link_projects dump_pyproject python_bin rest st'
      end
  end.

(** [link_repository] (source lines 94 to 144), on the projects of
    [repository.get_projects_ordered()]: the value it returns or the
    exception it raises, and what it has done. *)
Definition link_repository (projects : list Project) (dump_pyproject : bool)
    (python : option string) : (Error + Z) * list Effect :=
  let python_bin := which (if Py.truthy python then default "" python else "python") in
  if negb (Py.truthy python_bin) then
    (inl (Exception "Could not find Python executable"), [])
  else
    match link_projects dump_pyproject (default "" python_bin) projects
            (mkProgress 0 0 []) with
    | inl (e, st) => (inl e, effects st)
    | inr st =>
        (inr (if (num_skipped st >? 0) && (num_projects st =? 1) then 1 else 0),
         effects st)
    end.

(** A project that counts: a Python project with a package. *)
Definition counts (project : Project) : bool :=
  is_python_project project
  && match packages project with [] => false | _ :: _ => true end.

(** A project with several packages. *)
Definition several (project : Project) : bool :=
  (1 <? List.length (packages project))%nat.

(** The installations among the effects. *)
Definition installs (l : list Effect) : list string :=
  omap (fun e => match e with Install path _ _ => Some path | _ => None end) l.

End LinkRepository.

(** [data[a][b]], when both are there. *)
Definition lookup2 (a b : string) (data : table) : option Value :=
  match lookup a data with
  | Some (Table items) => lookup b items
  | _ => None
  end.

(** [data["tool"]["poetry"][k]], when it is there. *)
Definition poetry_item (k : string) (data : table) : option Value :=
  match lookup2 "tool" "poetry" data with
  | Some (Table items) => lookup k items
  | _ => None
  end.

(** [data["tool"]["flit"][k]], when it is there. *)
Definition flit_item (k : string) (data : table) : option Value :=
  match lookup2 "tool" "flit" data with
  | Some (Table items) => lookup k items
  | _ => None
  end.

(** The keys [_setup_flit_config] sets in the [project] table. *)
Definition project_keys : list string :=
  ["entry-points"; "scripts"; "name"; "version"; "description"].

End Link.

(** ** More inputs for the examples *)

Module Inputs.
Import Py Shore Demo.

(** The package of the examples, as a member of a monorepo that manages
    the versions of its packages. *)
Definition managed_package : Package SimpleVersion :=
  {| pkg_name := "demo"; pkg_version := (1, 0, 0)%nat; pkg_directory := "/repo";
     pkg_monorepo := Some true;
     pkg_plugins := [{| get_checks := []; get_version_refs := [setup_ref; init_ref] |}];
     pkg_get_tag := fun v => "v" +:+ simple_str v;
     pkg_private := false;
     pkg_build_targets := [("setuptools:sdist", sdist)];
     pkg_publish_targets := [("pypi", good_publisher)] |}.

(** [shore bump --show]. *)
Definition show_args : BumpArgs.t :=
  {| BumpArgs.path := None; BumpArgs.skip_checks := false;
     BumpArgs.version := None; BumpArgs.major := false; BumpArgs.minor := false;
     BumpArgs.patch := false; BumpArgs.post := false; BumpArgs.ci := false;
     BumpArgs.force := false; BumpArgs.tag := false; BumpArgs.dry := false;
     BumpArgs.show := true; BumpArgs.get_single_version := false;
     BumpArgs.status := false |}.

(** The directory of the examples without [setup.py]. *)
Definition repo_without_setup (g : SimpleGit) : World SimpleGit :=
  {| cwd := "/repo"; files := delete "/repo/setup.py" repo_files; git := g;
     output := [] |}.

(** The package with its references listed the other way round. *)
Definition package_init_first : Package SimpleVersion :=
  package_with [] [init_ref; setup_ref].


(** A publisher that asks for a wheel, which the package does not build. *)
Definition wheel_publisher : Publisher :=
  {| get_build_selectors := ["wheel"];
     publish := fun _ _ _ fs => (true, fs) |}.

(** [shore publish nowhere] and [shore publish --reuse]. *)
Definition publish_nowhere_args : PublishArgs.t :=
  {| PublishArgs.target := Some "nowhere"; PublishArgs.test := false;
     PublishArgs.build_dir := "/repo/build"; PublishArgs.reuse := false |}.

Definition publish_reuse_args : PublishArgs.t :=
  {| PublishArgs.target := None; PublishArgs.test := false;
     PublishArgs.build_dir := "/repo/build"; PublishArgs.reuse := true |}.

(** The directory of the examples after a build. *)
Definition built_repo : World SimpleGit :=
  {| cwd := "/repo";
     files := <["/repo/build/demo-1.0.0.tar.gz" := "sdist"]> repo_files;
     git := clean_git; output := [] |}.

(** [shore build]. *)
Definition build_args : ShoreCommands.BuildArgs.t :=
  {| ShoreCommands.BuildArgs.change_directory := None;
     ShoreCommands.BuildArgs.verbose := false;
     ShoreCommands.BuildArgs.target := None;
     ShoreCommands.BuildArgs.build_dir := "build" |}.

(** Plugins that render [setup.py] as it is in the directory. *)
Definition rendering (pkg : Package SimpleVersion)
  : @ShoreCommands.Rendering (externals pkg) :=
  {| ShoreCommands.FileToRender := (string * string)%type;
     ShoreCommands.file_name := fst;
     ShoreCommands.get_files := fun _ _ => [("setup.py", "version='1.0.0'")];
     ShoreCommands.rendered := fun file _ _ => snd file |}.

(** [shore verify --tag v1.0.0]. *)
Definition verify_args : ShoreCommands.VerifyArgs.t :=
  {| ShoreCommands.VerifyArgs.tag := Some "v1.0.0" |}.

(** [slam test nothing]. *)
Definition test_nothing : @Slam.TestCommand :=
  {| Slam.tests := demo_tests; Slam.monorepo := false;
     Slam.argument_test := ["nothing"]; Slam.option_no_line_prefix := None |}.

(** The configuration of [demo_tests]. *)
Definition demo_test_config (project : Slam.Project) : PyDict.dict string :=
  [("unit", "true"); ("lint", "false")].

(** Two projects whose tests have the same id [a:b:c]: the test [b:c] of
    the project [a] fails, the test [c] of the project [a:b] passes. *)
Definition masked_tests : list Slam.Test :=
  [{| Slam.project := {| Slam.id := "a"; Slam.directory := "/repo/a" |};
      Slam.name := "b:c"; Slam.command := "false" |};
   {| Slam.project := {| Slam.id := "a:b"; Slam.directory := "/repo/ab" |};
      Slam.name := "c"; Slam.command := "true" |}].

Definition masked_command : @Slam.TestCommand :=
  {| Slam.tests := masked_tests; Slam.monorepo := true;
     Slam.argument_test := []; Slam.option_no_line_prefix := None |}.

(** A [pyproject.toml] for Poetry, and one for Flit. *)
Definition poetry_config : Link.table :=
  [("tool", Link.Table
      [("poetry", Link.Table
          [("name", Link.Str "demo"); ("version", Link.Str "1.0.0");
           ("scripts", Link.Table [("demo", Link.Str "demo:main")])])])].

Definition flit_config : Link.table :=
  [("project", Link.Table [("name", Link.Str "demo")]);
   ("tool", Link.Table [("flit", Link.Table [])])].

(** A system with Python, and a repository of a project with two packages
    and a project with one. *)
Definition system : Link.System :=
  {| Link.which := fun _ => Some "/usr/bin/python";
     Link.absolute := fun path => path;
     Link.toml_highlight := fun _ => "" |}.

Definition two_projects : list Link.Project :=
  [{| Link.is_python_project := true; Link.packages := ["one"; "two"];
      Link.pyproject_path := "/repo/multi/pyproject.toml";
      Link.pyproject_value := poetry_config;
      Link.dist_name := None; Link.directory_name := "multi" |};
   {| Link.is_python_project := true; Link.packages := ["demo"];
      Link.pyproject_path := "/repo/demo/pyproject.toml";
      Link.pyproject_value := poetry_config;
      Link.dist_name := Some "demo"; Link.directory_name := "demo" |}].

End Inputs.

(** * Properties *)

(** ** Strings and slices *)

Module PyFacts.
Import Py.

(** The primitives on small inputs, as Python evaluates them. *)

Example split_keeps_empty_words : split SP "a  b" = ["a"; ""; "b"].
Proof. reflexivity. Qed.

Example split_empty : split SP "" = [""].
Proof. reflexivity. Qed.

Example join_split : join " " (split SP "a  b") = "a  b".
Proof. reflexivity. Qed.

Example slice_inside : slice "hello" 1 3 = "el".
Proof. reflexivity. Qed.

Example slice_to_negative : slice_to "hello" (-2) = "hel".
Proof. reflexivity. Qed.

Example slice_from_beyond : slice_from "hello" 7 = "".
Proof. reflexivity. Qed.

Example rjust_pads : rjust "ab" 5 = "   ab".
Proof. reflexivity. Qed.

Example sorted_is_stable :
  PyDict.sorted fst [("b", 1); ("a", 2); ("b", 3); ("a", 4)]
  = [("a", 2); ("a", 4); ("b", 1); ("b", 3)].
Proof. reflexivity. Qed.

Example set_overwrites_in_place :
  PyDict.set "a" 9 [("a", 1); ("b", 2)] = [("a", 9); ("b", 2)].
Proof. reflexivity. Qed.

Lemma app_nil (b : string) : "" +:+ b = b.
Proof. reflexivity. Qed.

Lemma app_cons (c : ascii) (a b : string) : String c a +:+ b = String c (a +:+ b).
Proof. reflexivity. Qed.

Lemma length_app (a b : string) :
  String.length (a +:+ b) = (String.length a + String.length b)%nat.
Proof.
  induction a as [|c a IH]; [reflexivity|].
  rewrite app_cons. simpl. now rewrite IH.
Qed.

Lemma len_app (a b : string) : len (a +:+ b) = len a + len b.
Proof. unfold len. rewrite length_app. lia. Qed.

Lemma len_nonneg (s : string) : 0 <= len s.
Proof. unfold len. lia. Qed.

Lemma str_take_length (n : nat) (s : string) :
  (n <= String.length s)%nat -> String.length (str_take n s) = n.
Proof.
  revert s. induction n as [|n IH]; intros [|c s] H; simpl in *; try lia.
  rewrite IH; lia.
Qed.

Lemma str_take_app (a b : string) : str_take (String.length a) (a +:+ b) = a.
Proof.
  induction a as [|c a IH]; [now destruct b|].
  rewrite app_cons. simpl. now rewrite IH.
Qed.

Lemma str_drop_app (a b : string) : str_drop (String.length a) (a +:+ b) = b.
Proof.
  induction a as [|c a IH]; [reflexivity|].
  rewrite app_cons. simpl. exact IH.
Qed.

Lemma str_take_drop (n : nat) (s : string) : str_take n s +:+ str_drop n s = s.
Proof.
  revert s. induction n as [|n IH]; intros [|c s]; simpl; try reflexivity.
  rewrite app_cons. f_equal. apply IH.
Qed.

(** A bound inside the string is its own index. *)
Lemma slice_index_inside (n i : Z) :
  0 <= i <= n -> slice_index n i = Z.to_nat i.
Proof.
  intros H. unfold slice_index.
  destruct (Z.ltb_spec i 0); [lia|]. f_equal. lia.
Qed.

Lemma slice_to_length (s : string) (i : Z) :
  0 <= i <= len s -> len (slice_to s i) = i.
Proof.
  intros H. unfold slice_to, len in *.
  rewrite slice_index_inside by exact H.
  rewrite str_take_length; lia.
Qed.

(** [s[:i] + s[i:] == s]. *)
Lemma slice_to_from (s : string) (i : Z) : slice_to s i +:+ slice_from s i = s.
Proof. apply str_take_drop. Qed.


End PyFacts.

(** ** [wrap_license_text] loses words *)

Module LicensesSpec.
Import Py Licenses.

Example wrap_short_line : wrap_license_text "MIT License" default_width = "MIT License".
Proof. reflexivity. Qed.

Example wrap_at_width_5 :
  wrap_license_text "aaa bbb ccc" 5 = "aaa" +:+ String LF "ccc".
Proof. reflexivity. Qed.

(** The mechanism: a word that makes the pending line reach the width
    closes the line and is itself put nowhere. *)
Lemma wrap_word_breaks (width : Z) (lines words : list string) (length : Z)
    (word : string) :
  length + 1 + len word >= width ->
  wrap_word width (lines, words, length) word = (lines ++ [join " " words], [], -1).
Proof.
  intros H. unfold wrap_word.
  destruct (Z.geb_spec (length + 1 + len word) width); [reflexivity | lia].
Qed.

(** A word that fits is kept. *)
Lemma wrap_word_keeps (width : Z) (lines words : list string) (length : Z)
    (word : string) :
  length + 1 + len word < width ->
  wrap_word width (lines, words, length) word
  = (lines, words ++ [word], length + len word + 1).
Proof.
  intros H. unfold wrap_word.
  destruct (Z.geb_spec (length + 1 + len word) width); [lia | reflexivity].
Qed.

(** C10. For some input, [wrap_license_text] does not preserve the words
    of its input. Whenever a line longer than the width is wrapped, a word
    that triggers the line break ([length + 1 + len(word) >= width])
    flushes the pending words and is itself appended nowhere; at the
    default width, the word [copies] of a 126-character line is such a
    word, and it is absent from the returned text. *)
Theorem wrap_license_text_drops_word :
  (forall width lines words length word,
     length + 1 + len word >= width ->
     wrap_word width (lines, words, length) word
     = (lines ++ [join " " words], [], -1))
  /\ exists (license_text word : string),
       In word (words_of license_text)
       /\ ~ In word (words_of (wrap_license_text license_text default_width))
       /\ wrap_license_text license_text default_width
          = "The above copyright notice and this permission notice shall be included in all"
            +:+ String LF "or substantial portions of the Software.".
Proof.
  split; [exact wrap_word_breaks|].
  exists mit_line, "copies". split; [|split].
  - vm_compute. tauto.
  - vm_compute. intros H.
    repeat (destruct H as [H|H]; [discriminate H|]). exact H.
  - vm_compute. reflexivity.
Qed.

(** The step at which [copies] is lost: 78 characters are pending. *)
Lemma wrap_license_text_drops_word_witness :
  wrap_word default_width
    ([], split SP "The above copyright notice and this permission notice shall be included in all", 78)
    "copies"
  = (["The above copyright notice and this permission notice shall be included in all"],
     [], -1).
Proof.
  rewrite (proj1 wrap_license_text_drops_word) by (vm_compute; discriminate).
  vm_compute. reflexivity.
Defined.

End LicensesSpec.

(** ** The command monad and the commands that leave the files alone *)

Module ShoreFacts.
Import Py Shore Rules.

Create HintDb quiet.

Section Facts.
Context {E : Externals}.

Lemma bind_Ok {A B} (m : M A) (k : A -> M B) w a w0 :
  m w = (Ok a, w0) -> bind m k w = k a w0.
Proof. intros H. unfold bind. now rewrite H. Qed.

Lemma bind_Stop {A B} (m : M A) (k : A -> M B) w ab w0 :
  m w = (Stop ab, w0) -> bind m k w = (Stop ab, w0).
Proof. intros H. unfold bind. now rewrite H. Qed.

Lemma bind_Ok_inv {A B} (m : M A) (k : A -> M B) w b w' :
  bind m k w = (Ok b, w') ->
  exists a w0, m w = (Ok a, w0) /\ k a w0 = (Ok b, w').
Proof.
  unfold bind. destruct (m w) as [[a|ab] w0]; intros H.
  - now exists a, w0.
  - discriminate H.
Qed.

(** *** [quiet] is closed under the combinators *)

Lemma quiet_ret {A} (a : A) : quiet (ret a).
Proof. intros w. now split. Qed.

Lemma quiet_stop {A} (ab : Abort) : quiet (@stop _ A ab).
Proof. intros w. now split. Qed.

Lemma quiet_bind {A B} (m : M A) (k : A -> M B) :
  quiet m -> (forall a, quiet (k a)) -> quiet (bind m k).
Proof.
  intros Hm Hk w. unfold bind.
  destruct (Hm w) as [Hf Hg]. destruct (m w) as [[a|ab] w0]; simpl in *.
  - destruct (Hk a w0) as [Hf' Hg']. split; congruence.
  - now split.
Qed.

Lemma quiet_emit (e : Event) : quiet (emit e).
Proof. intros w. now split. Qed.

Lemma quiet_get_world : quiet get_world.
Proof. intros w. now split. Qed.

Lemma quiet_chdir (p : string) : quiet (chdir p).
Proof. intros w. now split. Qed.

Lemma quiet_isfile (f : string) : quiet (isfile f).
Proof. intros w. now split. Qed.

Lemma quiet_when (b : bool) (m : M unit) : quiet m -> quiet (when b m).
Proof. intros H. destruct b; [exact H | apply quiet_ret]. Qed.

Lemma quiet_or_raise {A} (o : option A) (e : Exn) : quiet (or_raise o e).
Proof. destruct o; [apply quiet_ret | apply quiet_stop]. Qed.

Lemma quiet_for_each {A} (l : list A) (body : A -> M unit) :
  (forall x, quiet (body x)) -> quiet (for_each l body).
Proof.
  intros H. induction l as [|x l IH]; simpl.
  - apply quiet_ret.
  - apply quiet_bind; [apply H | intros _; exact IH].
Qed.

Lemma quiet_call (body : M unit) : quiet body -> quiet (call body).
Proof.
  intros H w. unfold call. destruct (H w) as [Hf Hg].
  destruct (body w) as [[[]|[v|msg|e]] w0]; simpl in *; now split.
Qed.

#[local] Hint Resolve quiet_ret quiet_stop quiet_emit quiet_get_world
  quiet_chdir quiet_isfile quiet_or_raise : quiet.

(** Takes a command apart along its binds, conditionals and matches. *)
Ltac quiet_step :=
  match goal with
  | |- quiet (bind _ _) => apply quiet_bind; [|intros ?]
  | |- quiet (when _ _) => apply quiet_when
  | |- quiet (for_each _ _) => apply quiet_for_each; intros ?
  | |- quiet (call _) => apply quiet_call
  | |- quiet (logger _ _ _) => apply quiet_emit
  | |- quiet (print _) => apply quiet_emit
  | |- quiet (return_ _) => apply quiet_stop
  | |- quiet (parser_error _) => apply quiet_stop
  | |- quiet (raise _) => apply quiet_stop
  | |- quiet (if ?b then _ else _) => destruct b
  | |- quiet (match ?x with _ => _ end) => destruct x
  | |- quiet (let '(_, _) := ?x in _) => destruct x
  | |- _ => solve [auto with quiet]
  end.

Ltac quiet_tac := repeat quiet_step.

Lemma quiet_report_conflict args opts : quiet (_report_conflict args opts).
Proof. unfold _report_conflict. quiet_tac. Qed.

Lemma quiet_load_subject : quiet _load_subject.
Proof. unfold _load_subject. quiet_tac. Qed.

Lemma quiet_run_checks subject twe : quiet (_run_checks subject twe).
Proof. unfold _run_checks. quiet_tac. Qed.

Lemma quiet_status width subject : quiet (_status width subject).
Proof. unfold _status. quiet_tac. Qed.

#[local] Hint Resolve quiet_report_conflict quiet_load_subject
  quiet_run_checks quiet_status : quiet.

Lemma quiet_bump_collect args : quiet (bump_collect args).
Proof. unfold bump_collect. quiet_tac. Qed.

#[local] Hint Resolve quiet_bump_collect : quiet.

Lemma quiet_bump_checked args : quiet (bump_checked args).
Proof. unfold bump_checked. quiet_tac. Qed.

#[local] Hint Resolve quiet_bump_checked : quiet.

Lemma quiet_new_version_of args subject : quiet (new_version_of args subject).
Proof. unfold new_version_of. quiet_tac. Qed.

#[local] Hint Resolve quiet_new_version_of : quiet.

Lemma quiet_bump_versioned args : quiet (bump_versioned args).
Proof. unfold bump_versioned. quiet_tac. Qed.

#[local] Hint Resolve quiet_bump_versioned : quiet.

Lemma quiet_bump_admitted args : quiet (bump_admitted args).
Proof. unfold bump_admitted. quiet_tac. Qed.

#[local] Hint Resolve quiet_bump_admitted : quiet.

Lemma quiet_bump_asserted args : quiet (bump_asserted args).
Proof. unfold bump_asserted. quiet_tac. Qed.

(** *** A block that stops, stops the blocks after it *)

Lemma checked_Stop args w ab w' :
  bump_collect args w = (Stop ab, w') -> bump_checked args w = (Stop ab, w').
Proof. intros H. unfold bump_checked. now apply bind_Stop. Qed.

Lemma versioned_Stop args w ab w' :
  bump_checked args w = (Stop ab, w') -> bump_versioned args w = (Stop ab, w').
Proof. intros H. unfold bump_versioned. now apply bind_Stop. Qed.

Lemma admitted_Stop args w ab w' :
  bump_versioned args w = (Stop ab, w') -> bump_admitted args w = (Stop ab, w').
Proof. intros H. unfold bump_admitted. now apply bind_Stop. Qed.

Lemma asserted_Stop args w ab w' :
  bump_admitted args w = (Stop ab, w') -> bump_asserted args w = (Stop ab, w').
Proof. intros H. unfold bump_asserted. now apply bind_Stop. Qed.

Lemma rewritten_Stop args w ab w' :
  bump_asserted args w = (Stop ab, w') -> bump_rewritten args w = (Stop ab, w').
Proof. intros H. unfold bump_rewritten. now apply bind_Stop. Qed.

Lemma bump_Stop args w ab w' :
  bump_rewritten args w = (Stop ab, w') -> _bump args w = (Stop ab, w').
Proof. intros H. unfold _bump. now apply bind_Stop. Qed.

Lemma bump_Stop_admitted args w ab w' :
  bump_admitted args w = (Stop ab, w') -> _bump args w = (Stop ab, w').
Proof. intros H. now apply bump_Stop, rewritten_Stop, asserted_Stop. Qed.

Lemma bump_Stop_checked args w ab w' :
  bump_checked args w = (Stop ab, w') -> _bump args w = (Stop ab, w').
Proof. intros H. now apply bump_Stop_admitted, admitted_Stop, versioned_Stop. Qed.

(** *** Sets of paths *)

Lemma remove_dups_length_le {A} `{EqDecision A} (l : list A) :
  (List.length (remove_dups l) <= List.length l)%nat.
Proof.
  induction l as [|x l IH]; simpl; [lia|].
  case_decide; simpl; lia.
Qed.

(** A list has as many distinct members as members exactly when no member
    repeats. *)
Lemma remove_dups_length_NoDup {A} `{EqDecision A} (l : list A) :
  List.length (remove_dups l) = List.length l <-> NoDup l.
Proof.
  induction l as [|x l IH]; simpl.
  - split; [constructor | reflexivity].
  - pose proof (remove_dups_length_le l) as Hle.
    case_decide as Hin; simpl.
    + split; [lia|]. intros Hnd. apply NoDup_cons in Hnd as [Hx _].
      contradiction.
    + split.
      * intros Hlen. apply NoDup_cons. split; [exact Hin|]. apply IH. lia.
      * intros Hnd. apply NoDup_cons in Hnd as [_ Hnd]. f_equal. now apply IH.
Qed.

Lemma n_files_count args_cwd (refs : list VersionRef) :
  llen (n_files args_cwd refs) = llen refs
  <-> NoDup (map (fun ref => resolve args_cwd (filename ref)) refs).
Proof.
  unfold n_files, llen. rewrite <- remove_dups_length_NoDup.
  rewrite (length_map _ refs). lia.
Qed.

(** The assertion of source line 490, after the blocks before it. *)
Lemma bump_asserted_after args w subject refs new_version w1 :
  bump_admitted args w = (Ok (subject, refs, new_version), w1) ->
  bump_asserted args w
  = if llen (n_files (cwd w1) refs) =? llen refs
    then (Ok (subject, refs, new_version), w1)
    else (Stop (Raise (AssertionError
            "multiple version refs in one file is not currently supported.")), w1).
Proof.
  intros H. unfold bump_asserted. rewrite (bind_Ok _ _ _ _ _ H).
  unfold bind, get_world. simpl.
  destruct (llen (n_files (cwd w1) refs) =? llen refs); reflexivity.
Qed.

Lemma bump_asserted_inv args w subject refs new_version w1 :
  bump_asserted args w = (Ok (subject, refs, new_version), w1) ->
  bump_admitted args w = (Ok (subject, refs, new_version), w1)
  /\ NoDup (map (ref_path w1) refs).
Proof.
  intros H. unfold bump_asserted in H.
  destruct (bind_Ok_inv _ _ _ _ _ H) as ([[s r] n] & w0 & Hadm & Hk).
  unfold bind, get_world in Hk. simpl in Hk.
  destruct (llen (n_files (cwd w0) r) =? llen r) eqn:Hcount;
    simpl in Hk; [|discriminate Hk].
  injection Hk as -> -> -> ->. split; [exact Hadm|].
  apply n_files_count. lia.
Qed.

(** *** The loop that rewrites the files *)

Lemma ref_path_cwd (w w' : World Git) ref :
  cwd w' = cwd w -> ref_path w' ref = ref_path w ref.
Proof. intros H. unfold ref_path. now rewrite H. Qed.

Lemma rewrite_ref_wet args new_version ref w contents :
  BumpArgs.dry args = false ->
  files w !! ref_path w ref = Some contents ->
  rewrite_ref args new_version ref w
  = (Ok tt,
     mkWorld (cwd w)
       (<[ref_path w ref := splice contents ref new_version]> (files w))
       (git w) (output w ++ [rewrite_record w new_version ref])).
Proof.
  intros Hdry Hfile. unfold rewrite_ref, bind, get_world, logger, emit, when.
  rewrite Hdry. unfold read_file, write_file, ref_path in *. simpl.
  rewrite Hfile. reflexivity.
Qed.

Lemma rewrite_ref_missing args new_version ref w :
  BumpArgs.dry args = false ->
  files w !! ref_path w ref = None ->
  rewrite_ref args new_version ref w
  = (Stop (Raise (FileNotFoundError (filename ref))),
     logged (rewrite_record w new_version ref) w).
Proof.
  intros Hdry Hfile. unfold rewrite_ref, bind, get_world, logger, emit, when.
  rewrite Hdry. unfold read_file, ref_path in *. simpl.
  rewrite Hfile. reflexivity.
Qed.

Lemma rewrite_ref_dry args new_version ref w :
  BumpArgs.dry args = true ->
  rewrite_ref args new_version ref w
  = (Ok tt, logged (rewrite_record w new_version ref) w).
Proof.
  intros Hdry. unfold rewrite_ref, bind, get_world, logger, emit, when.
  rewrite Hdry. reflexivity.
Qed.

(** With every file there and no file listed twice, the loop completes and
    each file holds its splice; the other files are as before. *)
Lemma rewrite_loop args new_version refs :
  BumpArgs.dry args = false ->
  forall w,
    NoDup (map (ref_path w) refs) ->
    (forall ref, In ref refs -> is_Some (files w !! ref_path w ref)) ->
    exists w2,
      for_each refs (rewrite_ref args new_version) w = (Ok tt, w2)
      /\ cwd w2 = cwd w /\ git w2 = git w
      /\ (forall ref contents,
            In ref refs ->
            files w !! ref_path w ref = Some contents ->
            files w2 !! ref_path w ref = Some (splice contents ref new_version))
      /\ (forall p, ~ In p (map (ref_path w) refs) ->
            files w2 !! p = files w !! p).
Proof.
  intros Hdry. induction refs as [|ref refs IH]; intros w Hnd Hex.
  - exists w. repeat split; try reflexivity. intros ref c [].
  - simpl in Hnd. apply NoDup_cons in Hnd as [Hfresh Hnd].
    rewrite list_elem_of_In in Hfresh.
    destruct (Hex ref (or_introl eq_refl)) as [contents Hfile].
    set (w' := mkWorld (cwd w)
                 (<[ref_path w ref := splice contents ref new_version]> (files w))
                 (git w) (output w ++ [rewrite_record w new_version ref])).
    assert (Hpaths : map (ref_path w') refs = map (ref_path w) refs)
      by (apply map_ext; intros r; now apply ref_path_cwd).
    destruct (IH w') as (w2 & Hrun & Hcwd & Hgit & Hin & Hout).
    { now rewrite Hpaths. }
    { intros r Hr. rewrite (ref_path_cwd w w') by reflexivity. simpl.
      destruct (decide (ref_path w ref = ref_path w r)) as [->|Hne].
      - rewrite lookup_insert_eq. eauto.
      - rewrite lookup_insert_ne by exact Hne. now apply Hex; right. }
    exists w2. split; [|split; [|split; [|split]]].
    + simpl. unfold bind at 1.
      rewrite (rewrite_ref_wet _ _ _ _ _ Hdry Hfile). exact Hrun.
    + exact Hcwd.
    + exact Hgit.
    + intros r c [<-|Hr] Hc.
      * rewrite Hout by now rewrite Hpaths.
        simpl. rewrite lookup_insert_eq. congruence.
      * assert (Hne : ref_path w ref <> ref_path w r).
        { intros Heq. apply Hfresh. rewrite Heq. now apply in_map. }
        rewrite <- (ref_path_cwd w w') by reflexivity.
        apply Hin; [exact Hr|].
        rewrite (ref_path_cwd w w') by reflexivity. simpl.
        now rewrite lookup_insert_ne.
    + intros p Hp. simpl in Hp.
      rewrite Hout by (rewrite Hpaths; tauto).
      simpl. apply lookup_insert_ne. tauto.
Qed.

(** A loop that completed found every file. *)
Lemma rewrite_loop_found args new_version refs :
  BumpArgs.dry args = false ->
  forall w w2,
    for_each refs (rewrite_ref args new_version) w = (Ok tt, w2) ->
    forall ref, In ref refs -> is_Some (files w !! ref_path w ref).
Proof.
  intros Hdry. induction refs as [|ref refs IH]; intros w w2 Hrun r Hr.
  - destruct Hr.
  - simpl in Hrun. unfold bind at 1 in Hrun.
    destruct (files w !! ref_path w ref) as [contents|] eqn:Hfile.
    + rewrite (rewrite_ref_wet _ _ _ _ _ Hdry Hfile) in Hrun.
      destruct Hr as [<-|Hr]; [eauto|].
      specialize (IH _ _ Hrun r Hr).
      rewrite (ref_path_cwd w) in IH by reflexivity. simpl in IH.
      destruct (decide (ref_path w ref = ref_path w r)) as [Heq|Hne].
      * rewrite <- Heq. eauto.
      * now rewrite lookup_insert_ne in IH.
    + rewrite (rewrite_ref_missing _ _ _ _ Hdry Hfile) in Hrun.
      discriminate Hrun.
Qed.


(** The block of source lines 493 to 501, after the blocks before it. *)
Lemma bump_rewritten_after args w subject refs new_version w1 :
  bump_asserted args w = (Ok (subject, refs, new_version), w1) ->
  bump_rewritten args w
  = match for_each refs (rewrite_ref args new_version)
            (logged (Log LogInfo "bumping %d version reference(s)"
                       [pretty (llen refs)]) w1) with
    | (Ok _, w2) => (Ok (subject, refs, new_version), w2)
    | (Stop ab, w2) => (Stop ab, w2)
    end.
Proof.
  intros H. unfold bump_rewritten. rewrite (bind_Ok _ _ _ _ _ H).
  unfold bind, logger, emit, ret, logged. simpl.
  destruct (for_each refs (rewrite_ref args new_version) _) as [[[]|ab] w2];
    reflexivity.
Qed.

Lemma bump_rewritten_inv args w subject refs new_version w2 :
  bump_rewritten args w = (Ok (subject, refs, new_version), w2) ->
  exists w1,
    bump_asserted args w = (Ok (subject, refs, new_version), w1)
    /\ for_each refs (rewrite_ref args new_version)
         (logged (Log LogInfo "bumping %d version reference(s)"
                    [pretty (llen refs)]) w1) = (Ok tt, w2).
Proof.
  intros H. pose proof H as H0. unfold bump_rewritten in H0.
  destruct (bind_Ok_inv _ _ _ _ _ H0) as ([[s r] n] & w1 & Hass & _).
  rewrite (bump_rewritten_after _ _ _ _ _ _ Hass) in H.
  destruct (for_each r (rewrite_ref args n) _) as [[[]|ab] w2'] eqn:Hloop;
    [|discriminate H].
  injection H as -> -> -> ->. exists w1. now split.
Qed.

End Facts.

End ShoreFacts.

(** ** The bump command *)

Module BumpSpec.
Import Py Shore Rules PyFacts ShoreFacts.

Section Bump.
Context {E : Externals}.

(** C2. Without [--force], a new version that compares lower than the
    current one, or that prints like the current one, ends the command with
    a parser error, and no file has been rewritten; with [--force] the two
    rejections do not occur and the command goes on with the new version. *)
Theorem lower_or_equal_version_rejected
    args w subject refs new_version w1 :
  bump_versioned args w = (Ok (subject, refs, new_version), w1) ->
  (BumpArgs.force args = false ->
   version_ltb new_version (version subject) = true
   \/ version_str new_version = version_str (version subject) ->
   exists msg,
     _bump args w = (Stop (ParserError msg), w1)
     /\ files w1 = files w /\ git w1 = git w)
  /\ (BumpArgs.force args = true ->
      bump_admitted args w = (Ok (subject, refs, new_version), w1)).
Proof.
  intros H.
  assert (Hq : files w1 = files w /\ git w1 = git w).
  { pose proof (quiet_bump_versioned args w) as Hq. now rewrite H in Hq. }
  split.
  - intros Hforce Hcase.
    assert (Hstop : exists msg,
               bump_admitted args w = (Stop (ParserError msg), w1)).
    { unfold bump_admitted. rewrite (bind_Ok _ _ _ _ _ H). rewrite Hforce.
      unfold bind, when, parser_error, stop, ret. simpl.
      rewrite !andb_true_r.
      destruct (version_ltb new_version (version subject)) eqn:Hlt.
      - eexists. reflexivity.
      - destruct Hcase as [Hc|Hc]; [discriminate Hc|].
        rewrite Hc, String.eqb_refl. eexists. reflexivity. }
    destruct Hstop as [msg Hstop]. exists msg. split; [|exact Hq].
    now apply bump_Stop_admitted.
  - intros Hforce. unfold bump_admitted. rewrite (bind_Ok _ _ _ _ _ H).
    rewrite Hforce. unfold bind, when, ret. simpl.
    rewrite !andb_false_r. reflexivity.
Qed.

(** Tagging leaves the files as the loop wrote them. *)
Lemma tagging_keeps_files args subject refs new_version w :
  files (snd (tagging args subject refs new_version w)) = files w.
Proof.
  unfold tagging, when, bind, _git_porcelain, _git_add, _git_commit, _git_tag,
    logger, emit, return_, stop, get_world, set_git, ret.
  destruct (BumpArgs.tag args); [|reflexivity]. simpl.
  destruct (has_mode "A" _); [reflexivity|]. simpl.
  destruct (BumpArgs.dry args); [reflexivity|]. simpl.
  destruct (has_mode "M" _); reflexivity.
Qed.




(** C5. Before any file is rewritten, the bump asserts that the distinct
    resolved paths of the references are as many as the references; when
    two references resolve to the same path, the command ends with the
    assertion error and has rewritten nothing. *)
Theorem refs_in_one_file_rejected args w subject refs new_version w1 :
  bump_admitted args w = (Ok (subject, refs, new_version), w1) ->
  (bump_asserted args w = (Ok (subject, refs, new_version), w1)
   <-> List.length (n_files (cwd w1) refs) = List.length refs)
  /\ (forall i j r1 r2,
        i <> j -> refs !! i = Some r1 -> refs !! j = Some r2 ->
        ref_path w1 r1 = ref_path w1 r2 ->
        _bump args w
        = (Stop (Raise (AssertionError
             "multiple version refs in one file is not currently supported.")),
           w1)
        /\ files w1 = files w /\ git w1 = git w).
Proof.
  intros H. pose proof (bump_asserted_after _ _ _ _ _ _ H) as Hass. split.
  - rewrite Hass. unfold llen.
    destruct (Z.eqb_spec (Z.of_nat (List.length (n_files (cwd w1) refs)))
                         (Z.of_nat (List.length refs))) as [Heq|Hne].
    + split; [lia | reflexivity].
    + split; [discriminate | lia].
  - intros i j r1 r2 Hij Hi Hj Hsame.
    assert (Hdup : ~ NoDup (map (ref_path w1) refs)).
    { intros Hnd. apply Hij.
      apply (NoDup_lookup _ i j (ref_path w1 r1) Hnd).
      - change (map (ref_path w1) refs) with (ref_path w1 <$> refs).
        now rewrite list_lookup_fmap, Hi.
      - change (map (ref_path w1) refs) with (ref_path w1 <$> refs).
        now rewrite list_lookup_fmap, Hj, Hsame. }
    destruct (Z.eqb_spec (llen (n_files (cwd w1) refs)) (llen refs)) as [Heq|Hne].
    { exfalso. apply Hdup. now apply n_files_count. }
    split.
    + now apply bump_Stop, rewritten_Stop.
    + pose proof (quiet_bump_admitted args w) as Hq. now rewrite H in Hq.
Qed.

(** C9. With [--tag] and without [--dry], when the tagging is refused
    because the index holds an added file, the files of the references
    have been rewritten already: the command returns 1 and each file
    holds the splice of its original contents, not the original. *)
Theorem refused_tag_leaves_bump_applied args w subject refs new_version w2 :
  BumpArgs.tag args = true ->
  BumpArgs.dry args = false ->
  bump_rewritten args w = (Ok (subject, refs, new_version), w2) ->
  has_mode "A" (porcelain (git w2) (files w2)) = true ->
  exists w',
    _bump args w = (Stop (Return (Some 1)), w')
    /\ exit_code (fst (_bump args w)) = 1
    /\ files w' = files w2
    /\ forall ref, In ref refs ->
         exists contents,
           files w !! ref_path w2 ref = Some contents
           /\ files w' !! ref_path w2 ref
              = Some (splice contents ref new_version).
Proof.
  intros Htag Hdry Hrew Hadded.
  destruct (bump_rewritten_inv _ _ _ _ _ _ Hrew) as (w1 & Hass & Hloop).
  destruct (bump_asserted_inv _ _ _ _ _ _ Hass) as [_ Hnd].
  pose proof (quiet_bump_asserted args w) as Hq. rewrite Hass in Hq.
  destruct Hq as [Hfiles _]. simpl in Hfiles.
  set (w1' := logged (Log LogInfo "bumping %d version reference(s)"
                        [pretty (llen refs)]) w1) in *.
  pose proof (rewrite_loop_found _ _ _ Hdry _ _ Hloop) as Hfound.
  destruct (rewrite_loop args new_version refs Hdry w1' Hnd Hfound)
    as (w2' & Hrun & Hcwd & _ & Hin & _).
  rewrite Hloop in Hrun. injection Hrun as <-.
  assert (Hbump : _bump args w
            = (Stop (Return (Some 1)),
               logged (Log LogError "cannot tag with non-empty staging area" []) w2)).
  { unfold _bump. rewrite (bind_Ok _ _ _ _ _ Hrew).
    unfold tagging, when, bind, _git_porcelain, logger, emit, return_, stop.
    rewrite Htag. simpl. now rewrite Hadded. }
  eexists. split; [exact Hbump|]. split; [now rewrite Hbump|].
  split; [reflexivity|].
  intros ref Href. destruct (Hfound ref Href) as [contents Hc].
  exists contents.
  rewrite (ref_path_cwd w1' w2) by exact Hcwd.
  split.
  - rewrite <- Hfiles. exact Hc.
  - simpl. now apply Hin.
Qed.

(** The blocks before the consistency check leave at least one
    reference. *)
Lemma bump_collect_nonempty args w subject refs w1 :
  bump_collect args w = (Ok (subject, refs), w1) -> refs <> [].
Proof.
  intros H. unfold bump_collect in H.
  repeat match type of H with
         | bind _ _ _ = (Ok _, _) =>
             let a := fresh "a" in let w0 := fresh "w0" in
             let Hm := fresh "Hm" in
             apply bind_Ok_inv in H as (a & w0 & Hm & H)
         end.
  unfold ret in H. injection H as <- <- <-.
  match goal with
  | Hw : when (bool_decide (?l = [])) _ _ = (Ok _, _) |- ?l <> [] =>
      unfold when in Hw; case_bool_decide; [discriminate Hw | assumption]
  end.
Qed.

Lemma any_inconsistent_all (subject : Subject Version) refs :
  refs <> [] -> Forall (disagrees subject) refs ->
  any_inconsistent refs (version subject) = Some true.
Proof.
  intros Hne Hall. destruct Hall as [|ref rest (pv & Hparse & Hneq) _];
    [congruence|].
  simpl. now rewrite Hparse, Hneq.
Qed.

(** C3, amended. When all version references disagree with the version of
    the subject: without [--force] the bump is refused, it returns 1 and no
    file is rewritten; with [--force], and an operation other than
    [--get-single-version], the inconsistency is a warning and the bump
    goes on; with [--force] and [--get-single-version] it is an error
    again, and the command returns 1. *)
Theorem inconsistent_refs_refused_or_forced args w :
  ((BumpArgs.force args = true -> BumpArgs.get_single_version args = false) ->
   inconsistency_rule args w)
  /\ (BumpArgs.force args = true ->
      BumpArgs.get_single_version args = true ->
      forall subject refs w1,
        bump_collect args w = (Ok (subject, refs), w1) ->
        Forall (disagrees subject) refs ->
        _bump args w
        = (Stop (Return (Some 1)),
           logged (Log LogError "no single consistent version found." []) w1)).
Proof.
  assert (Hchk : forall subject refs w1,
    bump_collect args w = (Ok (subject, refs), w1) ->
    Forall (disagrees subject) refs ->
    bump_checked args w
    = if BumpArgs.force args then
        if BumpArgs.get_single_version args then
          (Stop (Return (Some 1)),
           logged (Log LogError "no single consistent version found." []) w1)
        else
          (Ok (subject, refs),
           logged (Log LogWarning
                     "inconsistent versions across files were found." []) w1)
      else
        (Stop (Return (Some 1)),
         logged (Log LogError
                   "inconsistent versions across files need to be fixed first." [])
                w1)).
  { intros subject refs w1 Hcol Hall.
    pose proof (bump_collect_nonempty _ _ _ _ _ Hcol) as Hne.
    pose proof (any_inconsistent_all subject refs Hne Hall) as Hany.
    unfold bump_checked. rewrite (bind_Ok _ _ _ _ _ Hcol). cbn iota beta.
    rewrite Hany. unfold or_raise.
    destruct (BumpArgs.force args), (BumpArgs.get_single_version args);
      reflexivity. }
  split.
  - intros Hsingle subject refs w1 Hcol Hall.
    specialize (Hchk _ _ _ Hcol Hall).
    destruct (BumpArgs.force args).
    + now rewrite (Hsingle eq_refl) in Hchk.
    + split; [now apply bump_Stop_checked|].
      pose proof (quiet_bump_collect args w) as Hq. now rewrite Hcol in Hq.
  - intros Hforce Hsingle subject refs w1 Hcol Hall.
    specialize (Hchk _ _ _ Hcol Hall). rewrite Hforce, Hsingle in Hchk.
    now apply bump_Stop_checked.
Qed.

(** C4, amended. With [--tag]: when the index holds an added file, the
    command returns 1 and the repository is as it was, no tag created;
    otherwise, without [--dry], it stages the files of the references,
    commits exactly when an entry of the status is modified, and creates
    the tag, forced exactly when [--force] is given; with [--dry] it
    stages, commits and tags nothing. *)
Theorem tag_refused_or_created args w :
  (BumpArgs.dry args = false -> tagging_rule args w)
  /\ (BumpArgs.dry args = true ->
      forall subject refs new_version w2,
        BumpArgs.tag args = true ->
        bump_rewritten args w = (Ok (subject, refs, new_version), w2) ->
        if has_mode "A" (porcelain (git w2) (files w2)) then
          _bump args w
          = (Stop (Return (Some 1)),
             logged (Log LogError "cannot tag with non-empty staging area" []) w2)
        else
          _bump args w
          = (Ok tt,
             logged (Log LogInfo "tagging %s" [get_tag subject new_version]) w2)).
Proof.
  split; intros Hdry subject refs new_version w2 Htag Hrew;
    unfold _bump; rewrite (bind_Ok _ _ _ _ _ Hrew); cbn iota beta;
    unfold tagging; rewrite Htag, Hdry;
    unfold when, bind, _git_porcelain, _git_add, _git_commit, _git_tag,
      logger, emit, return_, stop, get_world, set_git, ret; simpl;
    destruct (has_mode "A" (porcelain (git w2) (files w2))); try reflexivity.
  unfold tagged_repository, commit_message.
  destruct (has_mode "M" _); simpl; eexists; now repeat split.
Qed.

(** *** Option conflicts and the selected operation *)

Lemma sum_from (l : list Z) (a : Z) : fold_left Z.add l a = a + sum l.
Proof.
  unfold sum. revert a.
  induction l as [|y l IH]; intros a; cbn [fold_left]; [lia|].
  rewrite (IH (a + y)), (IH (0 + y)). lia.
Qed.



(** The two calls of [_report_conflict] raise exactly on [conflicting]. *)
Lemma report_conflicts args w :
  (conflicting args = true ->
   exists msg,
     bind (_report_conflict args ["version"; "ci"])
          (fun _ => _report_conflict args ["major"; "minor"; "patch"; "version"]) w
     = (Stop (ParserError msg), w))
  /\ (conflicting args = false ->
      bind (_report_conflict args ["version"; "ci"])
           (fun _ => _report_conflict args ["major"; "minor"; "patch"; "version"]) w
      = (Ok tt, w)).
Proof.
  unfold conflicting, _report_conflict, bind, parser_error, stop, ret.
  cbn [List.filter BumpArgs.getattr String.eqb Ascii.eqb Bool.eqb].
  destruct (truthy (BumpArgs.version args)), (BumpArgs.ci args),
    (BumpArgs.major args), (BumpArgs.minor args), (BumpArgs.patch args);
    vm_compute; split; intros H; try discriminate H;
    try reflexivity; try (eexists; reflexivity).
Qed.



(** C6. The [checks] command exits with status 1 as soon as one check is
    triggered, whatever the levels: [_run_checks] works out [status], logs
    it, and returns 1. *)
Theorem checks_exit_1_when_any_check_triggers (args : ChecksArgs.t) w subject w1 :
  _load_subject w = (Ok subject, w1) ->
  concat (_run_for_subject subject _collect_checks) <> [] ->
  exists w',
    _checks args w = (Stop (Return (Some 1)), w')
    /\ exit_code (fst (_checks args w)) = 1.
Proof.
  intros Hload Hchecks.
  assert (Hrun : exists w',
    _run_checks subject (ChecksArgs.treat_warnings_as_errors args) w1
    = (Ok (Some 1), w')).
  { unfold _run_checks.
    destruct (concat (_run_for_subject subject _collect_checks)) as [|c cs];
      [congruence|].
    unfold call, bind at 1, logger, emit. cbn iota beta.
    set (body := for_each (c :: cs) _).
    assert (Hbody : forall w0, exists w0', body w0 = (Ok tt, w0')).
    { unfold body. generalize (c :: cs) as l.
      induction l as [|x l IH]; intros w0; simpl.
      - now exists w0.
      - unfold bind at 1, print, emit. cbn iota beta. apply IH. }
    unfold bind at 1.
    match goal with |- context [body ?w0] => destruct (Hbody w0) as [w0' ->] end.
    unfold bind, return_, stop. simpl. eauto. }
  destruct Hrun as [w' Hrun]. exists w'.
  assert (H : _checks args w = (Stop (Return (Some 1)), w')).
  { unfold _checks. rewrite (bind_Ok _ _ _ _ _ Hload).
    now rewrite (bind_Ok _ _ _ _ _ Hrun). }
  split; [exact H | now rewrite H].
Qed.

End Bump.

End BumpSpec.

(** ** The bump command on the example repository *)

Module BumpExamples.
Import Py Shore Rules PyFacts ShoreFacts BumpSpec Demo.



(** [shore bump --version 0.9.0] on version 1.0.0 is a parser error. *)
Lemma lower_or_equal_version_rejected_witness :
  exists msg w1,
    @_bump (externals package) (version_args "0.9.0" false) (repo clean_git)
    = (Stop (ParserError msg), w1)
    /\ files w1 = repo_files.
Proof.
  edestruct (@lower_or_equal_version_rejected (externals package)
               (version_args "0.9.0" false) (repo clean_git)) as [Hreject _].
  - vm_compute. reflexivity.
  - destruct Hreject as (msg & Hbump & Hfiles & _).
    + reflexivity.
    + left. vm_compute. reflexivity.
    + exists msg. eexists. split; [exact Hbump | exact Hfiles].
Defined.

(** C3 as stated fails for [--get-single-version --force]: with a stale
    reference the command logs an error and returns 1, it does not go on
    with a warning. *)
Lemma forced_single_version_still_refused :
  ~ @inconsistency_rule (externals (package_with [] [stale_ref]))
      single_version_args (repo clean_git).
Proof.
  intros H.
  assert (Hcol : exists w1,
    @bump_collect (externals (package_with [] [stale_ref]))
      single_version_args (repo clean_git)
    = (Ok (IsPackage (package_with [] [stale_ref]), [stale_ref]), w1))
    by (eexists; vm_compute; reflexivity).
  destruct Hcol as [w1 Hcol].
  specialize (H _ _ _ Hcol).
  cbn [BumpArgs.force single_version_args] in H.
  assert (Hrule := H ltac:(repeat constructor; exists (0, 9, 0)%nat; now split)).
  vm_compute in Hrule. discriminate Hrule.
Qed.

(** [shore bump --patch --force] with a stale reference warns and goes on. *)
Lemma inconsistent_refs_refused_or_forced_witness :
  exists w1,
    @bump_checked (externals (package_with [] [stale_ref]))
      (patch_args true false false) (repo clean_git)
    = (Ok (IsPackage (package_with [] [stale_ref]), [stale_ref]), w1)
    /\ last (output w1)
       = Some (Log LogWarning "inconsistent versions across files were found." []).
Proof.
  assert (Hcol : exists w1,
    @bump_collect (externals (package_with [] [stale_ref]))
      (patch_args true false false) (repo clean_git)
    = (Ok (IsPackage (package_with [] [stale_ref]), [stale_ref]), w1))
    by (eexists; vm_compute; reflexivity).
  destruct Hcol as [w1 Hcol].
  pose proof (proj1 (@inconsistent_refs_refused_or_forced
                       (externals (package_with [] [stale_ref]))
                       (patch_args true false false) (repo clean_git))
                (fun _ => eq_refl) _ _ _ Hcol) as Hrule.
  cbn [BumpArgs.force patch_args] in Hrule.
  eexists. split.
  - apply Hrule. repeat constructor. exists (0, 9, 0)%nat. now split.
  - unfold logged. cbn [output]. now rewrite last_snoc.
Defined.

(** C4 as stated fails under [--dry]: [shore bump --patch --tag --dry] on a
    clean index creates no tag. *)
Lemma dry_run_creates_no_tag :
  ~ @tagging_rule (externals package) (patch_args false true true)
      (repo clean_git).
Proof.
  intros H.
  specialize (H (IsPackage package) [setup_ref; init_ref] (1, 0, 1)%nat
                (snd (@bump_rewritten (externals package)
                        (patch_args false true true) (repo clean_git)))
                eq_refl).
  assert (Hrule := H ltac:(vm_compute; reflexivity)).
  vm_compute in Hrule. destruct Hrule as (w' & Hbump & Hgit & _).
  injection Hbump as <-. discriminate Hgit.
Qed.

(** [shore bump --patch --tag] on a clean index commits and tags. *)
Lemma tag_refused_or_created_witness :
  exists w',
    @_bump (externals package) (patch_args false true false) (repo clean_git)
    = (Ok tt, w')
    /\ git w' = {| index := [];
                  commits := ["(demo) bump version to 1.0.1"];
                  tags := [("v1.0.1", false)] |}.
Proof.
  pose proof (proj1 (@tag_refused_or_created (externals package)
                       (patch_args false true false) (repo clean_git)) eq_refl
                (IsPackage package) [setup_ref; init_ref] (1, 0, 1)%nat
                (snd (@bump_rewritten (externals package)
                        (patch_args false true false) (repo clean_git)))
                eq_refl) as H.
  assert (Hrule := H ltac:(vm_compute; reflexivity)).
  vm_compute in Hrule. destruct Hrule as (w' & Hbump & Hgit & _).
  exists w'. split; [|exact Hgit].
  vm_compute. exact Hbump.
Defined.

(** Two references into [setup.py] fail the assertion. *)
Lemma refs_in_one_file_rejected_witness :
  exists msg w1,
    @_bump (externals (package_with [] [setup_ref; setup_ref]))
      (patch_args false false false) (repo clean_git)
    = (Stop (Raise (AssertionError msg)), w1)
    /\ files w1 = repo_files.
Proof.
  edestruct (@refs_in_one_file_rejected
               (externals (package_with [] [setup_ref; setup_ref]))
               (patch_args false false false) (repo clean_git)) as [_ Hdup].
  - vm_compute. reflexivity.
  - destruct (Hdup 0%nat 1%nat setup_ref setup_ref) as (Hbump & Hfiles & _);
      try reflexivity; [discriminate|].
    eexists. eexists. split; [exact Hbump | exact Hfiles].
Defined.

(** [shore bump --patch --tag] with [NEWS.md] added to the index: refused,
    with [setup.py] already at 1.0.1. *)
Lemma refused_tag_leaves_bump_applied_witness :
  exists w',
    @_bump (externals package) (patch_args false true false) (repo staged_git)
    = (Stop (Return (Some 1)), w')
    /\ files w' !! "/repo/setup.py" = Some "version='1.0.1'"
    /\ files (repo staged_git) !! "/repo/setup.py" = Some "version='1.0.0'".
Proof.
  destruct (@refused_tag_leaves_bump_applied (externals package)
              (patch_args false true false) (repo staged_git)
              (IsPackage package) [setup_ref; init_ref] (1, 0, 1)%nat
              (snd (@bump_rewritten (externals package)
                      (patch_args false true false) (repo staged_git)))
              eq_refl eq_refl)
    as (w' & Hbump & _ & _ & Hrefs).
  - vm_compute. reflexivity.
  - vm_compute. reflexivity.
  - destruct (Hrefs setup_ref) as (contents & Hold & Hnew); [now left|].
    exists w'. split; [exact Hbump|]. split; [|vm_compute; reflexivity].
    vm_compute in Hold. injection Hold as <-. vm_compute in Hnew. exact Hnew.
Defined.



(** [shore checks] with one INFO-level check exits with status 1. *)
Lemma checks_exit_1_when_any_check_triggers_witness :
  exit_code
    (fst (@_checks (externals (package_with [info_check] []))
            {| ChecksArgs.treat_warnings_as_errors := false |} (repo clean_git)))
  = 1.
Proof.
  edestruct (@checks_exit_1_when_any_check_triggers
               (externals (package_with [info_check] []))
               {| ChecksArgs.treat_warnings_as_errors := false |}
               (repo clean_git)) as (w' & _ & Hexit).
  - vm_compute. reflexivity.
  - vm_compute. discriminate.
  - exact Hexit.
Defined.

End BumpExamples.

(** ** The publish command *)

Module PublishSpec.
Import Py Shore Rules ShoreFacts.

Section Publish.
Context {E : Externals}.

(** *** Commands that do not return *)

Lemma no_return_ret {A} (a : A) : no_return (ret a).
Proof. intros w v w' H. discriminate H. Qed.

Lemma no_return_raise {A} (e : Exn) : no_return (@raise _ A e).
Proof. intros w v w' H. discriminate H. Qed.

Lemma no_return_emit (e : Event) : no_return (emit e).
Proof. intros w v w' H. discriminate H. Qed.

Lemma no_return_bind {A B} (m : M A) (k : A -> M B) :
  no_return m -> (forall a, no_return (k a)) -> no_return (bind m k).
Proof.
  intros Hm Hk w v w' H. unfold bind in H.
  destruct (m w) as [[a|ab] w0] eqn:Hmw.
  - exact (Hk a w0 v w' H).
  - injection H as -> ->. exact (Hm w v w' Hmw).
Qed.

Lemma no_return_for_each {A} (l : list A) (body : A -> M unit) :
  (forall x, no_return (body x)) -> no_return (for_each l body).
Proof.
  intros H. induction l as [|x l IH]; simpl.
  - apply no_return_ret.
  - apply no_return_bind; [apply H | intros _; exact IH].
Qed.

Lemma no_return_run_build b dir : no_return (run_build b dir).
Proof.
  intros w v w' H. unfold run_build in H.
  destruct (build b dir (files w)) as [[] fs]; discriminate H.
Qed.

Lemma no_return_run_publish p builds test dir :
  no_return (run_publish p builds test dir).
Proof.
  intros w v w' H. unfold run_publish in H.
  destruct (publish p builds test dir (files w)) as [[] fs]; discriminate H.
Qed.

Lemma no_return_needs_build args b : no_return (_needs_build args b).
Proof. intros w v w' H. discriminate H. Qed.

Lemma no_return_collect_required builds selectors required :
  no_return (collect_required builds selectors required).
Proof.
  revert required. induction selectors as [|sel rest IH]; intros required; simpl.
  - apply no_return_ret.
  - destruct (_filter_targets builds sel).
    + apply no_return_bind; [apply no_return_emit | intros _; apply no_return_ret].
    + apply IH.
Qed.

(** *** What a command adds to the output *)

Lemma prints_ret {A} P (a : A) : prints P (ret a).
Proof. intros w. exists []. simpl. now rewrite app_nil_r. Qed.

Lemma prints_emit (P : Event -> Prop) (e : Event) : P e -> prints P (emit e).
Proof. intros H w. exists [e]. simpl. split; [reflexivity | now constructor]. Qed.

Lemma prints_bind {A B} P (m : M A) (k : A -> M B) :
  prints P m -> (forall a, prints P (k a)) -> prints P (bind m k).
Proof.
  intros Hm Hk w. unfold bind. destruct (Hm w) as (evs & Hout & HP).
  destruct (m w) as [[a|ab] w0]; simpl in *.
  - destruct (Hk a w0) as (evs' & Hout' & HP').
    exists (evs ++ evs'). rewrite Hout', Hout, app_assoc.
    split; [reflexivity | now apply Forall_app].
  - now exists evs.
Qed.

Lemma prints_for_each {A} P (l : list A) (body : A -> M unit) :
  (forall x, prints P (body x)) -> prints P (for_each l body).
Proof.
  intros H. induction l as [|x l IH]; simpl.
  - apply prints_ret.
  - apply prints_bind; [apply H | intros _; exact IH].
Qed.

Lemma prints_run_build P b dir : prints P (run_build b dir).
Proof.
  intros w. exists []. unfold run_build.
  destruct (build b dir (files w)) as [[] fs]; simpl; now rewrite app_nil_r.
Qed.

Lemma prints_run_publish P p builds test dir :
  prints P (run_publish p builds test dir).
Proof.
  intros w. exists []. unfold run_publish.
  destruct (publish p builds test dir (files w)) as [[] fs]; simpl;
    now rewrite app_nil_r.
Qed.

Lemma prints_needs_build P args b : prints P (_needs_build args b).
Proof. intros w. exists []. simpl. now rewrite app_nil_r. Qed.

Lemma prints_collect_required builds selectors required :
  prints no_attempt (collect_required builds selectors required).
Proof.
  revert required. induction selectors as [|sel rest IH]; intros required; simpl.
  - apply prints_ret.
  - destruct (_filter_targets builds sel).
    + apply prints_bind; [now apply prints_emit | intros _; apply prints_ret].
    + apply IH.
Qed.

Lemma publisher_body_no_return args builds publisher :
  no_return (publisher_body args builds publisher).
Proof.
  unfold publisher_body.
  apply no_return_bind; [apply no_return_collect_required|].
  intros [required|]; [|apply no_return_ret].
  apply no_return_bind.
  - apply no_return_for_each. intros [target_id b].
    apply no_return_bind.
    + destruct (PublishArgs.reuse args); [|apply no_return_ret].
      apply no_return_bind; [apply no_return_needs_build|].
      intros ?. apply no_return_ret.
    + intros [|]; [apply no_return_emit|].
      apply no_return_bind; [apply no_return_emit|]. intros _.
      apply no_return_bind; [apply no_return_emit|]. intros _.
      apply no_return_run_build.
  - intros _. apply no_return_bind; [apply no_return_run_publish|].
    intros _. apply no_return_ret.
Qed.

Lemma publisher_body_prints args builds publisher :
  prints no_attempt (publisher_body args builds publisher).
Proof.
  unfold publisher_body.
  apply prints_bind; [apply prints_collect_required|].
  intros [required|]; [|apply prints_ret].
  apply prints_bind.
  - apply prints_for_each. intros [target_id b].
    apply prints_bind.
    + destruct (PublishArgs.reuse args); [|apply prints_ret].
      apply prints_bind; [apply prints_needs_build|].
      intros ?. apply prints_ret.
    + intros [|]; [now apply prints_emit|].
      apply prints_bind; [now apply prints_emit|]. intros _.
      apply prints_bind; [now apply prints_emit|]. intros _.
      apply prints_run_build.
  - intros _. apply prints_bind; [apply prints_run_publish|].
    intros _. apply prints_ret.
Qed.

Lemma attempts_app (l l' : list Event) :
  attempts (l ++ l') = attempts l ++ attempts l'.
Proof. unfold attempts. apply omap_app. Qed.

Lemma attempts_none (evs : list Event) :
  Forall no_attempt evs -> attempts evs = [].
Proof.
  induction 1 as [|e evs He _ IH]; [reflexivity|].
  unfold attempts in *. simpl. unfold no_attempt in He. now rewrite He.
Qed.

(** A publisher always comes back with an answer: whatever is raised while
    it runs is caught. Its run opens with its record, and is the only
    one that does. *)
Lemma run_publisher_total args builds name_ publisher w :
  exists b w',
    _run_publisher args builds name_ publisher w = (Ok b, w')
    /\ attempts (output w') = attempts (output w) ++ [name_].
Proof.
  set (w0 := logged (Log LogInfo "collecting builds for '%s' ..." [name_]) w).
  assert (Hrun : _run_publisher args builds name_ publisher w
    = match publisher_body args builds publisher w0 with
      | (Stop (Raise _), w') | (Stop (ParserError _), w') =>
          (Ok false,
           logged (Log LogException "error while running publisher '%s'" [name_]) w')
      | r => r
      end).
  { change (_run_publisher args builds name_ publisher)
      with (try_except
              (bind (logger LogInfo "collecting builds for '%s' ..." [name_])
                    (fun _ => publisher_body args builds publisher))
              (bind (logger LogException "error while running publisher '%s'"
                       [name_])
                    (fun _ => ret false))).
    unfold try_except. unfold bind at 1, logger at 1, emit at 1.
    change (mkWorld (cwd w) (files w) (git w)
              (output w ++ [Log LogInfo "collecting builds for '%s' ..." [name_]]))
      with w0.
    destruct (publisher_body args builds publisher w0) as [[b|[v|msg|e]] w'];
      reflexivity. }
  assert (Hw0 : attempts (output w0) = attempts (output w) ++ [name_]).
  { unfold w0, logged. cbn [output]. now rewrite attempts_app. }
  destruct (publisher_body_prints args builds publisher w0) as (evs & Hout & HP).
  pose proof (publisher_body_no_return args builds publisher w0) as Hnr.
  rewrite Hrun.
  destruct (publisher_body args builds publisher w0) as [[b|[v|msg|e]] w'];
    simpl in Hout.
  - exists b, w'. split; [reflexivity|].
    now rewrite Hout, attempts_app, (attempts_none evs HP), app_nil_r.
  - exfalso. exact (Hnr v w' eq_refl).
  - eexists. eexists. split; [reflexivity|]. unfold logged. cbn [output].
    rewrite Hout, !attempts_app, (attempts_none evs HP). simpl.
    now rewrite !app_nil_r.
  - eexists. eexists. split; [reflexivity|]. unfold logged. cbn [output].
    rewrite Hout, !attempts_app, (attempts_none evs HP). simpl.
    now rewrite !app_nil_r.
Qed.

(** The loop over the publishers runs every one of them, in order, and its
    status is 1 exactly when one of them failed. *)
Lemma run_publishers_all args builds publishers :
  forall status w,
    let outcomes := publisher_outcomes args builds publishers w in
    exists w',
      run_publishers args builds publishers status w
      = (Ok (if forallb snd outcomes then status else 1), w')
      /\ map fst outcomes = PyDict.keys publishers
      /\ attempts (output w') = attempts (output w) ++ PyDict.keys publishers.
Proof.
  induction publishers as [|[key publisher] rest IH]; intros status w; cbn zeta.
  - exists w. simpl. now rewrite app_nil_r.
  - destruct (run_publisher_total args builds key publisher w)
      as (b & w0 & Hrun & Hatt).
    destruct (IH (if negb b then 1 else status) w0) as (w' & Hrest & Hkeys & Hatt').
    exists w'. cbn [run_publishers publisher_outcomes].
    rewrite (bind_Ok _ _ _ _ _ Hrun), Hrun. cbn [fst snd map forallb PyDict.keys].
    split; [|split].
    + rewrite Hrest. destruct b; simpl; [reflexivity|].
      now destruct (forallb snd _).
    + unfold PyDict.keys in Hkeys. now rewrite Hkeys.
    + rewrite Hatt', Hatt, <- app_assoc. reflexivity.
Qed.

End Publish.

End PublishSpec.

(** ** The test command *)

Module SlamSpec.
Import Py Slam.

(** *** Sorting and dictionaries *)

Lemma insert_sorted_Permutation {A} (key : A -> string) (x : A) (l : list A) :
  Permutation (PyDict.insert_sorted key x l) (x :: l).
Proof.
  induction l as [|y l IH]; simpl; [reflexivity|].
  destruct (String.ltb (key x) (key y)); [reflexivity|].
  rewrite IH. apply perm_swap.
Qed.

Lemma sorted_Permutation {A} (key : A -> string) (l : list A) :
  Permutation (PyDict.sorted key l) l.
Proof.
  unfold PyDict.sorted.
  assert (H : forall acc,
    Permutation (fold_left (fun acc x => PyDict.insert_sorted key x acc) l acc)
                (acc ++ l)).
  { induction l as [|x l IH]; intros acc; simpl.
    - now rewrite app_nil_r.
    - rewrite IH, insert_sorted_Permutation.
      change (x :: acc) with ([x] ++ acc).
      rewrite (Permutation_app_comm [x] acc), <- app_assoc. reflexivity. }
  exact (H []).
Qed.


Lemma remove_dups_nonempty {A} `{EqDecision A} (l : list A) :
  l <> [] -> remove_dups l <> [].
Proof.
  destruct l as [|x l]; [congruence|]. intros _ Hnil.
  assert (Hx : x ∈ remove_dups (x :: l))
    by (apply elem_of_remove_dups; now left).
  rewrite Hnil in Hx. now apply not_elem_of_nil in Hx.
Qed.

Lemma all_zero_nonempty (results : PyDict.dict Z) :
  results <> [] -> all_zero results = forallb (fun o => snd o =? 0) results.
Proof.
  intros Hne. unfold all_zero, PyDict.values.
  destruct results as [|o os]; [congruence|]. cbn [map].
  change (forallb (fun v => v =? 0) (map snd (o :: os))
          = forallb (fun o => snd o =? 0) (o :: os)).
  generalize (o :: os) as l.
  induction l as [|x l IH]; simpl; [reflexivity | now rewrite IH].
Qed.

Section TestCommand.
Context {P : Processes}.

Lemma spawned_app (l l' : list IOEvent) :
  spawned (l ++ l') = spawned l ++ spawned l'.
Proof. unfold spawned. apply omap_app. Qed.

(** *** One runner *)

Lemma write_lines_spawned self color prefix lines :
  forall s,
    spawned (io (write_lines self color prefix lines s)) = spawned (io s)
    /\ env (write_lines self color prefix lines s) = env s
    /\ _prev_color (write_lines self color prefix lines s) = _prev_color s.
Proof.
  unfold write_lines. induction lines as [|l lines IH]; intros s; simpl.
  - now repeat split.
  - destruct (IH (emit (Write (rstrip l +:+ String LF ""))
                    (if line_prefixing self
                     then emit (Write ("<fg=" +:+ color +:+ ">" +:+ prefix
                                       +:+ "</fg>")) s
                     else s))) as (Hs & He & Hc).
    rewrite Hs, He, Hc. unfold emit.
    destruct (line_prefixing self); cbn [io env _prev_color];
      rewrite ?spawned_app; simpl; rewrite ?app_nil_r; now repeat split.
Qed.


(** When every process ends with an exit status, a runner returns it. *)
Lemma run_returns (self : TestRunner) s :
  exits_with_status -> exists code, fst (run self s) = Returned code.
Proof.
  intros [Hpopen Hpty]. unfold run. cbn [env].
  destruct (get_terminal_size (env s)) as [[cols rows]|].
  - specialize (Hpty ["bash"; "-c"; config self]
                  (rows, cols - len (runner_name self +:+ "| "))
                  (cwd self) (env s)).
    destruct (pty_spawn _ _ _ _) as [[lines status] e].
    cbn [fst snd] in Hpty. destruct Hpty as [code ->]. now exists code.
  - specialize (Hpopen ["bash"; "-c"; config self] (cwd self) (env s)).
    destruct (popen _ _ _) as [[lines status] e].
    cbn [fst snd] in Hpopen. destruct Hpopen as [code ->]. now exists code.
Qed.

(** *** The loop *)

Lemma test_outcomes_keys sp nlp sorted_tests s :
  map fst (test_outcomes sp nlp sorted_tests s)
  = map (result_key sp) sorted_tests.
Proof.
  revert s. induction sorted_tests as [|t rest IH]; intros s; simpl;
    [reflexivity|].
  now rewrite IH.
Qed.




(** *** The selection is never empty *)

Lemma select_tests_nonempty self name_ ts :
  _select_tests self name_ = Some ts -> ts <> [].
Proof.
  unfold _select_tests.
  destruct (remove_dups _) as [|t l]; [discriminate|].
  intros H. injection H as <-. discriminate.
Qed.

Lemma select_all_nonempty self names ts :
  names <> [] -> select_all self names = inr ts -> ts <> [].
Proof.
  destruct names as [|a rest]; [congruence|]. intros _. simpl.
  destruct (_select_tests self a) as [sel|] eqn:Hsel; [|discriminate].
  destruct (select_all self rest) as [bad|more]; [discriminate|].
  intros H. injection H as <-.
  pose proof (select_tests_nonempty _ _ _ Hsel).
  destruct sel; [congruence | discriminate].
Qed.

Lemma selected_nonempty self tests_ :
  tests self <> [] -> selected self = inr tests_ -> tests_ <> [].
Proof.
  unfold selected. intros Hne.
  destruct (argument_test self) as [|a rest] eqn:Hargs.
  - intros H. injection H as <-. now apply remove_dups_nonempty.
  - destruct (select_all self (a :: rest)) as [bad|ts] eqn:Hsel; [discriminate|].
    intros H. injection H as <-. apply remove_dups_nonempty.
    now apply (select_all_nonempty self (a :: rest)).
Qed.


End TestCommand.

End SlamSpec.


(** ** What the commands leave as it was *)

Module EffectFacts.
Import Py Shore Rules Effects PyFacts ShoreFacts.

Section Keeps.
Context {E : Externals}.
Context (R : World Git -> World Git -> Prop) `{!PreOrder R}.

Lemma keeps_ret {A} (a : A) : keeps R (ret a).
Proof. intros w. reflexivity. Qed.

Lemma keeps_stop {A} (ab : Abort) : keeps R (@stop _ A ab).
Proof. intros w. reflexivity. Qed.

Lemma keeps_bind {A B} (m : M A) (k : A -> M B) :
  keeps R m -> (forall a, keeps R (k a)) -> keeps R (bind m k).
Proof.
  intros Hm Hk w. unfold bind. specialize (Hm w).
  destruct (m w) as [[a|ab] w0]; simpl in *.
  - exact (PreOrder_Transitive _ _ _ Hm (Hk a w0)).
  - exact Hm.
Qed.

Lemma keeps_when (b : bool) (m : M unit) : (b = true -> keeps R m) -> keeps R (when b m).
Proof. intros H. destruct b; [now apply H | apply keeps_ret]. Qed.

Lemma keeps_or_raise {A} (o : option A) (e : Exn) : keeps R (or_raise o e).
Proof. destruct o; [apply keeps_ret | apply keeps_stop]. Qed.

Lemma keeps_for_each {A} (l : list A) (body : A -> M unit) :
  (forall x, In x l -> keeps R (body x)) -> keeps R (for_each l body).
Proof.
  induction l as [|x l IH]; intros H; simpl.
  - apply keeps_ret.
  - apply keeps_bind; [apply H; now left | intros _; apply IH].
    intros y Hy. apply H. now right.
Qed.

Lemma keeps_call (body : M unit) : keeps R body -> keeps R (call body).
Proof.
  intros H w. unfold call. specialize (H w).
  destruct (body w) as [[[]|[v|msg|e]] w0]; exact H.
Qed.

Lemma keeps_try_except {A} (body handler : M A) :
  keeps R body -> keeps R handler -> keeps R (try_except body handler).
Proof.
  intros Hb Hh w. unfold try_except. specialize (Hb w).
  destruct (body w) as [[a|[v|msg|e]] w0]; simpl in *;
    first [exact Hb | exact (PreOrder_Transitive _ _ _ Hb (Hh w0))].
Qed.

Lemma keeps_get_world : keeps R get_world.
Proof. intros w. reflexivity. Qed.

Lemma keeps_isfile (f : string) : keeps R (isfile f).
Proof. intros w. reflexivity. Qed.

Lemma keeps_read_file (f : string) : keeps R (read_file f).
Proof.
  intros w. unfold read_file. destruct (files w !! _); reflexivity.
Qed.

Lemma keeps_git_porcelain : keeps R _git_porcelain.
Proof. intros w. reflexivity. Qed.

Lemma keeps_needs_build args b : keeps R (_needs_build args b).
Proof. intros w. reflexivity. Qed.

End Keeps.

Section Relations.
Context {E : Externals}.

#[export] Instance same_store_preorder : PreOrder same_store.
Proof.
  split.
  - intros w. now split.
  - intros w1 w2 w3 [Hf Hg] [Hf' Hg']. split; congruence.
Qed.

#[export] Instance same_git_preorder : PreOrder same_git.
Proof.
  split.
  - intros w. reflexivity.
  - intros w1 w2 w3 H H'. unfold same_git in *. congruence.
Qed.

#[export] Instance same_outside_preorder paths : PreOrder (same_outside paths).
Proof.
  split.
  - intros w. now split.
  - intros w1 w2 w3 [Hc Hf] [Hc' Hf']. split; [congruence|].
    intros p Hp. rewrite Hf' by exact Hp. now apply Hf.
Qed.

#[export] Instance same_place_preorder : PreOrder same_place.
Proof.
  split.
  - intros w. repeat split. exists []. now rewrite app_nil_r.
  - intros w1 w2 w3 (Hc & Hg & evs & Ho) (Hc' & Hg' & evs' & Ho').
    repeat split; [congruence | congruence |].
    exists (evs ++ evs'). rewrite Ho', Ho. now rewrite app_assoc.
Qed.

(** What the primitives keep. *)

Lemma store_emit e : keeps same_store (emit e).
Proof. intros w. now split. Qed.

Lemma store_chdir p : keeps same_store (chdir p).
Proof. intros w. now split. Qed.

Lemma git_emit e : keeps same_git (emit e).
Proof. intros w. reflexivity. Qed.

Lemma git_chdir p : keeps same_git (chdir p).
Proof. intros w. reflexivity. Qed.

Lemma git_write_file f c : keeps same_git (write_file f c).
Proof. intros w. reflexivity. Qed.

Lemma git_run_build b dir : keeps same_git (run_build b dir).
Proof. intros w. unfold run_build. destruct (build b dir (files w)). reflexivity. Qed.

Lemma git_run_publish p builds test dir : keeps same_git (run_publish p builds test dir).
Proof.
  intros w. unfold run_publish. destruct (publish p builds test dir (files w)).
  reflexivity.
Qed.

Lemma outside_emit paths e : keeps (same_outside paths) (emit e).
Proof. intros w. now split. Qed.

Lemma place_emit e : keeps same_place (emit e).
Proof. intros w. repeat split. now exists [e]. Qed.

End Relations.

Create HintDb keeps.

#[export] Hint Resolve keeps_ret keeps_stop keeps_get_world keeps_isfile
  keeps_read_file keeps_or_raise keeps_git_porcelain keeps_needs_build
  store_emit store_chdir git_emit git_chdir git_write_file git_run_build
  git_run_publish outside_emit place_emit : keeps.

(** Takes a command apart along its binds, conditionals and matches. *)
Ltac keeps_step :=
  match goal with
  | H : negb true = true |- _ => discriminate H
  | H : false = true |- _ => discriminate H
  | |- keeps _ (bind _ _) => apply keeps_bind; [tc_solve | |intros ?]
  | |- keeps _ (when _ _) => apply keeps_when; [tc_solve | intros ?]
  | |- keeps _ (for_each _ _) => apply keeps_for_each; [tc_solve | intros ? ?]
  | |- keeps _ (call _) => apply keeps_call
  | |- keeps _ (try_except _ _) => apply keeps_try_except; [tc_solve | |]
  | |- keeps _ (logger _ _ _) => unfold logger
  | |- keeps _ (print _) => unfold print
  | |- keeps _ (return_ _) => apply keeps_stop; tc_solve
  | |- keeps _ (parser_error _) => apply keeps_stop; tc_solve
  | |- keeps _ (raise _) => apply keeps_stop; tc_solve
  | |- keeps _ (if ?b then _ else _) => destruct b eqn:?
  | |- keeps _ (match ?x with _ => _ end) => destruct x eqn:?
  | |- keeps _ (let '(_, _) := ?x in _) => destruct x
  | |- _ => solve [auto with keeps typeclass_instances]
  end.

Ltac keeps_tac := repeat keeps_step.

Section Commands.
Context {E : Externals}.

Lemma keeps_report_conflict R `{!PreOrder R} args opts :
  keeps R (_report_conflict args opts).
Proof. unfold _report_conflict. keeps_tac. Qed.

Lemma keeps_load_subject R `{!PreOrder R} : keeps R _load_subject.
Proof. unfold _load_subject. keeps_tac. Qed.

Lemma quiet_keeps_store {A} (m : M A) : quiet m -> keeps same_store m.
Proof. intros H w. exact (H w). Qed.

Lemma quiet_keeps_git {A} (m : M A) : quiet m -> keeps same_git m.
Proof. intros H w. exact (proj2 (H w)). Qed.

Lemma store_rewrite_ref_dry args new_version ref :
  BumpArgs.dry args = true -> keeps same_store (rewrite_ref args new_version ref).
Proof. intros Hdry. unfold rewrite_ref. rewrite Hdry. keeps_tac. Qed.

Lemma store_tagging_dry args subject refs new_version :
  BumpArgs.dry args = true ->
  keeps same_store (tagging args subject refs new_version).
Proof. intros Hdry. unfold tagging. rewrite Hdry. keeps_tac. Qed.

Lemma git_rewrite_ref args new_version ref :
  keeps same_git (rewrite_ref args new_version ref).
Proof. unfold rewrite_ref. keeps_tac. Qed.

End Commands.

End EffectFacts.

(** ** More on [shore bump] *)

Module BumpEffects.
Import Py Shore Rules Effects PyFacts ShoreFacts BumpSpec EffectFacts.

Section Bump.
Context {E : Externals}.

(** X1. With [--dry], [shore bump] changes no file and nothing in the git
    repository, whatever the arguments and however the command ends. *)
Theorem dry_run_changes_nothing args w :
  BumpArgs.dry args = true ->
  files (snd (_bump args w)) = files w /\ git (snd (_bump args w)) = git w.
Proof.
  intros Hdry. revert w. change (keeps same_store (_bump args)).
  unfold _bump, bump_rewritten.
  apply keeps_bind; [tc_solve | | intros [[subject refs] new_version]].
  - apply keeps_bind; [tc_solve | | intros [[subject refs] new_version]].
    + apply quiet_keeps_store, quiet_bump_asserted.
    + keeps_tac. now apply store_rewrite_ref_dry.
  - now apply store_tagging_dry.
Qed.

(** X2. Without [--tag], [shore bump] changes nothing in the git
    repository: it neither stages, commits nor tags, however it ends. *)
Theorem bump_without_tag_keeps_repository args w :
  BumpArgs.tag args = false ->
  git (snd (_bump args w)) = git w.
Proof.
  intros Htag. revert w. change (keeps same_git (_bump args)).
  unfold _bump, bump_rewritten.
  apply keeps_bind; [tc_solve | | intros [[subject refs] new_version]].
  - apply keeps_bind; [tc_solve | | intros [[subject refs] new_version]].
    + apply quiet_keeps_git, quiet_bump_asserted.
    + keeps_tac. apply git_rewrite_ref.
  - unfold tagging. rewrite Htag. apply keeps_ret. tc_solve.
Qed.

(** The loop writes at the paths of its references only, however it
    ends. *)
Lemma rewrite_loop_outside args new_version refs :
  forall w p o w',
    ~ In p (map (ref_path w) refs) ->
    for_each refs (rewrite_ref args new_version) w = (o, w') ->
    cwd w' = cwd w /\ git w' = git w /\ files w' !! p = files w !! p.
Proof.
  induction refs as [|ref refs IH]; intros w p o w' Hp Hrun.
  { injection Hrun as <- <-. now repeat split. }
  cbn [for_each] in Hrun. unfold bind at 1 in Hrun. simpl in Hp.
  assert (Hstep : exists o1 w1,
    rewrite_ref args new_version ref w = (o1, w1)
    /\ cwd w1 = cwd w /\ git w1 = git w /\ files w1 !! p = files w !! p).
  { destruct (BumpArgs.dry args) eqn:Hdry.
    - rewrite (rewrite_ref_dry _ _ _ _ Hdry). eexists. eexists.
      split; [reflexivity|]. now repeat split.
    - destruct (files w !! ref_path w ref) as [contents|] eqn:Hfile.
      + rewrite (rewrite_ref_wet _ _ _ _ _ Hdry Hfile). eexists. eexists.
        split; [reflexivity|]. repeat split. simpl.
        apply lookup_insert_ne. tauto.
      + rewrite (rewrite_ref_missing _ _ _ _ Hdry Hfile). eexists. eexists.
        split; [reflexivity|]. now repeat split. }
  destruct Hstep as (o1 & w1 & Hstep & Hcwd & Hgit & Hfiles).
  rewrite Hstep in Hrun.
  destruct o1 as [[]|ab]; [|injection Hrun as <- <-; now repeat split].
  assert (Hpaths : map (ref_path w1) refs = map (ref_path w) refs)
    by (apply map_ext; intros r; now apply ref_path_cwd).
  destruct (IH w1 p o w') as (Hc & Hg & Hf);
    [rewrite Hpaths; tauto | exact Hrun |].
  repeat split; congruence.
Qed.

(** X3. [shore bump] writes to the files of the version references only:
    every other file has the same contents after the command, however the
    command ends. *)
Theorem bump_touches_only_referenced_files args w p :
  p ∉ bump_paths args w ->
  files (snd (_bump args w)) !! p = files w !! p.
Proof.
  unfold bump_paths. intros Hp.
  pose proof (quiet_bump_asserted args w) as [Hq _].
  destruct (bump_asserted args w) as [[[[subject refs] new_version]|ab] w1] eqn:Hass.
  - rewrite list_elem_of_In in Hp. simpl in Hq.
    unfold _bump, bind at 1. rewrite (bump_rewritten_after _ _ _ _ _ _ Hass).
    set (w1' := logged (Log LogInfo "bumping %d version reference(s)"
                          [pretty (llen refs)]) w1).
    destruct (for_each refs (rewrite_ref args new_version) w1')
      as [o w2] eqn:Hloop.
    destruct (rewrite_loop_outside args new_version refs w1' p o w2)
      as (_ & _ & Hf); [|exact Hloop|].
    { now rewrite (map_ext (ref_path w1') (ref_path w1))
        by (intros r; now apply ref_path_cwd). }
    destruct o as [[]|ab].
    + rewrite tagging_keeps_files. simpl in Hf. now rewrite Hf, <- Hq.
    + simpl in *. now rewrite Hf, <- Hq.
  - apply rewritten_Stop, bump_Stop in Hass. rewrite Hass. simpl in *.
    now rewrite Hq.
Qed.

Lemma for_each_app {A} (l l' : list A) (body : A -> M unit) w :
  for_each (l ++ l') body w
  = bind (for_each l body) (fun _ => for_each l' body) w.
Proof.
  revert w. induction l as [|x l IH]; intros w; simpl; [reflexivity|].
  unfold bind. destruct (body x w) as [[[]|ab] w0]; [|reflexivity].
  rewrite IH. reflexivity.
Qed.

(** X4. [shore bump] is not atomic. When the file of a version reference
    is missing, the command raises [FileNotFoundError] for it: the files of
    the references listed before it have been rewritten already, those of
    the references after it are as they were, and nothing is staged,
    committed or tagged. *)
Theorem missing_file_stops_midway
    args w subject before ref after new_version w1 :
  BumpArgs.dry args = false ->
  bump_asserted args w = (Ok (subject, before ++ ref :: after, new_version), w1) ->
  (forall r, In r before -> is_Some (files w1 !! ref_path w1 r)) ->
  files w1 !! ref_path w1 ref = None ->
  exists w',
    _bump args w = (Stop (Raise (FileNotFoundError (filename ref))), w')
    /\ (forall r contents,
          In r before ->
          files w !! ref_path w1 r = Some contents ->
          files w' !! ref_path w1 r = Some (splice contents r new_version))
    /\ (forall r, In r after ->
          files w' !! ref_path w1 r = files w !! ref_path w1 r)
    /\ git w' = git w.
Proof.
  intros Hdry Hass Hbefore Hmissing.
  destruct (bump_asserted_inv _ _ _ _ _ _ Hass) as [_ Hnd].
  pose proof (quiet_bump_asserted args w) as Hq. rewrite Hass in Hq.
  destruct Hq as [Hfiles Hgit]. simpl in Hfiles, Hgit.
  set (w1' := logged (Log LogInfo "bumping %d version reference(s)"
                        [pretty (llen (before ++ ref :: after))]) w1).
  assert (Hpath : forall r, ref_path w1' r = ref_path w1 r)
    by (intros r; now apply ref_path_cwd).
  rewrite map_app in Hnd. apply NoDup_app in Hnd as (Hnd_b & Hsep & Hnd_a).
  destruct (rewrite_loop args new_version before Hdry w1')
    as (w2 & Hrun & Hcwd & Hgit2 & Hin & Hout).
  { now rewrite (map_ext _ _ Hpath). }
  { intros r Hr. rewrite Hpath. now apply Hbefore. }
  assert (Hfresh : ~ In (ref_path w1 ref) (map (ref_path w1) before)).
  { intros Hr. rewrite <- list_elem_of_In in Hr. apply (Hsep _ Hr).
    simpl. left. }
  assert (Hmiss2 : files w2 !! ref_path w2 ref = None).
  { rewrite (ref_path_cwd w1' w2), Hpath by exact Hcwd.
    rewrite Hout by now rewrite (map_ext _ _ Hpath). exact Hmissing. }
  exists (logged (rewrite_record w2 new_version ref) w2).
  assert (Hbump : _bump args w
    = (Stop (Raise (FileNotFoundError (filename ref))),
       logged (rewrite_record w2 new_version ref) w2)).
  { apply bump_Stop. rewrite (bump_rewritten_after _ _ _ _ _ _ Hass).
    fold w1'. rewrite for_each_app. unfold bind at 1. rewrite Hrun.
    cbn [for_each]. unfold bind at 1.
    now rewrite (rewrite_ref_missing _ _ _ _ Hdry Hmiss2). }
  split; [exact Hbump|]. simpl. split; [|split].
  - intros r contents Hr Hc. rewrite <- Hpath. apply Hin; [exact Hr|].
    rewrite Hpath. simpl. now rewrite Hfiles.
  - intros r Hr. rewrite Hout; [simpl; now rewrite Hfiles|].
    rewrite (map_ext _ _ Hpath). intros Hb.
    rewrite <- list_elem_of_In in Hb. apply (Hsep _ Hb).
    simpl. right. apply list_elem_of_In. now apply in_map.
  - now rewrite Hgit2.
Qed.

(** Takes apart a sequence of commands that went through. *)
Ltac invert_binds :=
  repeat match goal with
  | H : bind _ _ _ = (Ok _, _) |- _ =>
      let a := fresh "a" in let w0 := fresh "w0" in let Hm := fresh "Hm" in
      apply bind_Ok_inv in H as (a & w0 & Hm & H)
  | H : (let '(_, _) := ?x in _) _ = (Ok _, _) |- _ => destruct x
  end.

(** With [--show], [--status] or [--get-single-version] the blocks up to
    the consistency check do not go through: they return or stop. *)
Lemma query_stops args w :
  BumpArgs.show args = true \/ BumpArgs.status args = true
  \/ BumpArgs.get_single_version args = true ->
  exists ab w', bump_checked args w = (Stop ab, w').
Proof.
  intros Hquery.
  destruct (bump_checked args w) as [[found|ab] w'] eqn:Hrun; [exfalso|eauto].
  unfold bump_checked, bump_collect in Hrun. invert_binds.
  destruct Hquery as [Hq|[Hq|Hq]]; rewrite Hq in *;
    repeat match goal with
    | H : when true _ _ = (Ok _, _) |- _ => unfold when in H; invert_binds
    | H : return_ _ _ = (Ok _, _) |- _ => discriminate H
    end.
Qed.

(** X5. [shore bump --show], [--status] and [--get-single-version] only
    report: the command always stops before a new version is worked out,
    and the files and the git repository are as they were. *)
Theorem queries_change_nothing args w :
  BumpArgs.show args = true \/ BumpArgs.status args = true
  \/ BumpArgs.get_single_version args = true ->
  exists ab w',
    _bump args w = (Stop ab, w') /\ files w' = files w /\ git w' = git w.
Proof.
  intros Hquery. destruct (query_stops args w Hquery) as (ab & w' & Hstop).
  exists ab, w'. split; [now apply bump_Stop_checked|].
  pose proof (quiet_bump_checked args w) as Hq. now rewrite Hstop in Hq.
Qed.

Lemma for_each_emits {A} (l : list A) (f : A -> Event) w :
  for_each l (fun x => emit (f x)) w
  = (Ok tt, mkWorld (cwd w) (files w) (git w) (output w ++ map f l)).
Proof.
  revert w. induction l as [|x l IH]; intros w; simpl.
  - rewrite app_nil_r. now destruct w.
  - unfold bind, emit at 1. rewrite IH. simpl. now rewrite <- app_assoc.
Qed.

Lemma printed_app (l l' : list Event) : printed (l ++ l') = printed l ++ printed l'.
Proof. unfold printed. apply omap_app. Qed.

Lemma printed_prints {A} (f : A -> list string) (l : list A) :
  printed (map (fun x => Print (f x)) l) = map f l.
Proof. induction l as [|x l IH]; simpl; [reflexivity | now rewrite <- IH]. Qed.

(** [_run_checks] always comes back to its caller, with 0 when no check
    is triggered and 1 otherwise; it has only added to the output, one
    printed line for each check. *)
Lemma run_checks_returns subject twe w :
  let checks := concat (_run_for_subject subject _collect_checks) in
  exists evs,
    _run_checks subject twe w
    = (Ok (Some (if bool_decide (checks = []) then 0 else 1)),
       mkWorld (cwd w) (files w) (git w) (output w ++ evs))
    /\ printed evs = map check_line checks.
Proof.
  unfold _run_checks. cbn zeta.
  destruct (concat (_run_for_subject subject _collect_checks)) as [|c cs].
  - eexists. split; reflexivity.
  - rewrite bool_decide_eq_false_2 by discriminate.
    set (body := for_each (c :: cs) _).
    assert (Hbody : forall w0,
      body w0 = (Ok tt, mkWorld (cwd w0) (files w0) (git w0)
                   (output w0 ++ map (fun check => Print (check_line check)) (c :: cs))))
      by (intros w0; apply (for_each_emits (c :: cs) (fun check => Print (check_line check)))).
    unfold call, bind at 1, logger, emit at 1. cbn iota beta.
    unfold bind at 1. rewrite Hbody.
    unfold bind, emit, return_, stop. cbn [cwd files git output].
    eexists. split.
    + rewrite <- !app_assoc. reflexivity.
    + rewrite !printed_app, (printed_prints check_line). simpl.
      now rewrite app_nil_r.
Qed.

(** X6. A package whose version is managed by its monorepo is not bumped
    without [--force]: whatever the one operation selected, [--status]
    apart and [--show] and [--get-single-version] included, the command
    ends with a parser error, the files and the repository as they were. *)
Theorem managed_package_needs_force args w :
  conflicting args = false ->
  count_true (operations args) = 1 ->
  BumpArgs.status args = false ->
  BumpArgs.force args = false ->
  is_Some (files w !! resolve (bump_directory args w) "package.yaml") ->
  files w !! resolve (bump_directory args w) "monorepo.yaml" = None ->
  pkg_monorepo (Package_load "package.yaml" (bump_directory args w) (files w))
  = Some true ->
  exists w',
    _bump args w
    = (Stop (ParserError
         "cannot bump individual package version if managed by monorepo."), w')
    /\ files w' = files w /\ git w' = git w.
Proof.
  intros Hconf Hone Hstatus Hforce Hpkg Hmono Hmanaged.
  pose proof (proj2 (report_conflicts args w) Hconf) as Hpass.
  apply bind_Ok_inv in Hpass as ([] & w0 & Hfirst & Hsecond).
  set (w_c := mkWorld (bump_directory args w) (files w) (git w) (output w)).
  assert (Hchdir : when (truthy (BumpArgs.path args))
                     (chdir (default "" (BumpArgs.path args))) w = (Ok tt, w_c)).
  { unfold w_c, bump_directory, when, chdir, ret.
    destruct (truthy (BumpArgs.path args)); [reflexivity | now destruct w]. }
  set (p := Package_load "package.yaml" (bump_directory args w) (files w)) in *.
  assert (Hload : _load_subject w_c = (Ok (IsPackage p), w_c)).
  { unfold _load_subject, bind, isfile, get_world. cbn [cwd files w_c].
    rewrite (bool_decide_eq_true_2 _ Hpkg).
    rewrite (bool_decide_eq_false_2 (is_Some _))
      by (rewrite Hmono; apply is_Some_None).
    reflexivity. }
  assert (Hchecks : exists w_d,
    when (negb (BumpArgs.status args) && negb (BumpArgs.get_single_version args)
          && negb (BumpArgs.skip_checks args))
      (bind (_run_checks (IsPackage p) true) (fun _ => ret tt)) w_c = (Ok tt, w_d)).
  { unfold when. destruct (_ && _); [|eexists; reflexivity].
    destruct (run_checks_returns (IsPackage p) true w_c) as (evs & Hrun & _).
    rewrite (bind_Ok _ _ _ _ _ Hrun). eexists. reflexivity. }
  destruct Hchecks as [w_d Hchecks].
  assert (Hcol : bump_collect args w
    = (Stop (ParserError
         "cannot bump individual package version if managed by monorepo."), w_d)).
  { unfold bump_collect.
    rewrite (bind_Ok _ _ _ _ _ Hfirst). cbn beta.
    rewrite (bind_Ok _ _ _ _ _ Hsecond). cbn beta.
    rewrite (bind_Ok _ _ _ _ _ Hchdir). cbn beta.
    rewrite (bind_Ok _ _ _ _ _ Hload). cbn beta.
    fold (operations args). rewrite Hone.
    unfold bind at 1. cbn [Z.eqb Z.gtb Z.compare Pos.compare Pos.compare_cont ret].
    rewrite (bind_Ok _ _ _ _ _ Hchecks). cbn beta.
    rewrite Hstatus, Hforce. unfold when at 1, bind at 1, ret at 1.
    unfold bind at 1, when at 1.
    rewrite (bool_decide_eq_true_2 _ Hmanaged). reflexivity. }
  exists w_d. split.
  - now apply bump_Stop_checked, checked_Stop.
  - pose proof (quiet_bump_collect args w) as Hq. now rewrite Hcol in Hq.
Qed.

Lemma append_assoc (a b c : string) : (a +:+ b) +:+ c = a +:+ (b +:+ c).
Proof.
  induction a as [|x a IH]; [reflexivity|].
  rewrite !app_cons. now rewrite IH.
Qed.

Lemma str_drop_drop (n m : nat) (s : string) :
  str_drop n (str_drop m s) = str_drop (m + n) s.
Proof.
  revert s. induction m as [|m IH]; intros s; [reflexivity|].
  destruct s as [|c s]; simpl; [now destruct n | apply IH].
Qed.

(** [s[:a] + s[a:b] + s[b:] == s] for bounds in order inside [s]. *)
Lemma slice_parts (s : string) (a b : Z) :
  0 <= a -> a <= b -> b <= len s ->
  slice_to s a +:+ slice s a b +:+ slice_from s b = s.
Proof.
  intros Ha Hab Hb. unfold slice_to, slice, slice_from.
  rewrite !slice_index_inside by lia.
  replace (str_drop (Z.to_nat b) s)
    with (str_drop (Z.to_nat b - Z.to_nat a) (str_drop (Z.to_nat a) s))
    by (rewrite str_drop_drop; f_equal; lia).
  rewrite (str_take_drop (Z.to_nat b - Z.to_nat a)). apply str_take_drop.
Qed.

Lemma slice_to_prefix (p r : string) : slice_to (p +:+ r) (len p) = p.
Proof.
  unfold slice_to. pose proof (len_nonneg p). pose proof (len_nonneg r).
  rewrite slice_index_inside by (rewrite len_app; lia).
  replace (Z.to_nat (len p)) with (String.length p) by (unfold len; lia).
  apply str_take_app.
Qed.

Lemma slice_from_prefix (p r : string) : slice_from (p +:+ r) (len p) = r.
Proof.
  unfold slice_from. pose proof (len_nonneg p). pose proof (len_nonneg r).
  rewrite slice_index_inside by (rewrite len_app; lia).
  replace (Z.to_nat (len p)) with (String.length p) by (unfold len; lia).
  apply str_drop_app.
Qed.

(** X7. The replacement of a bump can be undone: replacing, in the
    rewritten contents, the range that now holds the new version by the
    string the reference held before gives back the original contents. *)
Theorem splice_back contents ref new_version old_version :
  in_range ref contents ->
  version_str old_version = slice contents (start ref) (end_ ref) ->
  splice (splice contents ref new_version)
    {| filename := filename ref; start := start ref;
       end_ := start ref + len (version_str new_version);
       value := version_str new_version |}
    old_version
  = contents.
Proof.
  intros (H0 & H1 & H2) Hold. unfold splice at 1. cbn [start end_].
  unfold splice.
  pose proof (slice_to_length contents (start ref)) as Hlen.
  set (p := slice_to contents (start ref)) in *.
  set (r := slice_from contents (end_ ref)).
  rewrite <- Hlen at 1 by lia. rewrite slice_to_prefix.
  replace (start ref + len (version_str new_version))
    with (len (p +:+ version_str new_version)) by (rewrite len_app; lia).
  rewrite <- (append_assoc p (version_str new_version) r), slice_from_prefix.
  rewrite Hold. unfold p, r. now apply slice_parts.
Qed.

End Bump.

End BumpEffects.

(** ** The exit status of the commands *)

Module ExitStatus.
Import Py Shore Rules Effects PyFacts ShoreFacts PublishSpec EffectFacts BumpEffects.

Section Returns.
Context {E : Externals}.
Variable P : option Z -> Prop.

Lemma returns_ret {A} (a : A) : returns_only P (ret a).
Proof. intros w v w' H. discriminate H. Qed.

Lemma returns_return {A} (v : option Z) : P v -> returns_only P (@return_ _ A v).
Proof. intros Hv w v' w' H. now injection H as <- _. Qed.

Lemma returns_parser_error {A} msg : returns_only P (@parser_error _ A msg).
Proof. intros w v w' H. discriminate H. Qed.

Lemma returns_raise {A} e : returns_only P (@raise _ A e).
Proof. intros w v w' H. discriminate H. Qed.

Lemma returns_bind {A B} (m : M A) (k : A -> M B) :
  returns_only P m -> (forall a, returns_only P (k a)) -> returns_only P (bind m k).
Proof.
  intros Hm Hk w v w'. unfold bind.
  destruct (m w) as [[a|ab] w0] eqn:Hrun; intros H.
  - exact (Hk a _ _ _ H).
  - injection H as -> ->. exact (Hm _ _ _ Hrun).
Qed.

Lemma returns_when (b : bool) (m : M unit) :
  returns_only P m -> returns_only P (when b m).
Proof. intros H. destruct b; [exact H | apply returns_ret]. Qed.

Lemma returns_or_raise {A} (o : option A) (e : Exn) : returns_only P (or_raise o e).
Proof. destruct o; [apply returns_ret | apply returns_raise]. Qed.

Lemma returns_for_each {A} (l : list A) (body : A -> M unit) :
  (forall x, returns_only P (body x)) -> returns_only P (for_each l body).
Proof.
  intros H. induction l as [|x l IH]; simpl.
  - apply returns_ret.
  - apply returns_bind; [apply H | intros _; exact IH].
Qed.

(** A call takes the [return] of its body. *)
Lemma returns_call (body : M unit) : returns_only P (call body).
Proof.
  intros w v w'. unfold call.
  destruct (body w) as [[[]|[v0|msg|e]] w0]; intros H; discriminate H.
Qed.

Lemma returns_emit e : returns_only P (emit e).
Proof. intros w v w' H. discriminate H. Qed.

Lemma returns_get_world : returns_only P get_world.
Proof. intros w v w' H. discriminate H. Qed.

Lemma returns_chdir p : returns_only P (chdir p).
Proof. intros w v w' H. discriminate H. Qed.

Lemma returns_isfile f : returns_only P (isfile f).
Proof. intros w v w' H. discriminate H. Qed.

Lemma returns_set_git g : returns_only P (set_git g).
Proof. intros w v w' H. discriminate H. Qed.

Lemma returns_git_porcelain : returns_only P _git_porcelain.
Proof. intros w v w' H. discriminate H. Qed.

Lemma returns_write_file f c : returns_only P (write_file f c).
Proof. intros w v w' H. discriminate H. Qed.

Lemma returns_read_file f : returns_only P (read_file f).
Proof.
  intros w v w'. unfold read_file.
  destruct (files w !! _); intros H; discriminate H.
Qed.

End Returns.

Create HintDb returns.

#[export] Hint Resolve returns_ret returns_parser_error returns_raise
  returns_or_raise returns_call returns_emit returns_get_world returns_chdir
  returns_isfile returns_set_git returns_git_porcelain returns_write_file
  returns_read_file : returns.

Ltac returns_step :=
  match goal with
  | |- returns_only _ (bind _ _) => apply returns_bind; [|intros ?]
  | |- returns_only _ (when _ _) => apply returns_when
  | |- returns_only _ (for_each _ _) => apply returns_for_each; intros ?
  | |- returns_only _ (logger _ _ _) => apply returns_emit
  | |- returns_only _ (print _) => apply returns_emit
  | |- returns_only _ (return_ _) =>
      apply returns_return; unfold zero_or_one; tauto
  | |- returns_only _ (if ?b then _ else _) => destruct b
  | |- returns_only _ (match ?x with _ => _ end) => destruct x
  | |- returns_only _ (let '(_, _) := ?x in _) => destruct x
  | |- _ => solve [auto with returns]
  end.

Ltac returns_tac := repeat returns_step.

Section Status.
Context {E : Externals}.

Lemma bump_returns args : returns_only zero_or_one (_bump args).
Proof.
  unfold _bump, tagging, bump_rewritten, rewrite_ref, bump_asserted,
    bump_admitted, bump_versioned, new_version_of, bump_checked, bump_collect,
    _report_conflict, _load_subject, _status, _run_checks, _git_add, _git_commit,
    _git_tag.
  returns_tac.
Qed.

Lemma checks_returns args : returns_only zero_or_one (_checks args).
Proof.
  unfold _checks. apply returns_bind; [unfold _load_subject; returns_tac|].
  intros subject w v w' H.
  destruct (run_checks_returns subject (ChecksArgs.treat_warnings_as_errors args) w)
    as (evs & Hrun & _).
  rewrite (bind_Ok _ _ _ _ _ Hrun) in H. injection H as <- _.
  unfold zero_or_one. case_bool_decide; tauto.
Qed.

Lemma publish_returns args : returns_only zero_or_one (_publish args).
Proof.
  unfold _publish. apply returns_bind; [unfold _load_subject; returns_tac|].
  intros subject. apply returns_bind; [returns_tac|]. intros _.
  apply returns_bind; [returns_tac|]. intros publishers.
  apply returns_bind; [returns_tac|]. intros _ w v w' H.
  destruct (run_publishers_all args (get_build_targets subject) publishers 0 w)
    as (w1 & Hrun & _).
  rewrite (bind_Ok _ _ _ _ _ Hrun) in H.
  unfold bind, logger, emit, return_, stop in H. injection H as <- _.
  unfold zero_or_one. destruct (forallb _ _); tauto.
Qed.

Lemma exit_code_of {A} (m : M A) w :
  returns_only zero_or_one m ->
  exit_code (fst (m w)) = 0 \/ exit_code (fst (m w)) = 1
  \/ exit_code (fst (m w)) = 2.
Proof.
  intros H. destruct (m w) as [[a|[v|msg|e]] w'] eqn:Hrun; simpl; try tauto.
  destruct (H _ _ _ Hrun) as [->| ->]; tauto.
Qed.

(** X8. The exit status of [shore bump], [shore checks] and
    [shore publish] is 0, 1 or 2, whatever the arguments and the directory:
    the commands return 0 or 1, a parser usage error exits with 2 and an
    exception with 1. *)
Theorem exit_status_is_0_1_or_2 :
  (forall args w, exit_code (fst (_bump args w)) ∈ [0; 1; 2])
  /\ (forall args w, exit_code (fst (_checks args w)) ∈ [0; 1; 2])
  /\ (forall args w, exit_code (fst (_publish args w)) ∈ [0; 1; 2]).
Proof.
  repeat split; intros args w; rewrite !elem_of_cons.
  - destruct (exit_code_of (_bump args) w (bump_returns args)) as [H|[H|H]]; tauto.
  - destruct (exit_code_of (_checks args) w (checks_returns args)) as [H|[H|H]]; tauto.
  - destruct (exit_code_of (_publish args) w (publish_returns args)) as [H|[H|H]]; tauto.
Qed.

End Status.

End ExitStatus.

(** ** More on the checks and on [shore publish] *)

Module CommandSpec.
Import Py Shore Rules Effects PyFacts ShoreFacts PublishSpec EffectFacts BumpEffects.

Section Commands.
Context {E : Externals}.



(** X10. [_run_checks] only reports: it always comes back to its caller,
    with 0 when no check is triggered and 1 otherwise; it prints one line
    for each check, in the order of the subjects and their plugins, and
    leaves the working directory, the files and the repository as they
    were. *)
Theorem run_checks_only_reports subject treat_warnings_as_errors w :
  let checks := concat (_run_for_subject subject _collect_checks) in
  exists evs,
    _run_checks subject treat_warnings_as_errors w
    = (Ok (Some (if bool_decide (checks = []) then 0 else 1)),
       mkWorld (cwd w) (files w) (git w) (output w ++ evs))
    /\ printed evs = map check_line checks.
Proof. apply run_checks_returns. Qed.

(** *** The builds a publisher requires *)

Lemma set_keys {V} (k : string) (v : V) (d : PyDict.dict V) :
  PyDict.keys (PyDict.set k v d)
  = if bool_decide (k ∈ PyDict.keys d) then PyDict.keys d else PyDict.keys d ++ [k].
Proof.
  induction d as [|[k' v'] d IH]; simpl; [reflexivity|].
  destruct (String.eqb_spec k' k) as [->|Hne]; simpl.
  - rewrite bool_decide_eq_true_2 by left. reflexivity.
  - rewrite IH. case_bool_decide as Hin.
    + rewrite bool_decide_eq_true_2 by now right. reflexivity.
    + rewrite bool_decide_eq_false_2; [reflexivity|].
      intros [Heq|H]%elem_of_cons; [congruence | contradiction].
Qed.

Lemma set_items {V} (k : string) (v : V) (d : PyDict.dict V) (x : string * V) :
  x ∈ PyDict.set k v d -> x = (k, v) \/ x ∈ d.
Proof.
  induction d as [|[k' v'] d IH]; simpl.
  - intros ->%list_elem_of_singleton. now left.
  - destruct (String.eqb k' k).
    + intros [->|H]%elem_of_cons; [now left | right; now right].
    + intros [->|H]%elem_of_cons; [right; left|].
      destruct (IH H) as [->|Hd]; [now left | right; now right].
Qed.

Lemma update_keys {V} (e d : PyDict.dict V) :
  NoDup (PyDict.keys d) ->
  NoDup (PyDict.keys (PyDict.update d e))
  /\ forall k, k ∈ PyDict.keys (PyDict.update d e)
              <-> k ∈ PyDict.keys d \/ k ∈ PyDict.keys e.
Proof.
  unfold PyDict.update. revert d.
  induction e as [|[k v] e IH]; intros d Hnd; simpl.
  - split; [exact Hnd|]. intros k'. rewrite elem_of_nil. tauto.
  - assert (Hset : NoDup (PyDict.keys (PyDict.set k v d))
                   /\ forall k', k' ∈ PyDict.keys (PyDict.set k v d)
                                  <-> k' ∈ PyDict.keys d \/ k' = k).
    { rewrite set_keys. case_bool_decide as Hin.
      - split; [exact Hnd|]. intros k'. split; [tauto|]. now intros [H| ->].
      - split.
        + apply NoDup_app. split; [exact Hnd|]. split; [|apply NoDup_singleton].
          intros x Hx ->%list_elem_of_singleton. contradiction.
        + intros k'. rewrite elem_of_app, list_elem_of_singleton. tauto. }
    destruct Hset as [Hnd' Hmem]. destruct (IH _ Hnd') as [Hnd2 Hmem2].
    split; [exact Hnd2|]. intros k'. rewrite Hmem2, Hmem, elem_of_cons. tauto.
Qed.

Lemma update_items {V} (e d : PyDict.dict V) (x : string * V) :
  x ∈ PyDict.update d e -> x ∈ d \/ x ∈ e.
Proof.
  unfold PyDict.update. revert d.
  induction e as [|[k v] e IH]; intros d; simpl; [now left|].
  intros H. destruct (IH _ H) as [Hs|He]; [|right; now right].
  destruct (set_items _ _ _ _ Hs) as [->|Hd]; [right; left | now left].
Qed.

Lemma filter_targets_items {V} (targets : PyDict.dict V) target (x : string * V) :
  x ∈ _filter_targets targets target -> x ∈ targets.
Proof.
  unfold _filter_targets. rewrite !list_elem_of_In, filter_In. tauto.
Qed.

(** The loop over the selectors either gives the required builds, in the
    world it started in, or logs the first selector that selects nothing. *)
Lemma collect_required_cases builds selectors :
  forall required,
    (exists r, forall w, collect_required builds selectors required w = (Ok (Some r), w))
    \/ (exists selector,
          selector ∈ selectors /\ _filter_targets builds selector = []
          /\ forall w, collect_required builds selectors required w
                = (Ok None,
                   logged (Log LogError "selector '%s' could not be satisfied"
                             [selector]) w)).
Proof.
  induction selectors as [|selector rest IH]; intros required.
  - left. exists required. reflexivity.
  - cbn [collect_required].
    destruct (_filter_targets builds selector) as [|item items] eqn:Hsel.
    + right. exists selector. split; [left|]. split; [exact Hsel|]. reflexivity.
    + destruct (IH (PyDict.update required (item :: items)))
        as [[r Hr]|(sel & Hin & Hnone & Hrun)].
      * left. now exists r.
      * right. exists sel. split; [now right|]. now split.
Qed.

Lemma collect_required_unsatisfied builds selectors :
  (exists selector, selector ∈ selectors /\ _filter_targets builds selector = []) ->
  forall required, exists selector,
    forall w, collect_required builds selectors required w
      = (Ok None,
         logged (Log LogError "selector '%s' could not be satisfied" [selector]) w).
Proof.
  induction selectors as [|selector rest IH]; intros (sel & Hin & Hnone) required.
  - now apply elem_of_nil in Hin.
  - cbn [collect_required].
    destruct (_filter_targets builds selector) as [|item items] eqn:Hsel.
    + exists selector. reflexivity.
    + apply elem_of_cons in Hin as [->|Hin]; [congruence|].
      apply IH. eauto.
Qed.

Lemma collect_required_keys builds selectors :
  forall required r w w',
    collect_required builds selectors required w = (Ok (Some r), w') ->
    NoDup (PyDict.keys required) ->
    NoDup (PyDict.keys r)
    /\ (forall k, k ∈ PyDict.keys r
          <-> k ∈ PyDict.keys required
              \/ exists selector,
                   selector ∈ selectors
                   /\ k ∈ PyDict.keys (_filter_targets builds selector))
    /\ (forall x, x ∈ r -> x ∈ required \/ x ∈ builds).
Proof.
  induction selectors as [|selector rest IH]; intros required r w w' Hrun Hnd.
  - injection Hrun as <- <-. split; [exact Hnd|]. split; [|now left].
    intros k. split; [now left|]. intros [H|(sel & Hin & _)]; [exact H|].
    now apply elem_of_nil in Hin.
  - cbn [collect_required] in Hrun.
    destruct (_filter_targets builds selector) as [|item items] eqn:Hsel.
    + unfold bind, logger, emit, ret in Hrun. discriminate Hrun.
    + destruct (update_keys (item :: items) required Hnd) as [Hnd' Hmem].
      destruct (IH _ _ _ _ Hrun Hnd') as (Hnd2 & Hmem2 & Hitems).
      split; [exact Hnd2|]. split.
      * intros k. rewrite Hmem2, Hmem. split.
        -- intros [[H|H]|(sel & Hin & Hk)].
           ++ now left.
           ++ right. exists selector. split; [left|]. now rewrite Hsel.
           ++ right. exists sel. split; [now right | exact Hk].
        -- intros [H|(sel & Hin & Hk)]; [left; now left|].
           apply elem_of_cons in Hin as [->|Hin].
           ++ left. right. now rewrite <- Hsel.
           ++ right. eauto.
      * intros x Hx. destruct (Hitems x Hx) as [Hu|Hb]; [|now right].
        destruct (update_items _ _ _ Hu) as [Hr|Hi]; [now left|].
        right. apply (filter_targets_items builds selector). now rewrite Hsel.
Qed.

(** X11. The builds a publisher requires are the build targets that its
    selectors select, each of them once even when several selectors select
    it, and each with the build the subject declares for it. *)
Theorem required_builds_are_the_selected_ones builds publisher w required w' :
  collect_required builds (get_build_selectors publisher) [] w
  = (Ok (Some required), w') ->
  NoDup (PyDict.keys required)
  /\ (forall target_id,
        target_id ∈ PyDict.keys required <-> selects builds publisher target_id)
  /\ (forall item, item ∈ required -> item ∈ builds).
Proof.
  intros Hrun.
  destruct (collect_required_keys _ _ _ _ _ _ Hrun) as (Hnd & Hmem & Hitems);
    [apply NoDup_nil_2|].
  split; [exact Hnd|]. split.
  - intros k. rewrite Hmem. unfold selects. split; [|now right].
    intros [H|H]; [now apply elem_of_nil in H | exact H].
  - intros x Hx. destruct (Hitems x Hx) as [H|H]; [now apply elem_of_nil in H | exact H].
Qed.

Lemma made_directories_app (l l' : list Event) :
  made_directories (l ++ l') = made_directories l ++ made_directories l'.
Proof. unfold made_directories. apply omap_app. Qed.

(** X12. A publisher with a selector that selects no build target fails
    before anything is built or published: it answers [False], and the
    files, the repository and the build directory are as they were. *)
Theorem unsatisfied_selector_builds_nothing args builds name_ publisher w :
  (exists selector,
     selector ∈ get_build_selectors publisher
     /\ _filter_targets builds selector = []) ->
  exists w',
    _run_publisher args builds name_ publisher w = (Ok false, w')
    /\ files w' = files w /\ git w' = git w
    /\ made_directories (output w') = made_directories (output w).
Proof.
  intros Hnone.
  destruct (collect_required_unsatisfied builds _ Hnone []) as [selector Hrun].
  eexists. split.
  - unfold _run_publisher, try_except, publisher_body.
    unfold bind at 1, logger at 1, emit at 1. unfold bind at 1.
    rewrite Hrun. reflexivity.
  - unfold logged. cbn [files git output].
    rewrite !made_directories_app. simpl. now rewrite !app_nil_r.
Qed.

Lemma load_subject_world w : snd (_load_subject w) = w.
Proof.
  unfold _load_subject, bind, isfile, get_world. cbn iota beta.
  destruct (bool_decide _), (bool_decide _); reflexivity.
Qed.

(** X13. [shore publish] refuses a subject that is marked private, and a
    target argument that matches no publish target: it returns 1, runs no
    publisher, and the files and the repository are as they were. *)
Theorem publish_refused args w subject :
  fst (_load_subject w) = Ok subject ->
  get_private subject = true
  \/ (truthy (PublishArgs.target args) = true
      /\ selected_publishers args subject = []) ->
  exists w',
    _publish args w = (Stop (Return (Some 1)), w')
    /\ files w' = files w /\ git w' = git w
    /\ attempts (output w') = attempts (output w).
Proof.
  intros Hload Hcase.
  assert (Hload' : _load_subject w = (Ok subject, w)).
  { pose proof (load_subject_world w) as Hw.
    destruct (_load_subject w) as [o w0]. simpl in *. congruence. }
  unfold _publish. rewrite (bind_Ok _ _ _ _ _ Hload').
  destruct (get_private subject) eqn:Hprivate.
  - eexists. split; [reflexivity|]. unfold logged. cbn [files git output].
    repeat split. rewrite attempts_app. simpl. now rewrite app_nil_r.
  - destruct Hcase as [Hcase|[Htarget Hnone]]; [discriminate Hcase|].
    unfold selected_publishers in Hnone. rewrite Htarget in Hnone |- *.
    unfold when at 1, bind at 1, ret at 1. rewrite Hnone.
    eexists. split; [reflexivity|]. cbn [files git output].
    repeat split. rewrite attempts_app. simpl. now rewrite app_nil_r.
Qed.

(** With [--reuse] and every artifact in the build directory, the loop
    over the required builds only logs. *)
Lemma reuse_loop args (required : PyDict.dict Build) :
  PublishArgs.reuse args = true ->
  forall w,
    (forall item, item ∈ required -> artifacts_present args w (snd item)) ->
    exists evs,
      for_each required (fun item =>
        let '(target_id, b) := item in
        bind (if PublishArgs.reuse args then
                bind (_needs_build args b) (fun needs => ret (negb needs))
              else ret false)
          (fun skip : bool =>
             if skip then
               logger LogInfo "skipping target %s" [colored target_id (Some "blue")]
             else
               bind (logger LogInfo "building target %s"
                       [colored target_id (Some "blue")])
                 (fun _ => bind (emit (Makedirs (PublishArgs.build_dir args)))
                    (fun _ => run_build b (PublishArgs.build_dir args))))) w
      = (Ok tt, mkWorld (cwd w) (files w) (git w) (output w ++ evs))
      /\ made_directories evs = [].
Proof.
  intros Hreuse. induction required as [|[target_id b] rest IH]; intros w Hall.
  - exists []. simpl. rewrite app_nil_r. now destruct w.
  - assert (Hneeds : _needs_build args b w = (Ok false, w)).
    { unfold _needs_build. f_equal. f_equal.
      apply not_true_is_false. intros Hex.
      apply existsb_exists in Hex as (f & Hf & Hmiss).
      assert (Hb : artifacts_present args w b)
        by (apply (Hall (target_id, b)); left).
      rewrite <- list_elem_of_In in Hf.
      rewrite (bool_decide_eq_true_2 _ (Hb f Hf)) in Hmiss. discriminate Hmiss. }
    cbn [for_each]. unfold bind at 1. rewrite Hreuse.
    unfold bind at 1. unfold bind at 1. rewrite Hneeds.
    unfold ret at 1. cbn [negb]. unfold logger at 1, emit at 1.
    match goal with |- context [for_each rest ?f ?w1] =>
      destruct (IH w1) as (evs & Hrun & Hmade) end.
    { intros item Hitem. apply (Hall item). now right. }
    rewrite Hreuse in Hrun. rewrite Hrun. cbn [cwd files git output].
    eexists. split; [now rewrite <- app_assoc|].
    rewrite made_directories_app. simpl. exact Hmade.
Qed.

(** X14. With [--reuse], a publisher whose required builds all have their
    artifacts in the build directory builds nothing: no directory is made,
    and the publisher is given the files as they were; its answer is
    whether the publishing completed. *)
Theorem reuse_skips_present_builds args builds name_ publisher w required :
  PublishArgs.reuse args = true ->
  fst (collect_required builds (get_build_selectors publisher) [] w)
  = Ok (Some required) ->
  (forall item, item ∈ required -> artifacts_present args w (snd item)) ->
  let published :=
    publish publisher (PyDict.values required) (PublishArgs.test args)
      (PublishArgs.build_dir args) (files w) in
  exists w',
    _run_publisher args builds name_ publisher w = (Ok (fst published), w')
    /\ files w' = snd published /\ git w' = git w
    /\ made_directories (output w') = made_directories (output w).
Proof.
  intros Hreuse Hreq Hall published.
  destruct (collect_required_cases builds (get_build_selectors publisher) [])
    as [[r Hr]|(sel & _ & _ & Hr)]; rewrite Hr in Hreq; [|discriminate Hreq].
  injection Hreq as ->.
  set (w0 := logged (Log LogInfo "collecting builds for '%s' ..." [name_]) w).
  destruct (reuse_loop args required Hreuse w0) as (evs & Hloop & Hmade).
  { intros item Hitem. exact (Hall item Hitem). }
  assert (Hbody : publisher_body args builds publisher w0
    = (if fst published then Ok true else Stop (Raise (Exception "publish")),
       mkWorld (cwd w) (snd published) (git w) (output w0 ++ evs))).
  { unfold publisher_body. rewrite (bind_Ok _ _ _ _ _ (Hr w0)). cbn iota beta.
    rewrite (bind_Ok _ _ _ _ _ Hloop).
    unfold bind, run_publish. cbn [cwd files git output w0 logged].
    fold published. now destruct published as [[|] fs]. }
  change (_run_publisher args builds name_ publisher)
    with (try_except
            (bind (logger LogInfo "collecting builds for '%s' ..." [name_])
                  (fun _ => publisher_body args builds publisher))
            (bind (logger LogException "error while running publisher '%s'"
                     [name_])
                  (fun _ => ret false))).
  unfold try_except. unfold bind at 1, logger at 1, emit at 1.
  change (mkWorld (cwd w) (files w) (git w)
            (output w ++ [Log LogInfo "collecting builds for '%s' ..." [name_]]))
    with w0.
  rewrite Hbody. destruct (fst published).
  - eexists. split; [reflexivity|]. cbn [files git output w0 logged]. repeat split.
    rewrite !made_directories_app, Hmade. simpl. now rewrite !app_nil_r.
  - eexists. split; [reflexivity|]. cbn [files git output w0 logged]. repeat split.
    rewrite !made_directories_app, Hmade. simpl. now rewrite !app_nil_r.
Qed.

End Commands.

(** *** Target selection *)

Lemma prefix_app (p r : string) : String.prefix p (p +:+ r) = true.
Proof.
  induction p as [|c p IH]; [now destruct r|].
  rewrite app_cons. simpl. destruct (ascii_dec c c); [exact IH | congruence].
Qed.

Lemma prefix_inv (p s : string) :
  String.prefix p s = true -> exists r, s = p +:+ r.
Proof.
  revert s. induction p as [|c p IH]; intros s H.
  - exists s. reflexivity.
  - destruct s as [|c' s]; simpl in H; [discriminate H|].
    destruct (ascii_dec c c') as [->|]; [|discriminate H].
    destruct (IH s H) as [r ->]. exists r. now rewrite app_cons.
Qed.

Lemma filter_filter_imp {A} (f g : A -> bool) (l : list A) :
  (forall x, g x = true -> f x = true) ->
  List.filter g (List.filter f l) = List.filter g l.
Proof.
  intros Himp. induction l as [|x l IH]; simpl; [reflexivity|].
  destruct (f x) eqn:Hf; simpl.
  - destruct (g x); now rewrite IH.
  - destruct (g x) eqn:Hg; [|exact IH].
    apply Himp in Hg. congruence.
Qed.

(** X15. A target argument selects the targets whose id is the argument
    or starts with the argument and a colon, and no other: a target whose
    id only starts with the argument is not selected. Selecting again by
    the same argument changes nothing, and selecting by [t] and then by the
    more specific [t:x] gives what selecting by [t:x] gives. *)
Theorem filter_targets_selects {V} (targets : PyDict.dict V) (t x : string) :
  (forall k v, (k, v) ∈ _filter_targets targets t
     <-> (k, v) ∈ targets /\ (k = t \/ exists r, k = t +:+ ":" +:+ r))
  /\ _filter_targets (_filter_targets targets t) t = _filter_targets targets t
  /\ _filter_targets (_filter_targets targets t) (t +:+ ":" +:+ x)
     = _filter_targets targets (t +:+ ":" +:+ x).
Proof.
  split; [|split].
  - intros k v. unfold _filter_targets, startswith.
    rewrite !list_elem_of_In, filter_In. cbn [fst].
    rewrite orb_true_iff. split; intros [Hin Hk]; (split; [exact Hin|]).
    + destruct Hk as [Hk|Hk].
      * left. symmetry. now apply String.eqb_eq.
      * right. destruct (prefix_inv _ _ Hk) as [r ->]. exists r.
        apply append_assoc.
    + destruct Hk as [->|[r ->]].
      * left. apply String.eqb_refl.
      * right. rewrite <- append_assoc. apply prefix_app.
  - unfold _filter_targets. apply filter_filter_imp. tauto.
  - unfold _filter_targets, startswith. apply filter_filter_imp.
    intros [k v]. cbn [fst]. rewrite !orb_true_iff. intros [Hk|Hk]; right.
    + apply String.eqb_eq in Hk as <-. rewrite <- append_assoc. apply prefix_app.
    + destruct (prefix_inv _ _ Hk) as [r ->].
      rewrite !append_assoc. rewrite <- (append_assoc t ":"). apply prefix_app.
Qed.

End CommandSpec.

(** ** [shore build] *)

Module BuildSpec.
Import Py Shore Rules Effects ShoreCommands PyFacts ShoreFacts EffectFacts
  BumpEffects CommandSpec.

Section Build.
Context {E : Externals}.

(** X16. [shore build] builds nothing. When the arguments select at
    least one build target, the command reads [args.directory], which the
    namespace of [build] does not have (the option is [--build-dir]): it
    raises [AttributeError] before a directory is made or a target built and
    exits with 1. With a target argument that matches nothing it returns 1,
    and with no build target at all it returns 0. The files and the
    repository are as they were in every case. *)
Theorem build_reads_missing_attribute args w subject :
  fst (_load_subject w) = Ok subject ->
  exists w',
    _build args w
    = (match selected_builds args subject with
       | [] => Stop (Return (Some (if truthy (BuildArgs.target args) then 1 else 0)))
       | _ :: _ =>
           Stop (Raise (Exception
             "AttributeError: 'Namespace' object has no attribute 'directory'"))
       end, w')
    /\ files w' = files w /\ git w' = git w
    /\ made_directories (output w') = made_directories (output w).
Proof.
  intros Hload.
  assert (Hload' : _load_subject w = (Ok subject, w)).
  { pose proof (load_subject_world w) as Hw.
    destruct (_load_subject w) as [o w0]. simpl in *. congruence. }
  unfold _build, selected_builds. rewrite (bind_Ok _ _ _ _ _ Hload').
  destruct (truthy (BuildArgs.target args)).
  - destruct (_filter_targets _ _) as [|item items].
    + eexists. split; [reflexivity|]. cbn [files git output]. repeat split.
      rewrite made_directories_app. simpl. now rewrite app_nil_r.
    + eexists. split; [reflexivity|]. now repeat split.
  - destruct (get_build_targets subject) as [|item items].
    + eexists. split; [reflexivity|]. cbn [files git output]. repeat split.
      rewrite made_directories_app. simpl. now rewrite app_nil_r.
    + eexists. split; [reflexivity|]. now repeat split.
Qed.

End Build.

(** *** [shore verify] *)

Section Verify.
Context {E : Externals} {R : Rendering}.

(** A loop whose body only logs goes through and only adds to the
    output. *)
Lemma for_each_logs {A} (l : list A) (body : A -> M unit) :
  (forall x w, exists e, body x w = (Ok tt, logged e w)) ->
  forall w, exists evs,
    for_each l body w
    = (Ok tt, mkWorld (cwd w) (files w) (git w) (output w ++ evs)).
Proof.
  intros Hbody. induction l as [|x l IH]; intros w.
  - exists []. simpl. rewrite app_nil_r. now destruct w.
  - destruct (Hbody x w) as [e He]. destruct (IH (logged e w)) as [evs Hrest].
    exists (e :: evs). cbn [for_each]. unfold bind. rewrite He, Hrest.
    unfold logged. cbn [cwd files git output]. now rewrite <- app_assoc.
Qed.

Lemma tag_matcher_packages tag (subject m : Subject Version) :
  In m (concat (_run_for_subject subject (_tag_matcher tag))) ->
  exists p, m = IsPackage p /\ pkg_get_tag p (pkg_version p) = tag.
Proof.
  unfold _run_for_subject. intros Hm. apply in_concat in Hm as (ms & Hms & Hm).
  apply in_map_iff in Hms as (s & <- & _).
  destruct s as [p|mono]; simpl in Hm; [|destruct Hm].
  destruct (String.eqb_spec (pkg_get_tag p (pkg_version p)) tag) as [Heq|];
    [|destruct Hm].
  destruct Hm as [<-|[]]. eauto.
Qed.

(** X17. [shore verify] changes nothing and returns 0 exactly when no
    rendered file is missing or differs from what is on disk and, with
    [--tag], exactly one package has the tag for its version. A monorepo
    never matches a tag itself: with [--tag], a monorepo none of whose
    packages has the tag fails the verification. *)
Theorem verify_status args w subject :
  fst (_load_subject w) = Ok subject ->
  let stale := concat (_run_for_subject subject (_virtual_update w)) in
  let matches :=
    concat (_run_for_subject subject
              (_tag_matcher (default "" (VerifyArgs.tag args)))) in
  exists w',
    _verify args w
    = (Stop (Return (Some
         (if bool_decide (stale = []
                          /\ (truthy (VerifyArgs.tag args) = true ->
                              List.length matches = 1%nat))
          then 0 else 1))), w')
    /\ files w' = files w /\ git w' = git w
    /\ (forall m, In m matches ->
          exists p, m = IsPackage p
                    /\ pkg_get_tag p (pkg_version p)
                       = default "" (VerifyArgs.tag args)).
Proof.
  intros Hload stale matches.
  assert (Hload' : _load_subject w = (Ok subject, w)).
  { pose proof (load_subject_world w) as Hw.
    destruct (_load_subject w) as [o w0]. simpl in *. congruence. }
  set (s1 := if bool_decide (stale = []) then 0 else 1).
  assert (Hfirst : exists w1,
    (match stale with
     | _ :: _ =>
         bind (logger LogWarning "%s file(s) would be changed by an update."
                 [pretty (llen stale)]) (fun _ => ret 1)
     | [] =>
         bind (logger LogInfo "no files would be changed by an update." [])
              (fun _ => ret 0)
     end) w = (Ok s1, w1)
    /\ files w1 = files w /\ git w1 = git w).
  { unfold s1. destruct stale; eexists; (split; [reflexivity | now split]). }
  destruct Hfirst as (w1 & Hfirst & Hf1 & Hg1).
  destruct (for_each_logs stale
              (fun file => bind get_world (fun w0 =>
                 logger LogWarning "  %s" [relpath (cwd w0) file]))
              ltac:(intros x w0; eexists; reflexivity) w1) as [evs2 Hloop].
  set (w2 := mkWorld (cwd w1) (files w1) (git w1) (output w1 ++ evs2)) in Hloop.
  set (s2 := if bool_decide (truthy (VerifyArgs.tag args) = true ->
                             List.length matches = 1%nat)
             then s1 else 1).
  assert (Hsecond : exists w3,
    (if truthy (VerifyArgs.tag args) then
       if llen matches =? 0 then
         bind (logger LogError "unexpected tag: %s" [default "" (VerifyArgs.tag args)])
              (fun _ => ret 1)
       else if llen matches >? 1 then
         bind (logger LogError "tag matches multiple subjects: %s"
                 [default "" (VerifyArgs.tag args)])
              (fun _ => bind (for_each matches
                                (fun m => logger LogError "  %s" [name m]))
                             (fun _ => ret 1))
       else
         bind (logger LogInfo "tag %s matches %s"
                 [default "" (VerifyArgs.tag args); name (nth 0 matches subject)])
              (fun _ => ret s1)
     else ret s1) w2 = (Ok s2, w3)
    /\ files w3 = files w2 /\ git w3 = git w2).
  { unfold s2, llen. destruct (truthy (VerifyArgs.tag args)).
    - destruct (Z.eqb_spec (Z.of_nat (List.length matches)) 0) as [Hz|Hz].
      + rewrite bool_decide_eq_false_2 by (intros H; specialize (H eq_refl); lia).
        eexists. split; [reflexivity | now split].
      + destruct (Z.gtb_spec (Z.of_nat (List.length matches)) 1) as [Hgt|Hle].
        * rewrite bool_decide_eq_false_2 by (intros H; specialize (H eq_refl); lia).
          unfold bind at 1, logger at 1, emit at 1. unfold bind at 1.
          change (for_each matches (fun m => logger LogError "  %s" [name m]))
            with (for_each matches (fun m => emit (Log LogError "  %s" [name m]))).
          rewrite for_each_emits. eexists. split; [reflexivity | now split].
        * rewrite bool_decide_eq_true_2 by (intros _; lia).
          eexists. split; [reflexivity | now split].
    - rewrite bool_decide_eq_true_2 by discriminate.
      eexists. split; [reflexivity | now split]. }
  destruct Hsecond as (w3 & Hsecond & Hf3 & Hg3).
  exists w3. split; [|split; [|split]].
  - unfold _verify. rewrite (bind_Ok _ _ _ _ _ Hload').
    unfold bind at 1, get_world at 1. fold stale.
    rewrite (bind_Ok _ _ _ _ _ Hfirst). cbn beta.
    rewrite (bind_Ok _ _ _ _ _ Hloop). cbn beta. fold matches.
    rewrite (bind_Ok _ _ _ _ _ Hsecond).
    unfold return_, stop. f_equal. f_equal. f_equal. f_equal. unfold s2, s1.
    repeat case_bool_decide; try reflexivity; tauto.
  - rewrite Hf3. unfold w2. cbn [files]. exact Hf1.
  - rewrite Hg3. unfold w2. cbn [git]. exact Hg1.
  - intros m Hm. exact (tag_matcher_packages _ _ _ Hm).
Qed.

End Verify.

End BuildSpec.

(** ** More on [slam test] *)

Module TestSpec.
Import Py Slam SlamPlugin SlamSpec.

Section TestCommand.
Context {P : Processes}.

Lemma select_all_fails self names :
  (exists a, a ∈ names /\ _select_tests self a = None) ->
  exists bad, select_all self names = inl bad /\ _select_tests self bad = None.
Proof.
  induction names as [|a rest IH]; intros (b & Hin & Hnone).
  - now apply elem_of_nil in Hin.
  - simpl. destruct (_select_tests self a) as [ts|] eqn:Hsel.
    + apply elem_of_cons in Hin as [->|Hin]; [congruence|].
      destruct IH as (bad & -> & Hbad); [eauto|]. now exists bad.
    + now exists a.
Qed.

(** X18. [slam test] starts nothing when it cannot run what was asked:
    without configured tests, or when one of the names given matches no
    test, it writes one error line and returns 1; no process is started
    and the colour of the next runner is as before. *)
Theorem handle_refuses self s :
  tests self = []
  \/ (exists a, a ∈ argument_test self /\ _select_tests self a = None) ->
  exists msg,
    handle self s = (Returned 1, line_error msg "error" s)
    /\ spawned (io (snd (handle self s))) = spawned (io s)
    /\ _prev_color (snd (handle self s)) = _prev_color s.
Proof.
  intros Hcase.
  assert (Hrun : exists msg, handle self s = (Returned 1, line_error msg "error" s)).
  { unfold handle. destruct (tests self) as [|t ts] eqn:Htests; [eauto|].
    destruct Hcase as [Hnil|Hbad]; [discriminate Hnil|].
    unfold selected. destruct (argument_test self) as [|a rest] eqn:Hargs.
    - destruct Hbad as (b & Hin & _). now apply elem_of_nil in Hin.
    - destruct (select_all_fails self (a :: rest) Hbad) as (bad & -> & _). eauto. }
  destruct Hrun as [msg Hrun]. exists msg. rewrite Hrun. split; [reflexivity|].
  unfold line_error, emit. cbn [snd io _prev_color]. rewrite spawned_app. simpl.
  now rewrite app_nil_r.
Qed.

Lemma run_prev_color (self : TestRunner) s :
  _prev_color (snd (run self s)) = Some (next_color (_prev_color s)).
Proof.
  unfold run. cbn [env].
  destruct (get_terminal_size (env s)) as [[cols rows]|].
  - destruct (pty_spawn _ _ _ _) as [[lines status] e].
    destruct status; cbn [snd _prev_color];
      now rewrite (proj2 (proj2 (write_lines_spawned _ _ _ _ _))).
  - destruct (popen _ _ _) as [[lines status] e].
    destruct status; cbn [snd _prev_color];
      now rewrite (proj2 (proj2 (write_lines_spawned _ _ _ _ _))).
Qed.

(** X19. The runners take their colours in turn. Starting from no colour
    or from one of the four colours, a runner takes the colour after the
    previous one, which is one of the four and differs from the previous
    one, and leaves it as the previous colour; after four runners the
    colours repeat. The look-up of the previous colour in [_colors]
    therefore never fails. *)
Theorem colors_rotate (self : TestRunner) s :
  known_color (_prev_color s) ->
  let color := next_color (_prev_color s) in
  _prev_color (snd (run self s)) = Some color
  /\ known_color (Some color)
  /\ Some color <> _prev_color s
  /\ next_color (Some (next_color (Some (next_color (Some
       (next_color (Some color))))))) = color.
Proof.
  intros Hknown. cbn zeta. split; [apply run_prev_color|].
  destruct (_prev_color s) as [c|]; simpl in Hknown.
  - unfold _colors in Hknown.
    repeat (apply elem_of_cons in Hknown as [->|Hknown]);
      [| | | |now apply elem_of_nil in Hknown];
      (split; [apply list_elem_of_In; cbn; auto 10|]);
      (split; [discriminate | reflexivity]).
  - split; [apply list_elem_of_In; cbn; auto 10|].
    split; [discriminate | reflexivity].
Qed.

(** *** The tests the plugin loads *)

Lemma colon_split (a b x y : string) :
  colon_free a = true -> colon_free b = true ->
  a +:+ ":" +:+ x = b +:+ ":" +:+ y -> a = b /\ x = y.
Proof.
  revert b. induction a as [|c a IH]; intros [|c' b] Ha Hb Heq.
  - change (String ":" x = String ":" y) in Heq. now injection Heq as ->.
  - change (String ":" x = String c' (b +:+ ":" +:+ y)) in Heq.
    injection Heq as <- _. simpl in Hb. discriminate Hb.
  - change (String c (a +:+ ":" +:+ x) = String ":" y) in Heq.
    injection Heq as -> _. simpl in Ha. discriminate Ha.
  - change (String c (a +:+ ":" +:+ x) = String c' (b +:+ ":" +:+ y)) in Heq.
    injection Heq as -> Heq.
    simpl in Ha, Hb. apply andb_true_iff in Ha as [_ Ha], Hb as [_ Hb].
    destruct (IH b Ha Hb Heq) as [-> ->]. now split.
Qed.

Lemma load_configuration_elem projects cfg (t : Test) :
  In t (load_configuration projects cfg)
  <-> In (project t) projects /\ In (name t, command t) (cfg (project t)).
Proof.
  unfold load_configuration. rewrite in_flat_map. split.
  - intros (p & Hp & Ht). apply in_map_iff in Ht as ([k v] & <- & Hitem).
    now split.
  - intros [Hp Hitem]. exists (project t). split; [exact Hp|].
    apply in_map_iff. exists (name t, command t). split; [now destruct t | exact Hitem].
Qed.

Lemma dict_functional {V} (d : PyDict.dict V) k v1 v2 :
  NoDup (PyDict.keys d) -> In (k, v1) d -> In (k, v2) d -> v1 = v2.
Proof.
  induction d as [|[k' v'] d IH]; intros Hnd H1 H2; [destruct H1|].
  simpl in Hnd. apply NoDup_cons in Hnd as [Hfresh Hnd].
  assert (Hkey : forall v, In (k', v) d -> False).
  { intros v Hv. apply Hfresh. apply list_elem_of_In.
    change k' with (fst (k', v)). now apply in_map. }
  destruct H1 as [H1|H1], H2 as [H2|H2].
  - congruence.
  - injection H1 as -> ->. destruct (Hkey _ H2).
  - injection H2 as -> ->. destruct (Hkey _ H1).
  - now apply IH.
Qed.

Lemma In_remove_dups {A} `{EqDecision A} (l : list A) (x : A) :
  In x (remove_dups l) <-> In x l.
Proof. rewrite <- !list_elem_of_In. apply elem_of_remove_dups. Qed.

Lemma single_member {A} `{EqDecision A} (l : list A) (x y : A) :
  List.length (remove_dups l) = 1%nat -> In x l -> In y l -> x = y.
Proof.
  intros Hlen Hx Hy.
  destruct (remove_dups l) as [|a [|b r]] eqn:Heq; try discriminate Hlen.
  apply (proj2 (In_remove_dups _ _)) in Hx, Hy.
  rewrite Heq in Hx, Hy. destruct Hx as [<-|[]], Hy as [<-|[]]. reflexivity.
Qed.

Lemma NoDup_map_inj_on {A B} (f : A -> B) (l : list A) :
  (forall x y, In x l -> In y l -> f x = f y -> x = y) ->
  NoDup l -> NoDup (map f l).
Proof.
  induction l as [|x l IH]; intros Hinj Hnd; simpl; [constructor|].
  apply NoDup_cons in Hnd as [Hfresh Hnd]. apply NoDup_cons. split.
  - intros Hin. apply list_elem_of_In, in_map_iff in Hin as (y & Heq & Hy).
    apply Hfresh. apply list_elem_of_In.
    rewrite (Hinj x y); [exact Hy | now left | now right | now symmetry].
  - apply IH; [|exact Hnd]. intros a b Ha Hb. apply Hinj; now right.
Qed.

Lemma select_tests_members self name_ ts t :
  _select_tests self name_ = Some ts -> In t ts -> In t (tests self).
Proof.
  unfold _select_tests.
  destruct (remove_dups _) as [|t0 l] eqn:Heq; [discriminate|].
  intros H Ht. injection H as <-. rewrite <- Heq in Ht.
  rewrite !In_remove_dups in Ht. now apply filter_In in Ht.
Qed.

Lemma select_all_members self names ts t :
  select_all self names = inr ts -> In t ts -> In t (tests self).
Proof.
  revert ts. induction names as [|a rest IH]; intros ts; simpl.
  - intros H. now injection H as <-.
  - destruct (_select_tests self a) as [sel|] eqn:Hsel; [|discriminate].
    destruct (select_all self rest) as [bad|more]; [discriminate|].
    intros H Ht. injection H as <-. apply in_app_or in Ht as [Ht|Ht].
    + exact (select_tests_members _ _ _ _ Hsel Ht).
    + now apply (IH more).
Qed.

(** The selected tests are configured tests, each of them once. *)
Lemma selected_members self tests_ :
  selected self = inr tests_ ->
  NoDup tests_ /\ forall t, In t tests_ -> In t (tests self).
Proof.
  unfold selected. destruct (argument_test self) as [|a rest].
  - intros H. injection H as <-. split; [apply NoDup_remove_dups|].
    intros t Ht. exact (proj1 (In_remove_dups _ _) Ht).
  - destruct (select_all self (a :: rest)) as [bad|ts] eqn:Hsel; [discriminate|].
    intros H. injection H as <-. split; [apply NoDup_remove_dups|].
    intros t Ht. apply (proj1 (In_remove_dups _ _)) in Ht.
    exact (select_all_members _ _ _ _ Hsel Ht).
Qed.

(** X20. The tests that the plugin loads are run under pairwise distinct
    keys. When the projects have distinct ids without a colon, and no
    project configures a test name twice, the results of any selection of
    [slam test] are stored under keys that differ from test to test: no
    result overwrites another. *)
Theorem loaded_tests_have_distinct_keys
    projects raw_test_config is_monorepo names no_prefix tests_ :
  NoDup (map id projects) ->
  (forall p, In p projects -> colon_free (id p) = true) ->
  (forall p, In p projects -> NoDup (PyDict.keys (raw_test_config p))) ->
  let self := activate (load_configuration projects raw_test_config)
                is_monorepo names no_prefix in
  selected self = inr tests_ ->
  NoDup (map test_id (tests self))
  /\ NoDup (map (result_key (single_project self)) tests_).
Proof.
  intros Hids Hcolon Hnames self Hsel.
  assert (Hsame : forall t1 t2,
    In t1 (tests self) -> In t2 (tests self) ->
    project t1 = project t2 -> name t1 = name t2 -> t1 = t2).
  { intros [p1 n1 c1] [p2 n2 c2] H1 H2. cbn [project name]. intros <- <-.
    apply load_configuration_elem in H1 as [Hp H1], H2 as [_ H2].
    cbn [project name command] in *.
    now rewrite (dict_functional _ _ _ _ (Hnames _ Hp) H1 H2). }
  assert (Hproject : forall p1 p2,
    In p1 projects -> In p2 projects -> id p1 = id p2 -> p1 = p2).
  { clear -Hids. induction projects as [|p l IH]; intros p1 p2 H1 H2 Heq;
      [destruct H1|].
    simpl in Hids. apply NoDup_cons in Hids as [Hfresh Hnd].
    assert (Hno : forall q, In q l -> id q <> id p).
    { intros q Hq Hid. apply Hfresh. rewrite <- Hid.
      apply list_elem_of_In. now apply in_map. }
    destruct H1 as [<-|H1], H2 as [<-|H2].
    - reflexivity.
    - symmetry in Heq. destruct (Hno _ H2 Heq).
    - destruct (Hno _ H1 Heq).
    - now apply IH. }
  assert (Hid : forall t1 t2,
    In t1 (tests self) -> In t2 (tests self) -> test_id t1 = test_id t2 -> t1 = t2).
  { intros t1 t2 H1 H2 Heq.
    pose proof (proj1 (load_configuration_elem _ _ _) H1) as [Hp1 _].
    pose proof (proj1 (load_configuration_elem _ _ _) H2) as [Hp2 _].
    unfold test_id in Heq.
    apply colon_split in Heq as [Hpid Hname]; [|now apply Hcolon..].
    apply Hsame; [exact H1 | exact H2 | now apply Hproject | exact Hname]. }
  assert (Hnd : NoDup (tests self)).
  { cbn [self activate tests]. unfold load_configuration.
    clear -Hids Hnames. induction projects as [|p l IH]; [constructor|].
    simpl in Hids. apply NoDup_cons in Hids as [Hfresh Hnd]. simpl.
    apply NoDup_app. split; [|split].
    - apply NoDup_map_inj_on.
      + intros [k1 v1] [k2 v2] _ _ Heq. now injection Heq as -> ->.
      + assert (Hk : NoDup (PyDict.keys (raw_test_config p)))
          by (apply Hnames; now left).
        clear -Hk. induction (raw_test_config p) as [|[k v] d IHd]; [constructor|].
        simpl in Hk. apply NoDup_cons in Hk as [Hfresh Hk]. apply NoDup_cons.
        split; [|now apply IHd]. intros Hin. apply Hfresh.
        apply list_elem_of_In. apply list_elem_of_In in Hin.
        change k with (fst (k, v)). now apply in_map.
    - intros t Ht Ht'. apply list_elem_of_In in Ht, Ht'.
      apply in_map_iff in Ht as (item & <- & _).
      apply in_flat_map in Ht' as (q & Hq & Ht').
      apply in_map_iff in Ht' as (item' & Heq & _).
      apply Hfresh. apply list_elem_of_In.
      apply (f_equal project) in Heq. cbn [project] in Heq. subst q.
      now apply in_map.
    - apply IH; [exact Hnd|]. intros q Hq. apply Hnames. now right. }
  destruct (selected_members self tests_ Hsel) as [Hnd_sel Hsub].
  split.
  - apply NoDup_map_inj_on; [exact Hid | exact Hnd].
  - apply NoDup_map_inj_on; [|exact Hnd_sel].
    intros t1 t2 H1 H2. apply Hsub in H1, H2. unfold result_key.
    destruct (single_project self) eqn:Hsp.
    + intros Hname. apply Hsame; [exact H1 | exact H2 | | exact Hname].
      unfold single_project in Hsp. apply bool_decide_eq_true in Hsp.
      apply (single_member (map project (tests self))); [exact Hsp | |];
        now apply in_map.
    + now apply Hid.
Qed.

(** *** Results stored under the same key *)

Lemma set_In {V} (k0 : string) (c0 : V) (d : PyDict.dict V) k c :
  NoDup (PyDict.keys d) ->
  In (k, c) (PyDict.set k0 c0 d)
  <-> (k = k0 /\ c = c0) \/ (k <> k0 /\ In (k, c) d).
Proof.
  induction d as [|[k' v'] d IH]; intros Hnd; simpl.
  - split.
    + intros [H|[]]. injection H as <- <-. now left.
    + intros [[-> ->]|[_ []]]. now left.
  - simpl in Hnd. apply NoDup_cons in Hnd as [Hfresh Hnd].
    assert (Hkey : forall v, In (k', v) d -> False).
    { intros v Hv. apply Hfresh. apply list_elem_of_In.
      change k' with (fst (k', v)). now apply in_map. }
    destruct (String.eqb_spec k' k0) as [->|Hne]; simpl.
    + split.
      * intros [H|H]; [injection H as <- <-; now left|].
        right. split; [|now right]. intros ->. exact (Hkey _ H).
      * intros [[-> ->]|[Hk [H|H]]]; [now left | | now right].
        injection H as -> ->. congruence.
    + rewrite (IH Hnd). split.
      * intros [H|[H|[Hk H]]].
        -- injection H as <- <-. right. split; [exact Hne | now left].
        -- now left.
        -- right. split; [exact Hk | now right].
      * intros [H|[Hk [H|H]]]; [right; now left | now left |].
        right. right. now split.
Qed.

Lemma set_NoDup {V} (k : string) (v : V) (d : PyDict.dict V) :
  NoDup (PyDict.keys d) -> NoDup (PyDict.keys (PyDict.set k v d)).
Proof.
  intros Hnd. rewrite CommandSpec.set_keys. case_bool_decide as Hin; [exact Hnd|].
  apply NoDup_app. split; [exact Hnd|]. split; [|apply NoDup_singleton].
  intros x Hx ->%list_elem_of_singleton. contradiction.
Qed.

(** After storing the codes in order, a key holds the code stored last
    under it. *)
Lemma fold_set_In (codes : PyDict.dict Z) :
  forall (d : PyDict.dict Z) k c,
    NoDup (PyDict.keys d) ->
    In (k, c) (fold_left (fun acc kv => PyDict.set (fst kv) (snd kv) acc) codes d)
    <-> (exists i, codes !! i = Some (k, c)
                   /\ last_of_its_key (PyDict.keys codes) i)
        \/ (In (k, c) d /\ ~ In k (PyDict.keys codes)).
Proof.
  induction codes as [|[k0 c0] codes IH]; intros d k c Hnd.
  - simpl. split; [intros H; right; tauto|].
    intros [(i & Hi & _)|[H _]]; [discriminate Hi | exact H].
  - cbn [fold_left fst snd]. rewrite (IH _ k c (set_NoDup k0 c0 d Hnd)).
    rewrite (set_In k0 c0 d k c Hnd). split.
    + intros [(i & Hi & Hlast)|[[[-> ->]|[Hk Hin]] Hnot]].
      * left. exists (S i). split; [exact Hi|].
        intros [|j] a b Ha Hb Hlt; [lia|]. simpl in Ha, Hb.
        apply (Hlast j a b Ha Hb). lia.
      * left. exists O. split; [reflexivity|].
        intros [|j] a b Ha Hb Hlt; [lia|]. simpl in Ha, Hb.
        injection Ha as <-. intros ->. apply Hnot.
        apply list_elem_of_In. now apply list_elem_of_lookup_2 in Hb.
      * right. split; [exact Hin|]. simpl. intros [Heq|H]; [congruence | tauto].
    + intros [(i & Hi & Hlast)|[Hin Hnot]].
      * destruct i as [|i].
        -- simpl in Hi. injection Hi as -> ->. right. split; [now left|].
           intros Hin. apply list_elem_of_In, list_elem_of_lookup_1 in Hin as [j Hj].
           exact (Hlast (S j) k k eq_refl Hj ltac:(lia) eq_refl).
        -- left. exists i. split; [exact Hi|].
           intros j a b Ha Hb Hlt. apply (Hlast (S j) a b Ha Hb). lia.
      * simpl in Hnot. right. split; [|tauto]. right. split; [|exact Hin].
        intros ->. apply Hnot. now left.
Qed.

Lemma run_tests_results sp nlp sorted_tests :
  exits_with_status ->
  forall results s,
    exists codes s',
      run_tests sp nlp sorted_tests results s
      = (inr (fold_left (fun acc kv => PyDict.set (fst kv) (snd kv) acc)
                codes results), s')
      /\ map (fun kv => (fst kv, Returned (snd kv))) codes
         = test_outcomes sp nlp sorted_tests s.
Proof.
  intros Hexit.
  induction sorted_tests as [|t rest IH]; intros results s; simpl.
  - now exists [], s.
  - destruct (run_returns (runner_of sp nlp t) s Hexit) as [code Hcode].
    destruct (run (runner_of sp nlp t) s) as [r s1]. cbn [fst snd] in *. subst r.
    destruct (IH (PyDict.set (result_key sp t) code results) s1)
      as (codes & s' & Hrun & Houtcomes).
    exists ((result_key sp t, code) :: codes), s'. split; [exact Hrun|].
    simpl. now rewrite Houtcomes.
Qed.




(** The status of the command is that of the results stored last. *)
Lemma handle_status_of_last self s tests_ :
  exits_with_status ->
  tests self <> [] ->
  selected self = inr tests_ ->
  let outcomes :=
    test_outcomes (single_project self) (no_line_prefix self tests_)
      (PyDict.sorted test_id tests_) s in
  fst (handle self s) = Returned 0
  <-> forall i kv,
        outcomes !! i = Some kv ->
        last_of_its_key (map fst outcomes) i ->
        succeeded (snd kv) = true.
Proof.
  intros Hexit Hne Hsel outcomes.
  pose proof (selected_nonempty _ _ Hne Hsel) as Hsome.
  pose proof (sorted_Permutation test_id tests_) as Hperm.
  destruct (run_tests_results (single_project self) (no_line_prefix self tests_)
              (PyDict.sorted test_id tests_) Hexit [] s)
    as (codes & s1 & Hrun & Houtcomes).
  fold outcomes in Houtcomes.
  set (results := fold_left (fun acc kv => PyDict.set (fst kv) (snd kv) acc)
                    codes []) in *.
  assert (Hkeys : map fst outcomes = PyDict.keys codes).
  { rewrite <- Houtcomes. unfold PyDict.keys. rewrite map_map. reflexivity. }
  assert (Hcodes : codes <> []).
  { intros ->. apply Hsome. apply Permutation_nil. rewrite <- Hperm.
    pose proof (test_outcomes_keys (single_project self)
                  (no_line_prefix self tests_) (PyDict.sorted test_id tests_) s)
      as Hk.
    fold outcomes in Hk. rewrite <- Houtcomes in Hk. simpl in Hk.
    now destruct (PyDict.sorted test_id tests_). }
  assert (Hin : forall k c, In (k, c) results
    <-> exists i, codes !! i = Some (k, c) /\ last_of_its_key (PyDict.keys codes) i).
  { intros k c. unfold results. rewrite fold_set_In by constructor.
    split; [|now left]. intros [H|[[] _]]. exact H. }
  assert (Hresults : results <> []).
  { destruct (lookup_lt_is_Some_2 codes (List.length codes - 1)) as [[k1 c1] Hi].
    { destruct codes; simpl; [congruence | lia]. }
    assert (Hlast : last_of_its_key (PyDict.keys codes) (List.length codes - 1)).
    { intros j a b Ha Hb Hlt. apply lookup_lt_Some in Hb.
      unfold PyDict.keys in Hb. rewrite length_map in Hb. lia. }
    intros Hnil. assert (Hmem : In (k1, c1) results) by (apply Hin; eauto).
    rewrite Hnil in Hmem. destruct Hmem. }
  assert (Hstatus : fst (handle self s) = Returned (if all_zero results then 0 else 1)).
  { unfold handle. destruct (tests self) as [|t0 ts0]; [congruence|].
    rewrite Hsel, Hrun. cbn [fst]. reflexivity. }
  rewrite Hstatus, (all_zero_nonempty _ Hresults). split.
  - intros Hzero i [k r] Hi Hlast.
    destruct (forallb _ results) eqn:Hall; [|discriminate Hzero].
    rewrite forallb_forall in Hall.
    rewrite <- Houtcomes in Hi. rewrite list_lookup_fmap in Hi.
    destruct (codes !! i) as [[k' c']|] eqn:Hci; [|discriminate Hi].
    injection Hi as <- <-. cbn [snd succeeded].
    apply (Hall (k', c')). apply Hin. exists i. split; [exact Hci|].
    now rewrite <- Hkeys.
  - intros Hall.
    assert (Hzero : forallb (fun o : string * Z => snd o =? 0) results = true).
    { apply forallb_forall. intros [k c] Hkc.
      apply Hin in Hkc as (i & Hi & Hlast).
      apply (Hall i (k, Returned c)).
      - rewrite <- Houtcomes, list_lookup_fmap, Hi. reflexivity.
      - now rewrite Hkeys. }
    now rewrite Hzero.
Qed.

(** X21. Whether the test keys are distinct or not, [slam test] returns 0
    exactly when, for every key, the test run last under that key returned
    0: a result stored under a key replaces the one stored before, so that
    the failure of a test is lost when a later test with the same key
    passes. *)
Theorem status_is_of_last_results self s tests_ :
  exits_with_status ->
  tests self <> [] ->
  selected self = inr tests_ ->
  let outcomes :=
    test_outcomes (single_project self) (no_line_prefix self tests_)
      (PyDict.sorted test_id tests_) s in
  fst (handle self s) = Returned 0
  <-> forall i kv,
        outcomes !! i = Some kv ->
        last_of_its_key (map fst outcomes) i ->
        succeeded (snd kv) = true.
Proof. apply handle_status_of_last. Qed.

(** *** The selection *)

Lemma select_tests_spec self name_ :
  match _select_tests self name_ with
  | Some ts =>
      forall t, In t ts <-> In t (tests self) /\ use_test self name_ t = true
  | None => forall t, In t (tests self) -> use_test self name_ t = false
  end.
Proof.
  unfold _select_tests. fold (use_test self name_).
  destruct (remove_dups (List.filter (use_test self name_) (tests self)))
    as [|t0 l] eqn:Heq.
  - intros t Ht. destruct (use_test self name_ t) eqn:Huse; [|reflexivity].
    assert (Hin : In t (remove_dups (List.filter (use_test self name_) (tests self)))).
    { apply In_remove_dups. apply filter_In. now split. }
    rewrite Heq in Hin. destruct Hin.
  - intros t. rewrite <- Heq, In_remove_dups, filter_In. reflexivity.
Qed.

Lemma select_all_spec self names :
  match select_all self names with
  | inr ts =>
      forall t, In t ts
        <-> In t (tests self)
            /\ exists a, In a names /\ use_test self a t = true
  | inl bad =>
      In bad names /\ forall t, In t (tests self) -> use_test self bad t = false
  end.
Proof.
  induction names as [|a rest IH]; simpl.
  - intros t. split; [intros [] | intros (_ & a & [] & _)].
  - pose proof (select_tests_spec self a) as Ha.
    destruct (_select_tests self a) as [sel|].
    + destruct (select_all self rest) as [bad|more].
      * destruct IH as [Hin Hbad]. split; [now right | exact Hbad].
      * intros t. rewrite in_app_iff, Ha, IH. split.
        -- intros [[Ht Huse]|(Ht & b & Hb & Huse)]; (split; [exact Ht|]).
           ++ exists a. split; [now left | exact Huse].
           ++ exists b. split; [now right | exact Huse].
        -- intros (Ht & b & [<-|Hb] & Huse); [left; now split|].
           right. split; [exact Ht|]. eauto.
    + split; [now left | exact Ha].
Qed.

(** X22. The tests that [slam test] runs are the configured tests that
    one of the given names selects, or all configured tests without a
    name, each of them once. A name selects by test name outside a
    monorepo; in a monorepo it selects by test id, by test name after a
    colon, or by project id. When a name selects nothing, it is the first
    such name that is reported. *)
Theorem selected_tests_spec self :
  match selected self with
  | inr tests_ =>
      NoDup tests_
      /\ forall t, In t tests_
           <-> In t (tests self)
               /\ (argument_test self = []
                   \/ exists a, In a (argument_test self)
                                /\ use_test self a t = true)
  | inl bad =>
      In bad (argument_test self)
      /\ forall t, In t (tests self) -> use_test self bad t = false
  end.
Proof.
  unfold selected. destruct (argument_test self) as [|a rest] eqn:Hargs.
  - split; [apply NoDup_remove_dups|]. intros t. rewrite In_remove_dups.
    split; [intros Ht; split; [exact Ht | now left] | tauto].
  - pose proof (select_all_spec self (a :: rest)) as Hall.
    destruct (select_all self (a :: rest)) as [bad|ts]; [exact Hall|].
    split; [apply NoDup_remove_dups|]. intros t. rewrite In_remove_dups, Hall.
    split.
    + intros [Ht Hsel]. split; [exact Ht | now right].
    + intros [Ht [Hnil|Hsel]]; [discriminate Hnil | now split].
Qed.

End TestCommand.

End TestSpec.

(** ** A failing target does not stop the others *)

Module TargetsSpec.
Import Py Shore Rules ShoreFacts PublishSpec Slam SlamPlugin SlamSpec TestSpec.





End TargetsSpec.

(** ** More on the wrapping of license texts *)

Module WrapSpec.
Import Py Licenses Wrapping PyFacts LicensesSpec.

Lemma sum_cons (x : Z) (l : list Z) : sum (x :: l) = x + sum l.
Proof. unfold sum. cbn [fold_left]. apply BumpSpec.sum_from. Qed.

Lemma split_cons (c a : ascii) (s : string) :
  split c (String a s)
  = if Ascii.eqb a c then "" :: split c s
    else match split c s with
         | w :: ws => String a w :: ws
         | [] => [String a ""]
         end.
Proof. reflexivity. Qed.

Lemma split_nonempty (c : ascii) (s : string) : split c s <> [].
Proof.
  induction s as [|a s IH]; [discriminate|]. rewrite split_cons.
  destruct (Ascii.eqb a c); [discriminate|]. now destruct (split c s).
Qed.

Lemma join_cons (sep x y : string) (l : list string) :
  join sep (x :: y :: l) = x +:+ sep +:+ join sep (y :: l).
Proof. reflexivity. Qed.

(** [sep.join(s.split(sep)) == s]. *)
Lemma join_of_split (c : ascii) (s : string) : join (String c "") (split c s) = s.
Proof.
  induction s as [|a s IH]; [reflexivity|]. rewrite split_cons.
  pose proof (split_nonempty c s) as Hne.
  destruct (Ascii.eqb_spec a c) as [->|Hac].
  - destruct (split c s) as [|w ws]; [congruence|].
    rewrite join_cons, IH. reflexivity.
  - destruct (split c s) as [|w [|w' ws]]; [congruence| |].
    + simpl in IH |- *. now rewrite IH.
    + rewrite join_cons in IH |- *. rewrite app_cons. now rewrite IH.
Qed.

(** The length that [wrap_license_text] works out for a line is the length
    of the line (source line 111). *)
Lemma split_length (c : ascii) (s : string) :
  sum (map len (split c s)) + llen (split c s) - 1 = len s.
Proof.
  induction s as [|a s IH]; [reflexivity|]. rewrite split_cons.
  pose proof (split_nonempty c s) as Hne.
  assert (Hlen : len (String a s) = len s + 1) by (unfold len; simpl; lia).
  destruct (Ascii.eqb a c).
  - cbn [map]. rewrite sum_cons. unfold llen in *. simpl List.length.
    change (len "") with 0. lia.
  - destruct (split c s) as [|w ws]; [congruence|].
    cbn [map] in *. rewrite sum_cons in *. unfold llen in *. simpl List.length in *.
    assert (len (String a w) = len w + 1) by (unfold len; simpl; lia). lia.
Qed.

(** A line that fits is kept as it is. *)
Lemma wrap_line_fits (width : Z) (lines : list string) (raw_line : string) :
  len raw_line <= width -> wrap_line width lines raw_line = lines ++ [raw_line].
Proof.
  intros Hfit. unfold wrap_line. rewrite split_length.
  destruct (Z.gtb_spec (len raw_line) width); [lia|].
  change " " with (String SP ""). now rewrite join_of_split.
Qed.

(** X23. A license text whose lines all fit in the width is returned as
    it is, character for character. *)
Theorem wrap_license_text_keeps_fitting_text (license_text : string) (width : Z) :
  (forall line, In line (split LF license_text) -> len line <= width) ->
  wrap_license_text license_text width = license_text.
Proof.
  intros Hfit. unfold wrap_license_text.
  assert (Hfold : forall raws acc,
    (forall line, In line raws -> len line <= width) ->
    fold_left (wrap_line width) raws acc = acc ++ raws).
  { induction raws as [|raw raws IH]; intros acc Hall; simpl.
    - now rewrite app_nil_r.
    - rewrite wrap_line_fits by (apply Hall; now left).
      rewrite IH by (intros l Hl; apply Hall; now right).
      now rewrite <- app_assoc. }
  rewrite Hfold by exact Hfit. apply join_of_split.
Qed.

(** *** Characters of the pieces *)

Lemma occurs_app (c : ascii) (a b : string) :
  occurs c (a +:+ b) = occurs c a || occurs c b.
Proof.
  induction a as [|x a IH]; [reflexivity|].
  rewrite app_cons. simpl. rewrite IH. now rewrite orb_assoc.
Qed.

(** The pieces of a split do not hold the separator, and hold no
    character that the string does not hold. *)
Lemma split_pieces (c : ascii) (s : string) :
  forall w, In w (split c s) ->
    occurs c w = false /\ forall d, occurs d w = true -> occurs d s = true.
Proof.
  induction s as [|a s IH]; intros w Hw.
  - destruct Hw as [<-|[]]. now split.
  - rewrite split_cons in Hw. pose proof (split_nonempty c s) as Hne.
    destruct (Ascii.eqb a c) eqn:Hac.
    + destruct Hw as [<-|Hw]; [split; [reflexivity | discriminate]|].
      destruct (IH w Hw) as [Hfree Hsub]. split; [exact Hfree|].
      intros d Hd. simpl. rewrite (Hsub d Hd). apply orb_true_r.
    + destruct (split c s) as [|w0 ws]; [congruence|].
      destruct Hw as [<-|Hw].
      * destruct (IH w0 (or_introl eq_refl)) as [Hfree Hsub]. split.
        -- simpl. now rewrite Hac, Hfree.
        -- intros d. simpl. intros [H|H]%orb_true_iff;
             [now rewrite H | rewrite (Hsub d H); apply orb_true_r].
      * destruct (IH w (or_intror Hw)) as [Hfree Hsub]. split; [exact Hfree|].
        intros d Hd. simpl. rewrite (Hsub d Hd). apply orb_true_r.
Qed.

Lemma split_free (c : ascii) (w : string) : occurs c w = false -> split c w = [w].
Proof.
  induction w as [|a w IH]; [reflexivity|]. simpl occurs.
  intros [Hac Hw]%orb_false_iff. rewrite split_cons, Hac, (IH Hw). reflexivity.
Qed.

Lemma split_app (c : ascii) (w r : string) :
  occurs c w = false -> split c (w +:+ String c r) = w :: split c r.
Proof.
  induction w as [|a w IH].
  - intros _. rewrite app_nil, split_cons. now rewrite Ascii.eqb_refl.
  - simpl occurs. intros [Hac Hw]%orb_false_iff.
    rewrite app_cons, split_cons, Hac, (IH Hw). reflexivity.
Qed.

(** [sep.join(l).split(sep) == l] when no member of [l] holds the
    separator and [l] is not empty. *)
Lemma split_join (c : ascii) (l : list string) :
  l <> [] -> (forall w, In w l -> occurs c w = false) ->
  split c (join (String c "") l) = l.
Proof.
  induction l as [|w l IH]; [congruence|]. intros _ Hfree.
  destruct l as [|w' l].
  - simpl. apply split_free. apply Hfree. now left.
  - rewrite join_cons. change (String c "" +:+ join (String c "") (w' :: l))
      with (String c (join (String c "") (w' :: l))).
    rewrite split_app by (apply Hfree; now left).
    rewrite IH; [reflexivity | discriminate |].
    intros x Hx. apply Hfree. now right.
Qed.

Lemma occurs_join (d : ascii) (sep : string) (l : list string) :
  occurs d sep = false -> (forall w, In w l -> occurs d w = false) ->
  occurs d (join sep l) = false.
Proof.
  intros Hsep. induction l as [|w l IH]; intros Hfree; [reflexivity|].
  destruct l as [|w' l]; [apply Hfree; now left|].
  rewrite join_cons, !occurs_app, Hsep, (Hfree w (or_introl eq_refl)).
  rewrite IH; [reflexivity|]. intros x Hx. apply Hfree. now right.
Qed.

Lemma join_snoc (sep : string) (l : list string) (w : string) :
  l <> [] -> join sep (l ++ [w]) = join sep l +:+ sep +:+ w.
Proof.
  induction l as [|x l IH]; [congruence|]. intros _.
  destruct l as [|y l]; [reflexivity|].
  change ((x :: y :: l) ++ [w]) with (x :: (y :: l) ++ [w]).
  cbn [app]. rewrite !join_cons.
  change (y :: l ++ [w]) with ((y :: l) ++ [w]). rewrite IH by discriminate.
  now rewrite !BumpEffects.append_assoc.
Qed.

(** *** The lines as groups of words *)

(** The inner loop: the lines it adds are groups of the words it went
    through, in order and without the words it dropped; a group is empty or
    shorter than the width. *)
Lemma wrap_words_groups (width : Z) (ws : list string) :
  forall lines words length,
    length = (if bool_decide (words = []) then -1 else len (join " " words)) ->
    (words <> [] -> len (join " " words) < width) ->
    exists G words' length',
      fold_left (wrap_word width) ws (lines, words, length)
      = (lines ++ map (join " ") G, words', length')
      /\ sublist (concat G ++ words') (words ++ ws)
      /\ (forall g, In g G -> g = [] \/ len (join " " g) < width)
      /\ (words' <> [] -> len (join " " words') < width).
Proof.
  induction ws as [|w ws IH]; intros lines words length Hlen Hfit.
  - exists [], words, length. simpl. rewrite !app_nil_r.
    split; [reflexivity|]. split; [reflexivity|]. split; [intros g []|exact Hfit].
  - cbn [fold_left]. unfold wrap_word at 2.
    destruct (Z.geb_spec (length + 1 + len w) width) as [Hbreak|Hkeep].
    + destruct (IH (lines ++ [join " " words]) [] (-1))
        as (G & words' & length' & Hrun & Hsub & Hgroups & Hfit');
        [reflexivity | congruence |].
      exists (words :: G), words', length'. split; [|split; [|split]].
      * rewrite Hrun. cbn [map]. now rewrite <- app_assoc.
      * cbn [concat]. rewrite <- app_assoc. apply sublist_app; [reflexivity|].
        apply sublist_cons. exact Hsub.
      * intros g [<-|Hg]; [|now apply Hgroups].
        destruct words; [now left | right; apply Hfit; discriminate].
      * exact Hfit'.
    + assert (Hnew : len (join " " (words ++ [w])) = length + len w + 1).
      { rewrite Hlen. destruct words as [|x words'].
        - rewrite bool_decide_eq_true_2 by reflexivity. simpl. lia.
        - rewrite bool_decide_eq_false_2 by discriminate.
          rewrite join_snoc by discriminate. rewrite !len_app.
          change (len " ") with 1. lia. }
      destruct (IH lines (words ++ [w]) (length + len w + 1))
        as (G & words' & length' & Hrun & Hsub & Hgroups & Hfit').
      { rewrite bool_decide_eq_false_2 by (now destruct words). now rewrite Hnew. }
      { intros _. lia. }
      exists G, words', length'. split; [exact Hrun|].
      split; [now rewrite <- app_assoc in Hsub|]. now split.
Qed.

(** One line of the text: the lines it adds are groups of its words. *)
Lemma wrap_line_groups (width : Z) (lines : list string) (raw_line : string) :
  exists G,
    wrap_line width lines raw_line = lines ++ map (join " ") G
    /\ sublist (concat G) (split SP raw_line)
    /\ (forall g, In g G -> g = [] \/ len (join " " g) <= width).
Proof.
  unfold wrap_line. rewrite split_length.
  destruct (Z.gtb_spec (len raw_line) width) as [Hlong|Hfits].
  - destruct (wrap_words_groups width (split SP raw_line) lines [] (-1))
      as (G & words' & length' & Hrun & Hsub & Hgroups & Hfit');
      [reflexivity | congruence |].
    rewrite Hrun. destruct words' as [|x words'].
    + exists G. rewrite app_nil_r in Hsub. split; [reflexivity|].
      split; [exact Hsub|]. intros g Hg. destruct (Hgroups g Hg); [now left | right; lia].
    + exists (G ++ [x :: words']). split; [|split].
      * rewrite map_app, app_assoc. reflexivity.
      * rewrite concat_app. simpl. now rewrite app_nil_r.
      * intros g [Hg|[<-|[]]]%in_app_or.
        -- destruct (Hgroups g Hg); [now left | right; lia].
        -- right. specialize (Hfit' ltac:(discriminate)). lia.
  - exists [split SP raw_line]. split; [reflexivity|]. split.
    + simpl. now rewrite app_nil_r.
    + intros g [<-|[]]. right. change " " with (String SP "").
      now rewrite join_of_split.
Qed.

Lemma wrapped_lines_groups (license_text : string) (width : Z) :
  exists G,
    wrapped_lines license_text width = map (join " ") G
    /\ sublist (concat G) (words_of license_text)
    /\ (forall g, In g G -> g = [] \/ len (join " " g) <= width).
Proof.
  unfold wrapped_lines, words_of.
  assert (Hfold : forall raws G0,
    exists G,
      fold_left (wrap_line width) raws (map (join " ") G0)
      = map (join " ") (G0 ++ G)
      /\ sublist (concat G) (concat (map (split SP) raws))
      /\ (forall g, In g G -> g = [] \/ len (join " " g) <= width)).
  { induction raws as [|raw raws IH]; intros G0.
    - exists []. rewrite app_nil_r. split; [reflexivity|].
      split; [reflexivity | intros g []].
    - cbn [fold_left map concat].
      destruct (wrap_line_groups width (map (join " ") G0) raw)
        as (G1 & Hline & Hsub1 & Hfit1).
      rewrite Hline, <- map_app.
      destruct (IH (G0 ++ G1)) as (G2 & Hrest & Hsub2 & Hfit2).
      exists (G1 ++ G2). split; [|split].
      + now rewrite Hrest, app_assoc.
      + rewrite concat_app. now apply sublist_app.
      + intros g [Hg|Hg]%in_app_or; [now apply Hfit1 | now apply Hfit2]. }
  destruct (Hfold (split LF license_text) []) as (G & Hrun & Hsub & Hfit).
  exists G. now split.
Qed.

(** The words of the text hold neither a space nor a line feed. *)
Lemma words_of_free (license_text w : string) :
  In w (words_of license_text) -> occurs SP w = false /\ occurs LF w = false.
Proof.
  unfold words_of. intros Hw. apply in_concat in Hw as (ws & Hws & Hw).
  apply in_map_iff in Hws as (raw & <- & Hraw).
  destruct (split_pieces SP raw w Hw) as [Hsp Hsub]. split; [exact Hsp|].
  destruct (split_pieces LF license_text raw Hraw) as [Hlf _].
  destruct (occurs LF w) eqn:Hocc; [|reflexivity].
  now rewrite (Hsub LF Hocc) in Hlf.
Qed.

Lemma sublist_In {A} (l k : list A) (x : A) : sublist l k -> In x l -> In x k.
Proof.
  intros Hsub Hx. apply list_elem_of_In. apply list_elem_of_In in Hx.
  exact (sublist_subseteq _ _ Hsub x Hx).
Qed.

(** The lines of the wrapped text are the joined groups: a line holds no
    line feed. *)
Lemma wrapped_text_lines (license_text : string) (width : Z) :
  wrapped_lines license_text width <> [] ->
  split LF (wrap_license_text license_text width)
  = wrapped_lines license_text width.
Proof.
  intros Hne. change (wrap_license_text license_text width)
    with (join (String LF "") (wrapped_lines license_text width)).
  apply split_join; [exact Hne|]. intros line Hline.
  destruct (wrapped_lines_groups license_text width) as (G & Hlines & Hsub & _).
  rewrite Hlines in Hline. apply in_map_iff in Hline as (g & <- & Hg).
  apply occurs_join; [reflexivity|]. intros w Hw.
  apply (words_of_free license_text).
  apply (sublist_In _ _ _ Hsub). apply in_concat. eauto.
Qed.

(** X24. Every line of a wrapped license text is empty or at most as
    long as the width. *)
Theorem wrapped_lines_fit (license_text : string) (width : Z) :
  forall line,
    In line (split LF (wrap_license_text license_text width)) ->
    line = "" \/ len line <= width.
Proof.
  intros line Hline.
  destruct (wrapped_lines license_text width) as [|l0 ls] eqn:Hlines.
  - unfold wrap_license_text in Hline. fold (wrapped_lines license_text width) in Hline.
    rewrite Hlines in Hline. destruct Hline as [<-|[]]. now left.
  - rewrite wrapped_text_lines in Hline by (rewrite Hlines; discriminate).
    destruct (wrapped_lines_groups license_text width) as (G & HG & _ & Hfit).
    rewrite HG in Hline. apply in_map_iff in Hline as (g & <- & Hg).
    destruct (Hfit g Hg) as [->|Hlen]; [now left | now right].
Qed.

Lemma sublist_filter_bool {A} (f : A -> bool) (l k : list A) :
  sublist l k -> sublist (List.filter f l) (List.filter f k).
Proof.
  induction 1 as [|x l k _ IH|x l k _ IH]; simpl.
  - constructor.
  - destruct (f x); [now apply sublist_skip | exact IH].
  - destruct (f x); [now apply sublist_cons | exact IH].
Qed.

(** Cutting the joined groups at spaces gives the words of the groups
    back, and an empty word for an empty group. *)
Lemma proper_words_of_groups (G : list (list string)) :
  (forall g w, In g G -> In w g -> occurs SP w = false) ->
  List.filter (fun word => negb (String.eqb word ""))
    (concat (map (split SP) (map (join " ") G)))
  = List.filter (fun word => negb (String.eqb word "")) (concat G).
Proof.
  induction G as [|g G IH]; intros Hfree; [reflexivity|].
  cbn [map concat]. rewrite !List.filter_app.
  rewrite IH by (intros g' w Hg; apply Hfree; now right). f_equal.
  destruct g as [|x g]; [reflexivity|].
  change " " with (String SP ""). rewrite split_join; [reflexivity | discriminate |].
  intros w Hw. apply (Hfree (x :: g)); [now left | exact Hw].
Qed.

(** X25. Wrapping a license text only drops words: the words of the
    wrapped text are words of the text, in the order of the text; no word
    is added, changed or moved. *)
Theorem wrapping_only_drops_words (license_text : string) (width : Z) :
  sublist (proper_words (wrap_license_text license_text width))
          (proper_words license_text).
Proof.
  unfold proper_words at 1, words_of at 1.
  destruct (wrapped_lines license_text width) as [|l0 ls] eqn:Hlines.
  - unfold wrap_license_text. fold (wrapped_lines license_text width).
    rewrite Hlines. apply sublist_nil_l.
  - rewrite wrapped_text_lines by (rewrite Hlines; discriminate).
    destruct (wrapped_lines_groups license_text width) as (G & HG & Hsub & _).
    rewrite HG, proper_words_of_groups.
    + unfold proper_words. now apply sublist_filter_bool.
    + intros g w Hg Hw. apply (words_of_free license_text).
      apply (sublist_In _ _ _ Hsub). apply in_concat. eauto.
Qed.

End WrapSpec.

(** ** The configuration that [slap link] hands to Flit *)

Module LinkSpec.
Import Py Link.

Lemma lookup_set_eq (k : string) (v : Value) (d : table) :
  lookup k (PyDict.set k v d) = Some v.
Proof.
  induction d as [|[k' v'] d IH]; simpl; [now rewrite String.eqb_refl|].
  destruct (String.eqb k' k) eqn:Hk; simpl.
  - now rewrite String.eqb_refl.
  - now rewrite Hk.
Qed.

Lemma lookup_set_ne (k k' : string) (v : Value) (d : table) :
  k <> k' -> lookup k' (PyDict.set k v d) = lookup k' d.
Proof.
  intros Hne. induction d as [|[k0 v0] d IH]; simpl.
  - destruct (String.eqb_spec k k'); [congruence | reflexivity].
  - destruct (String.eqb_spec k0 k) as [->|Hk0]; simpl.
    + destruct (String.eqb_spec k k'); [congruence|].
      destruct (String.eqb_spec k k'); [congruence | reflexivity].
    + destruct (String.eqb k0 k'); [reflexivity | exact IH].
Qed.

(** Storing what is stored already changes nothing. *)
Lemma set_same (k : string) (v : Value) (d : table) :
  lookup k d = Some v -> PyDict.set k v d = d.
Proof.
  induction d as [|[k0 v0] d IH]; simpl; [discriminate|].
  destruct (String.eqb_spec k0 k) as [->|Hne].
  - intros H. now injection H as ->.
  - intros H. now rewrite IH.
Qed.

Lemma set_keys_present (k : string) (v : Value) (d : table) :
  is_Some (lookup k d) -> PyDict.keys (PyDict.set k v d) = PyDict.keys d.
Proof.
  induction d as [|[k0 v0] d IH]; simpl; [intros [x Hx]; discriminate Hx|].
  destruct (String.eqb_spec k0 k) as [->|Hne]; [reflexivity|].
  intros H. simpl. now rewrite IH.
Qed.

Lemma set_keys_absent (k : string) (v : Value) (d : table) :
  lookup k d = None -> PyDict.keys (PyDict.set k v d) = PyDict.keys d ++ [k].
Proof.
  induction d as [|[k0 v0] d IH]; simpl; [reflexivity|].
  destruct (String.eqb_spec k0 k) as [->|Hne]; [discriminate|].
  intros H. simpl. now rewrite IH.
Qed.

(** The [project] table after the assignments of source lines 156 to 165. *)
Lemma project_after (plugins scripts version : Value) (dist_name : string)
    (project : table) :
  let project' :=
    PyDict.set "description" (Str "")
      (PyDict.set "version" version
         (PyDict.set "name" (Str dist_name)
            (if truthy scripts
             then PyDict.set "scripts" scripts
                    (if truthy plugins
                     then PyDict.set "entry-points" plugins project else project)
             else if truthy plugins
                  then PyDict.set "entry-points" plugins project else project))) in
  lookup "name" project' = Some (Str dist_name)
  /\ lookup "version" project' = Some version
  /\ lookup "description" project' = Some (Str "")
  /\ lookup "entry-points" project'
     = (if truthy plugins then Some plugins else lookup "entry-points" project)
  /\ lookup "scripts" project'
     = (if truthy scripts then Some scripts else lookup "scripts" project)
  /\ (forall k, k ∉ project_keys -> lookup k project' = lookup k project).
Proof.
  cbn zeta. repeat split.
  - rewrite !lookup_set_ne by discriminate. apply lookup_set_eq.
  - rewrite lookup_set_ne by discriminate. apply lookup_set_eq.
  - apply lookup_set_eq.
  - rewrite !lookup_set_ne by discriminate.
    destruct (truthy scripts), (truthy plugins);
      rewrite ?(lookup_set_ne "scripts") by discriminate;
      rewrite ?lookup_set_eq; reflexivity.
  - rewrite !lookup_set_ne by discriminate.
    destruct (truthy scripts), (truthy plugins); rewrite ?lookup_set_eq;
      rewrite ?(lookup_set_ne "entry-points") by discriminate; reflexivity.
  - intros k Hk. unfold project_keys in Hk.
    rewrite !not_elem_of_cons in Hk. destruct Hk as (H1 & H2 & H3 & H4 & H5 & _).
    rewrite !lookup_set_ne by congruence.
    destruct (truthy scripts), (truthy plugins);
      rewrite ?lookup_set_ne by congruence; reflexivity.
Qed.

(** What a call that returns has found, and what it leaves. *)
Lemma setup_returns (module dist_name : string) (data data' : table) :
  _setup_flit_config module dist_name data = inr data' ->
  exists tool poetry project flit version,
    lookup "tool" data = Some (Table tool)
    /\ default (Table []) (lookup "poetry" tool) = Table poetry
    /\ default (Table []) (lookup "project" data) = Table project
    /\ default (Table []) (lookup "flit" tool) = Table flit
    /\ lookup "version" poetry = Some version
    /\ let plugins := default (Table []) (lookup "plugins" poetry) in
       let scripts := default (Table []) (lookup "scripts" poetry) in
       let project' :=
         PyDict.set "description" (Str "")
           (PyDict.set "version" version
              (PyDict.set "name" (Str dist_name)
                 (if truthy scripts
                  then PyDict.set "scripts" scripts
                         (if truthy plugins
                          then PyDict.set "entry-points" plugins project
                          else project)
                  else if truthy plugins
                       then PyDict.set "entry-points" plugins project
                       else project))) in
       let tool' :=
         PyDict.set "flit"
           (Table (PyDict.set "module" (Table [("name", Str module)]) flit)) tool in
       data' = PyDict.set "tool" (Table tool')
                 (PyDict.set "project" (Table project') data).
Proof.
  unfold _setup_flit_config.
  destruct (lookup "tool" data) as [[| | | |tool]|] eqn:Htool; try discriminate.
  cbn [as_table].
  destruct (default (Table []) (lookup "poetry" tool)) as [| | | |poetry] eqn:Hpoetry;
    try discriminate.
  cbn [as_table]. cbn zeta.
  match goal with
  | |- context [PyDict.set "tool" (Table ?t) data] => set (tool1 := t)
  end.
  set (data1 := PyDict.set "tool" (Table tool1) data).
  match goal with
  | |- context [default (Table []) (lookup "project" ?d)] => set (data2 := d)
  end.
  assert (Hflit1 : default (Table []) (lookup "flit" tool1)
                   = default (Table []) (lookup "flit" tool)).
  { unfold tool1. destruct (lookup "flit" tool) eqn:Hf; [now rewrite Hf|].
    now rewrite lookup_set_eq. }
  assert (Hproject1 : lookup "project" data1 = lookup "project" data)
    by (unfold data1; now rewrite lookup_set_ne by discriminate).
  assert (Hproject2 : default (Table []) (lookup "project" data2)
                      = default (Table []) (lookup "project" data)).
  { unfold data2. rewrite Hproject1.
    destruct (lookup "project" data) eqn:Hp; [now rewrite Hproject1|].
    now rewrite lookup_set_eq. }
  rewrite Hproject2, Hflit1.
  destruct (default (Table []) (lookup "project" data)) as [| | | |project] eqn:Hproject;
    try discriminate.
  cbn [as_table].
  destruct (lookup "version" poetry) as [version|] eqn:Hversion; [|discriminate].
  destruct (default (Table []) (lookup "flit" tool)) as [| | | |flit] eqn:Hflit;
    try discriminate.
  cbn [as_table]. intros H. injection H as <-.
  exists tool, poetry, project, flit, version.
  repeat (split; [reflexivity || assumption|]). cbn zeta.
  assert (Htool1 : forall v, PyDict.set "flit" v tool1 = PyDict.set "flit" v tool).
  { intros v. unfold tool1. destruct (lookup "flit" tool) eqn:Hf; [reflexivity|].
    clear -Hf. induction tool as [|[k0 v0] d IH]; simpl; [reflexivity|].
    simpl in Hf. destruct (String.eqb k0 "flit") eqn:Hk; [discriminate|].
    simpl. rewrite Hk. now rewrite IH. }
  rewrite Htool1.
  assert (Hset2 : forall (k : string) (v w : Value) (d : table),
    PyDict.set k v (PyDict.set k w d) = PyDict.set k v d).
  { intros k v w d. induction d as [|[k0 v0] d IH]; simpl.
    - now rewrite String.eqb_refl.
    - destruct (String.eqb k0 k) eqn:Hk; simpl.
      + now rewrite String.eqb_refl.
      + now rewrite Hk, IH. }
  assert (Hcomm : forall (v w : Value) (d : table),
    is_Some (lookup "tool" d) ->
    PyDict.set "tool" v (PyDict.set "project" w d)
    = PyDict.set "project" w (PyDict.set "tool" v d)).
  { intros v w d. induction d as [|[k0 v0] d IH]; simpl;
      [intros [x Hx]; discriminate Hx|].
    destruct (String.eqb_spec k0 "tool") as [->|Hk]; simpl.
    - reflexivity.
    - destruct (String.eqb_spec k0 "project") as [->|Hk']; simpl.
      + destruct (String.eqb_spec "project" "tool"); [discriminate|].
        intros _. f_equal.
      + destruct (String.eqb_spec k0 "tool"); [congruence|].
        intros H. now rewrite IH. }
  assert (Hdata2 : forall v, PyDict.set "project" v data2 = PyDict.set "project" v data1).
  { intros v. unfold data2. destruct (lookup "project" data1); [reflexivity|].
    apply Hset2. }
  rewrite Hdata2. unfold data1.
  rewrite (Hcomm _ _ (PyDict.set "tool" _ data)) by (rewrite lookup_set_eq; eauto).
  rewrite Hset2. rewrite <- Hcomm by (rewrite Htool; eauto). reflexivity.
Qed.

Lemma setup_flit_config_result_aux (module dist_name : string) (data data' : table) :
  _setup_flit_config module dist_name data = inr data' ->
  is_Some (poetry_item "version" data).
Proof.
  intros Hrun.
  destruct (setup_returns _ _ _ _ Hrun)
    as (tool & poetry & project & flit & version
        & Htool & Hpoetry & _ & _ & Hversion & _).
  unfold poetry_item, lookup2. rewrite Htool.
  destruct (lookup "poetry" tool) as [v|]; simpl in Hpoetry.
  - rewrite Hpoetry, Hversion. eauto.
  - injection Hpoetry as <-. discriminate Hversion.
Qed.

(** X26. When [_setup_flit_config] returns, the [project] table holds
    the distribution name, the version of [tool.poetry] and an empty
    description, and the plugins and the scripts of [tool.poetry] as
    entry points and scripts when they are not empty; [tool.flit.module]
    names the module. The rest of the configuration is as it was: the other
    top-level tables, [tool.poetry], and the other keys of [project]. *)
Theorem setup_flit_config_result (module dist_name : string) (data data' : table) :
  _setup_flit_config module dist_name data = inr data' ->
  lookup2 "project" "name" data' = Some (Str dist_name)
  /\ is_Some (poetry_item "version" data)
  /\ lookup2 "project" "version" data' = poetry_item "version" data
  /\ lookup2 "project" "description" data' = Some (Str "")
  /\ flit_item "module" data' = Some (Table [("name", Str module)])
  /\ (forall plugins,
        poetry_item "plugins" data = Some plugins -> truthy plugins = true ->
        lookup2 "project" "entry-points" data' = Some plugins)
  /\ (forall scripts,
        poetry_item "scripts" data = Some scripts -> truthy scripts = true ->
        lookup2 "project" "scripts" data' = Some scripts)
  /\ (forall k, k <> "tool" -> k <> "project" -> lookup k data' = lookup k data)
  /\ lookup2 "tool" "poetry" data' = lookup2 "tool" "poetry" data
  /\ (forall k, k ∉ project_keys ->
        lookup2 "project" k data' = lookup2 "project" k data).
Proof.
  intros Hrun.
  destruct (setup_returns _ _ _ _ Hrun)
    as (tool & poetry & project & flit & version
        & Htool & Hpoetry & Hproject & Hflit & Hversion & Hdata).
  cbn zeta in Hdata.
  destruct (project_after (default (Table []) (lookup "plugins" poetry))
              (default (Table []) (lookup "scripts" poetry)) version dist_name project)
    as (Hname & Hvers & Hdesc & Hentry & Hscripts & Hother).
  cbn zeta in Hname, Hvers, Hdesc, Hentry, Hscripts, Hother.
  match type of Hdata with
  | _ = PyDict.set "tool" (Table ?t) (PyDict.set "project" (Table ?p) data) =>
      set (tool' := t) in *; set (project' := p) in *
  end.
  assert (Hp' : forall k, lookup2 "project" k data' = lookup k project').
  { intros k. unfold lookup2. rewrite Hdata.
    rewrite lookup_set_ne by discriminate. rewrite lookup_set_eq. reflexivity. }
  assert (Ht' : forall k, lookup2 "tool" k data' = lookup k tool').
  { intros k. unfold lookup2. rewrite Hdata, lookup_set_eq. reflexivity. }
  assert (Hitem : forall k, poetry_item k data = lookup k poetry).
  { intros k. unfold poetry_item, lookup2. rewrite Htool.
    destruct (lookup "poetry" tool) as [v|]; simpl in Hpoetry.
    - now rewrite Hpoetry.
    - injection Hpoetry as <-. reflexivity. }
  assert (Hold : forall k, lookup2 "project" k data = lookup k project).
  { intros k. unfold lookup2.
    destruct (lookup "project" data) as [v|]; simpl in Hproject.
    - now rewrite Hproject.
    - injection Hproject as <-. reflexivity. }
  repeat split.
  - now rewrite Hp'.
  - rewrite Hitem, Hversion. eauto.
  - now rewrite Hp', Hitem, Hversion.
  - now rewrite Hp'.
  - unfold flit_item. rewrite Ht'. unfold tool'. rewrite lookup_set_eq.
    apply lookup_set_eq.
  - intros plugins Hplugins Htruthy. rewrite Hitem in Hplugins.
    rewrite Hp', Hentry, Hplugins. simpl. now rewrite Htruthy.
  - intros scripts Hsc Htruthy. rewrite Hitem in Hsc.
    rewrite Hp', Hscripts, Hsc. simpl. now rewrite Htruthy.
  - intros k Hk1 Hk2. rewrite Hdata. now rewrite !lookup_set_ne by congruence.
  - rewrite Ht'. unfold tool'. rewrite lookup_set_ne by discriminate.
    unfold lookup2. now rewrite Htool.
  - intros k Hk. now rewrite Hp', Hother, Hold.
Qed.

(** X27. [_setup_flit_config] takes the version from [tool.poetry] only:
    a configuration without [tool.poetry.version] never goes through, and
    a configuration with a [tool] table but no [tool.poetry] table, as a
    project that is configured for Flit has it, raises [KeyError] for
    [version]. Without a [tool] table it raises [KeyError] for [tool]. *)
Theorem setup_flit_config_needs_poetry_version
    (module dist_name : string) (data : table) :
  (poetry_item "version" data = None ->
   exists e, _setup_flit_config module dist_name data = inl e)
  /\ (forall tool,
        lookup "tool" data = Some (Table tool) ->
        lookup "poetry" tool = None ->
        lookup "project" data = None
        \/ (exists project, lookup "project" data = Some (Table project)) ->
        _setup_flit_config module dist_name data = inl (KeyError "version"))
  /\ (lookup "tool" data = None ->
      _setup_flit_config module dist_name data = inl (KeyError "tool")).
Proof.
  split; [|split].
  - intros Hnone.
    destruct (_setup_flit_config module dist_name data) as [e|data'] eqn:Hrun;
      [eauto|].
    destruct (setup_flit_config_result_aux _ _ _ _ Hrun) as [v Hv].
    rewrite Hnone in Hv. discriminate Hv.
  - intros tool Htool Hpoetry Hproject. unfold _setup_flit_config.
    rewrite Htool. cbn [as_table]. rewrite Hpoetry. cbn [default as_table lookup].
    match goal with
    | |- context [PyDict.set "tool" (Table ?t) data] => set (tool1 := t)
    end.
    assert (Hp : lookup "project" (PyDict.set "tool" (Table tool1) data)
                 = lookup "project" data)
      by now rewrite lookup_set_ne by discriminate.
    rewrite Hp.
    destruct Hproject as [Hnone|[project Hsome]].
    + rewrite Hnone, lookup_set_eq. reflexivity.
    + rewrite Hsome, Hp, Hsome. reflexivity.
  - intros Hnone. unfold _setup_flit_config. now rewrite Hnone.
Qed.

Lemma set_set (k : string) (v w : Value) (d : table) :
  PyDict.set k v (PyDict.set k w d) = PyDict.set k v d.
Proof.
  induction d as [|[k0 v0] d IH]; simpl.
  - now rewrite String.eqb_refl.
  - destruct (String.eqb k0 k) eqn:Hk; simpl.
    + now rewrite String.eqb_refl.
    + now rewrite Hk, IH.
Qed.

(** A configuration that has all its tables comes back completed, in
    place. *)
Lemma setup_computes (module dist_name : string) (data : table)
    tool poetry project flit version :
  lookup "tool" data = Some (Table tool) ->
  lookup "poetry" tool = Some (Table poetry) ->
  lookup "project" data = Some (Table project) ->
  lookup "flit" tool = Some (Table flit) ->
  lookup "version" poetry = Some version ->
  let plugins := default (Table []) (lookup "plugins" poetry) in
  let scripts := default (Table []) (lookup "scripts" poetry) in
  let project' :=
    PyDict.set "description" (Str "")
      (PyDict.set "version" version
         (PyDict.set "name" (Str dist_name)
            (if truthy scripts
             then PyDict.set "scripts" scripts
                    (if truthy plugins
                     then PyDict.set "entry-points" plugins project
                     else project)
             else if truthy plugins
                  then PyDict.set "entry-points" plugins project
                  else project))) in
  let tool' :=
    PyDict.set "flit"
      (Table (PyDict.set "module" (Table [("name", Str module)]) flit)) tool in
  _setup_flit_config module dist_name data
  = inr (PyDict.set "tool" (Table tool')
           (PyDict.set "project" (Table project') data)).
Proof.
  intros Htool Hpoetry Hproject Hflit Hversion. cbn zeta.
  unfold _setup_flit_config. rewrite Htool. cbn [as_table].
  rewrite Hpoetry, Hflit. cbn [default from_option id as_table]. rewrite ?Hflit.
  rewrite (set_same "tool" (Table tool) data Htool), Hproject.
  cbn [default from_option id as_table]. rewrite ?Hproject.
  cbn [default from_option id as_table].
  rewrite Hversion. reflexivity.
Qed.

(** X28. [_setup_flit_config] can be applied again: on the configuration
    it has returned, it returns the same configuration. *)
Theorem setup_flit_config_idempotent (module dist_name : string) (data data' : table) :
  _setup_flit_config module dist_name data = inr data' ->
  _setup_flit_config module dist_name data' = inr data'.
Proof.
  intros Hrun.
  destruct (setup_returns _ _ _ _ Hrun)
    as (tool & poetry & project & flit & version
        & Htool & Hpoetry & Hproject & Hflit & Hversion & Hdata).
  cbn zeta in Hdata.
  destruct (project_after (default (Table []) (lookup "plugins" poetry))
              (default (Table []) (lookup "scripts" poetry)) version dist_name project)
    as (Hname & Hvers & Hdesc & Hentry & Hscripts & _).
  cbn zeta in Hname, Hvers, Hdesc, Hentry, Hscripts.
  match type of Hdata with
  | _ = PyDict.set "tool" (Table ?t) (PyDict.set "project" (Table ?p) data) =>
      set (tool' := t) in *; set (project' := p) in *
  end.
  set (flit' := PyDict.set "module" (Table [("name", Str module)]) flit) in *.
  assert (Htool' : lookup "tool" data' = Some (Table tool'))
    by (rewrite Hdata; apply lookup_set_eq).
  assert (Hproject' : lookup "project" data' = Some (Table project')).
  { rewrite Hdata. rewrite lookup_set_ne by discriminate. apply lookup_set_eq. }
  assert (Hflit' : lookup "flit" tool' = Some (Table flit')) by apply lookup_set_eq.
  assert (Hpoetry' : lookup "poetry" tool' = Some (Table poetry)).
  { unfold tool'. rewrite lookup_set_ne by discriminate.
    destruct (lookup "poetry" tool) as [v|]; simpl in Hpoetry; [now subst v|].
    injection Hpoetry as <-. discriminate Hversion. }
  rewrite (setup_computes module dist_name data' tool' poetry project' flit' version
             Htool' Hpoetry' Hproject' Hflit' Hversion).
  cbn zeta. f_equal.
  assert (Hsame : PyDict.set "description" (Str "")
      (PyDict.set "version" version
         (PyDict.set "name" (Str dist_name)
            (if truthy (default (Table []) (lookup "scripts" poetry))
             then PyDict.set "scripts" (default (Table []) (lookup "scripts" poetry))
                    (if truthy (default (Table []) (lookup "plugins" poetry))
                     then PyDict.set "entry-points"
                            (default (Table []) (lookup "plugins" poetry)) project'
                     else project')
             else if truthy (default (Table []) (lookup "plugins" poetry))
                  then PyDict.set "entry-points"
                         (default (Table []) (lookup "plugins" poetry)) project'
                  else project'))) = project').
  { assert (He : (if truthy (default (Table []) (lookup "plugins" poetry))
                  then PyDict.set "entry-points"
                         (default (Table []) (lookup "plugins" poetry)) project'
                  else project') = project').
    { destruct (truthy (default (Table []) (lookup "plugins" poetry)));
        [now apply set_same | reflexivity]. }
    rewrite He.
    assert (Hs : (if truthy (default (Table []) (lookup "scripts" poetry))
                  then PyDict.set "scripts"
                         (default (Table []) (lookup "scripts" poetry)) project'
                  else project') = project').
    { destruct (truthy (default (Table []) (lookup "scripts" poetry)));
        [now apply set_same | reflexivity]. }
    rewrite Hs.
    rewrite (set_same "name" _ _ Hname), (set_same "version" _ _ Hvers).
    now apply set_same. }
  rewrite Hsame.
  assert (Hmodule : PyDict.set "module" (Table [("name", Str module)]) flit' = flit')
    by (apply set_same, lookup_set_eq).
  rewrite Hmodule, (set_same "flit" _ _ Hflit').
  rewrite (set_same "project" _ _ Hproject'). now apply set_same.
Qed.

(** *** [link_repository] *)

Section LinkRepository.
Context {S : System}.

Lemma installs_app (l l' : list Effect) : installs (l ++ l') = installs l ++ installs l'.
Proof. unfold installs. apply omap_app. Qed.

(** One project: what it adds to the counters and to the installations. *)
Lemma link_project_counts dump python_bin project st st' :
  link_project dump python_bin project st = inr st' ->
  num_projects st' = num_projects st + (if counts project then 1 else 0)
  /\ num_skipped st'
     = num_skipped st + (if counts project && several project then 1 else 0)
  /\ installs (effects st')
     = installs (effects st)
       ++ (if counts project && negb (several project) && negb dump
           then [pyproject_path project] else []).
Proof.
  unfold link_project, counts, several, llen.
  destruct (is_python_project project); cbn [negb andb].
  2:{ intros H. injection H as <-. rewrite app_nil_r. repeat split; lia. }
  destruct (packages project) as [|package others].
  { intros H. injection H as <-. cbn [andb negb]. rewrite app_nil_r.
    repeat split; lia. }
  destruct others as [|package' others].
  - cbn [List.length]. change (Z.of_nat 1 >? 1) with false.
    change (1 <? 1)%nat with false. cbn [negb andb].
    destruct (_setup_flit_config _ _ _) as [e|config]; [discriminate|].
    destruct dump; intros H; injection H as <-; unfold record;
      cbn [num_projects num_skipped effects];
      rewrite !installs_app; simpl; rewrite ?app_nil_r; repeat split; lia.
  - assert (Hlong : (Z.of_nat (List.length (package :: package' :: others)) >? 1) = true).
    { apply Z.gtb_lt. simpl List.length. lia. }
    rewrite Hlong.
    assert (Hsev : (1 <? List.length (package :: package' :: others))%nat = true).
    { apply Nat.ltb_lt. simpl. lia. }
    rewrite Hsev. cbn [negb andb].
    intros H. injection H as <-. unfold record.
    cbn [num_projects num_skipped effects].
    rewrite installs_app. simpl. rewrite !app_nil_r. repeat split; lia.
Qed.

Lemma link_projects_counts dump python_bin projects :
  forall st st',
    link_projects dump python_bin projects st = inr st' ->
    num_projects st' = num_projects st + Z.of_nat (List.length (List.filter counts projects))
    /\ num_skipped st'
       = num_skipped st
         + Z.of_nat (List.length
             (List.filter (fun p => counts p && several p) projects))
    /\ installs (effects st')
       = installs (effects st)
         ++ (if dump then []
             else map pyproject_path
                    (List.filter (fun p => counts p && negb (several p)) projects)).
Proof.
  induction projects as [|p rest IH]; intros st st' Hrun.
  - injection Hrun as <-. cbn [List.filter List.length map].
    destruct dump; rewrite app_nil_r; repeat split; lia.
  - cbn [link_projects] in Hrun.
    destruct (link_project dump python_bin p st) as [e|st1] eqn:Hp; [discriminate|].
    destruct (link_project_counts _ _ _ _ _ Hp) as (Hn & Hs & Hi).
    destruct (IH _ _ Hrun) as (Hn' & Hs' & Hi').
    rewrite Hn', Hs', Hi', Hn, Hs, Hi. cbn [List.filter].
    destruct (counts p), (several p), dump; cbn [andb negb List.length map];
      rewrite <- ?app_assoc; repeat split; simpl; try lia; reflexivity.
Qed.

(** X29. When [slap link] goes through, it returns 1 exactly when the
    repository has a single Python project with packages and that project
    has several packages; in a repository with more projects it returns 0
    even when projects were skipped. With [--dump-pyproject] nothing is
    installed; without, the projects that are installed are the Python
    projects with exactly one package, in order. *)
Theorem link_status projects dump python code effs :
  link_repository projects dump python = (inr code, effs) ->
  (code = 1 <-> exists p, List.filter counts projects = [p] /\ several p = true)
  /\ (code = 0 \/ code = 1)
  /\ installs effs
     = (if dump then []
        else map pyproject_path
               (List.filter (fun p => counts p && negb (several p)) projects)).
Proof.
  unfold link_repository.
  destruct (negb (Py.truthy (which _))); [discriminate|].
  destruct (link_projects dump _ projects (mkProgress 0 0 [])) as [[e st]|st] eqn:Hrun;
    [discriminate|].
  intros H. injection H as <- <-.
  destruct (link_projects_counts _ _ _ _ _ Hrun) as (Hn & Hs & Hi).
  cbn [num_projects num_skipped effects installs omap] in Hn, Hs, Hi.
  split; [|split].
  - assert (Hfilter : List.filter (fun p => counts p && several p) projects
                      = List.filter several (List.filter counts projects)).
    { clear. induction projects as [|p l IH]; [reflexivity|]. simpl.
      destruct (counts p); simpl; [destruct (several p)|]; now rewrite IH. }
    rewrite Hfilter in Hs. rewrite Hn, Hs.
    destruct (List.filter counts projects) as [|p [|q l]]; cbn [List.filter List.length].
    + simpl. split; [discriminate|]. intros (p & Hp & _). discriminate Hp.
    + destruct (several p) eqn:Hsev; simpl.
      * split; [eauto|reflexivity].
      * split; [discriminate|]. intros (p' & Hp & Hs'). injection Hp as <-. congruence.
    + assert (Hne : (0 + Z.of_nat (Datatypes.S (Datatypes.S (List.length l))) =? 1)
                    = false).
      { apply Z.eqb_neq. lia. }
      rewrite Hne, andb_false_r.
      split; [discriminate|]. intros (p' & Hp & _). discriminate Hp.
  - destruct (_ && _); tauto.
  - exact Hi.
Qed.

End LinkRepository.

End LinkSpec.

(** ** The properties on the examples *)

Module Examples.
Import Py Shore Rules Effects ShoreCommands PyFacts ShoreFacts EffectFacts
  BumpEffects ExitStatus CommandSpec BuildSpec Demo Inputs.

(** [shore bump --patch --tag --dry] leaves the files and the repository. *)
Lemma dry_run_changes_nothing_witness :
  files (snd (@_bump (externals package) (patch_args false true true)
                (repo clean_git))) = files (repo clean_git)
  /\ git (snd (@_bump (externals package) (patch_args false true true)
                 (repo clean_git))) = git (repo clean_git).
Proof.
  apply (@dry_run_changes_nothing (externals package)
           (patch_args false true true) (repo clean_git)).
  reflexivity.
Defined.

(** [shore bump --patch] leaves the repository. *)
Lemma bump_without_tag_keeps_repository_witness :
  git (snd (@_bump (externals package) (patch_args false false false)
              (repo clean_git))) = git (repo clean_git).
Proof.
  apply (@bump_without_tag_keeps_repository (externals package)
           (patch_args false false false) (repo clean_git)).
  reflexivity.
Defined.

(** [shore bump --patch] leaves [package.yaml]. *)
Lemma bump_touches_only_referenced_files_witness :
  files (snd (@_bump (externals package) (patch_args false false false)
                (repo clean_git))) !! "/repo/package.yaml"
  = files (repo clean_git) !! "/repo/package.yaml".
Proof.
  apply (@bump_touches_only_referenced_files (externals package)
           (patch_args false false false) (repo clean_git) "/repo/package.yaml").
  intros Hin. vm_compute in Hin.
  repeat (apply elem_of_cons in Hin as [Hin|Hin]; [discriminate Hin|]).
  now apply elem_of_nil in Hin.
Defined.

(** Without [setup.py], [shore bump --patch] rewrites [__init__.py] and
    then raises. *)
Lemma missing_file_stops_midway_witness :
  exists w',
    @_bump (externals package_init_first) (patch_args false false false)
      (repo_without_setup clean_git)
    = (Stop (Raise (FileNotFoundError "setup.py")), w')
    /\ files w' !! "/repo/src/demo/__init__.py" = Some "__version__ = '1.0.1'".
Proof.
  destruct (@missing_file_stops_midway (externals package_init_first)
              (patch_args false false false) (repo_without_setup clean_git)
              (IsPackage package_init_first) [init_ref] setup_ref []
              (1, 0, 1)%nat
              (snd (@bump_asserted (externals package_init_first)
                      (patch_args false false false)
                      (repo_without_setup clean_git))))
    as (w' & Hbump & Hbefore & _).
  - reflexivity.
  - vm_compute. reflexivity.
  - intros r [<-|[]]. vm_compute. eexists. reflexivity.
  - vm_compute. reflexivity.
  - exists w'. split; [exact Hbump|].
    apply (Hbefore init_ref "__version__ = '1.0.0'"); [now left|].
    vm_compute. reflexivity.
Defined.

(** [shore bump --show] stops, the files and the repository as before. *)
Lemma queries_change_nothing_witness :
  exists ab w',
    @_bump (externals package) show_args (repo clean_git) = (Stop ab, w')
    /\ files w' = files (repo clean_git) /\ git w' = git (repo clean_git).
Proof.
  apply (@queries_change_nothing (externals package) show_args (repo clean_git)).
  left. reflexivity.
Defined.

(** [shore bump --show] in a package that its monorepo manages. *)
Lemma managed_package_needs_force_witness :
  exists w',
    @_bump (externals managed_package) show_args (repo clean_git)
    = (Stop (ParserError
         "cannot bump individual package version if managed by monorepo."), w')
    /\ files w' = files (repo clean_git) /\ git w' = git (repo clean_git).
Proof.
  apply (@managed_package_needs_force (externals managed_package) show_args
           (repo clean_git)).
  - reflexivity.
  - reflexivity.
  - reflexivity.
  - reflexivity.
  - vm_compute. eexists. reflexivity.
  - vm_compute. reflexivity.
  - reflexivity.
Defined.

(** Bumping [setup.py] to 1.0.1 and back to 1.0.0. *)
Lemma splice_back_witness :
  @splice (externals package)
    (@splice (externals package) "version='1.0.0'" setup_ref (1, 0, 1)%nat)
    {| filename := "setup.py"; start := 9; end_ := 14; value := "1.0.1" |}
    (1, 0, 0)%nat
  = "version='1.0.0'".
Proof.
  apply (@splice_back (externals package) "version='1.0.0'" setup_ref
           (1, 0, 1)%nat (1, 0, 0)%nat).
  - vm_compute. intuition discriminate.
  - vm_compute. reflexivity.
Defined.


(** The publisher of the examples requires the one build it selects. *)
Lemma required_builds_are_the_selected_ones_witness :
  NoDup (PyDict.keys [("setuptools:sdist", sdist)])
  /\ selects [("setuptools:sdist", sdist)] good_publisher "setuptools:sdist".
Proof.
  destruct (@required_builds_are_the_selected_ones (externals package)
              [("setuptools:sdist", sdist)] good_publisher (repo clean_git)
              [("setuptools:sdist", sdist)] (repo clean_git))
    as (Hnd & Hsel & _).
  - reflexivity.
  - split; [exact Hnd|]. apply Hsel. left.
Defined.

(** A publisher that asks for a wheel answers [False] and builds nothing. *)
Lemma unsatisfied_selector_builds_nothing_witness :
  exists w',
    @_run_publisher (externals package) publish_args
      [("setuptools:sdist", sdist)] "pypi" wheel_publisher (repo clean_git)
    = (Ok false, w')
    /\ files w' = files (repo clean_git) /\ git w' = git (repo clean_git)
    /\ made_directories (output w') = made_directories (output (repo clean_git)).
Proof.
  apply (@unsatisfied_selector_builds_nothing (externals package) publish_args
           [("setuptools:sdist", sdist)] "pypi" wheel_publisher (repo clean_git)).
  exists "wheel". split; [left | reflexivity].
Defined.

(** [shore publish nowhere] returns 1. *)
Lemma publish_refused_witness :
  exists w',
    @_publish (externals package) publish_nowhere_args (repo clean_git)
    = (Stop (Return (Some 1)), w')
    /\ files w' = files (repo clean_git) /\ git w' = git (repo clean_git)
    /\ attempts (output w') = attempts (output (repo clean_git)).
Proof.
  apply (@publish_refused (externals package) publish_nowhere_args
           (repo clean_git) (IsPackage package)).
  - vm_compute. reflexivity.
  - right. split; reflexivity.
Defined.

(** [shore publish --reuse] after a build makes no directory. *)
Lemma reuse_skips_present_builds_witness :
  exists w',
    @_run_publisher (externals package) publish_reuse_args
      [("setuptools:sdist", sdist)] "mirror" good_publisher built_repo
    = (Ok true, w')
    /\ made_directories (output w') = [].
Proof.
  destruct (@reuse_skips_present_builds (externals package) publish_reuse_args
              [("setuptools:sdist", sdist)] "mirror" good_publisher built_repo
              [("setuptools:sdist", sdist)])
    as (w' & Hrun & _ & _ & Hmade).
  - reflexivity.
  - reflexivity.
  - intros item Hitem filename_ Hfile.
    apply list_elem_of_singleton in Hitem as ->.
    apply list_elem_of_singleton in Hfile as ->.
    vm_compute. eexists. reflexivity.
  - exists w'. split; [exact Hrun | exact Hmade].
Defined.

(** [shore build] in the package of the examples raises. *)
Lemma build_reads_missing_attribute_witness :
  exists w',
    @_build (externals package) build_args (repo clean_git)
    = (Stop (Raise (Exception
         "AttributeError: 'Namespace' object has no attribute 'directory'")), w')
    /\ files w' = files (repo clean_git).
Proof.
  destruct (@build_reads_missing_attribute (externals package) build_args
              (repo clean_git) (IsPackage package))
    as (w' & Hrun & Hfiles & _).
  - vm_compute. reflexivity.
  - exists w'. split; [exact Hrun | exact Hfiles].
Defined.

(** [shore verify --tag v1.0.0] in the package of the examples. *)
Lemma verify_status_witness :
  exists w',
    @_verify (externals package) (rendering package) verify_args (repo clean_git)
    = (Stop (Return (Some 0)), w')
    /\ files w' = files (repo clean_git).
Proof.
  destruct (@verify_status (externals package) (rendering package) verify_args
              (repo clean_git) (IsPackage package))
    as (w' & Hrun & Hfiles & _).
  - vm_compute. reflexivity.
  - exists w'. split; [exact Hrun | exact Hfiles].
Defined.

End Examples.

Module MoreExamples.
Import Py Slam SlamPlugin SlamSpec TestSpec Licenses Wrapping WrapSpec Link LinkSpec
  Demo Inputs.

(** [slam test nothing] starts nothing. *)
Lemma handle_refuses_witness :
  fst (@handle shell test_nothing quiet_terminal) = Returned 1
  /\ spawned (io (snd (@handle shell test_nothing quiet_terminal))) = [].
Proof.
  destruct (@handle_refuses shell test_nothing quiet_terminal)
    as (msg & Hrun & Hspawned & _).
  - right. exists "nothing". split; [left | reflexivity].
  - split; [now rewrite Hrun | exact Hspawned].
Defined.

(** The first runner is blue. *)
Lemma colors_rotate_witness :
  _prev_color (snd (@run shell (runner_of true false
                                  {| project := demo_project; name := "unit";
                                     command := "true" |})
                      quiet_terminal))
  = Some "blue".
Proof.
  apply (@colors_rotate shell
           (runner_of true false
              {| project := demo_project; name := "unit"; command := "true" |})
           quiet_terminal).
  exact I.
Defined.

(** The tests of the examples, as the plugin loads them. *)
Lemma loaded_tests_have_distinct_keys_witness :
  NoDup (map test_id (load_configuration [demo_project] demo_test_config))
  /\ NoDup (map (result_key true)
              (remove_dups (load_configuration [demo_project] demo_test_config))).
Proof.
  apply (@loaded_tests_have_distinct_keys [demo_project] demo_test_config
           false [] None
           (remove_dups (load_configuration [demo_project] demo_test_config))).
  - apply NoDup_singleton.
  - intros p [<-|[]]. reflexivity.
  - intros p _. apply NoDup_cons. split.
    + intros Hin. apply list_elem_of_singleton in Hin. discriminate Hin.
    + apply NoDup_singleton.
  - reflexivity.
Defined.

(** Two tests with the id [a:b:c]: the first fails, the second passes,
    and [slam test] returns 0. *)
Lemma status_is_of_last_results_witness :
  fst (@handle shell masked_command quiet_terminal) = Returned 0.
Proof.
  apply (proj2 (@status_is_of_last_results shell masked_command quiet_terminal
                  (remove_dups masked_tests)
                  ltac:(split; intros; eexists; reflexivity)
                  ltac:(discriminate) eq_refl)).
  intros i kv Hi Hlast. destruct i as [|[|i]].
  - exfalso.
    exact (Hlast 1%nat "a:b:c" "a:b:c" eq_refl eq_refl ltac:(lia) eq_refl).
  - injection Hi as <-. reflexivity.
  - discriminate Hi.
Defined.

(** A text of one short line. *)
Lemma wrap_license_text_keeps_fitting_text_witness :
  wrap_license_text "MIT License" default_width = "MIT License".
Proof.
  apply (wrap_license_text_keeps_fitting_text "MIT License" default_width).
  intros line [<-|[]]. vm_compute. discriminate.
Defined.

(** The first line of the wrapped second paragraph of the MIT license. *)
Lemma wrapped_lines_fit_witness :
  "The above copyright notice and this permission notice shall be included in all"
  = ""
  \/ len "The above copyright notice and this permission notice shall be included in all"
     <= default_width.
Proof.
  apply (wrapped_lines_fit mit_line default_width).
  vm_compute. left. reflexivity.
Defined.

(** The configuration for Poetry, completed for Flit. *)
Lemma setup_flit_config_result_witness :
  lookup2 "project" "name"
    (match _setup_flit_config "demo" "demo-dist" poetry_config with
     | inr data' => data'
     | inl _ => []
     end)
  = Some (Str "demo-dist").
Proof.
  apply (setup_flit_config_result "demo" "demo-dist" poetry_config).
  vm_compute. reflexivity.
Defined.

(** The configuration for Flit is refused. *)
Lemma setup_flit_config_needs_poetry_version_witness :
  _setup_flit_config "demo" "demo-dist" flit_config = inl (KeyError "version").
Proof.
  apply (proj1 (proj2 (setup_flit_config_needs_poetry_version
                         "demo" "demo-dist" flit_config))
           [("flit", Table [])]).
  - reflexivity.
  - reflexivity.
  - right. eexists. reflexivity.
Defined.

Lemma setup_flit_config_idempotent_witness :
  _setup_flit_config "demo" "demo-dist"
    (match _setup_flit_config "demo" "demo-dist" poetry_config with
     | inr data' => data'
     | inl _ => []
     end)
  = inr (match _setup_flit_config "demo" "demo-dist" poetry_config with
         | inr data' => data'
         | inl _ => []
         end).
Proof.
  apply (setup_flit_config_idempotent "demo" "demo-dist" poetry_config).
  vm_compute. reflexivity.
Defined.

(** A project with two packages is skipped, and the command returns 0. *)
Lemma link_status_witness :
  fst (@link_repository system two_projects false None) = inr 0
  /\ installs (snd (@link_repository system two_projects false None))
     = ["/repo/demo/pyproject.toml"].
Proof.
  destruct (@link_status system two_projects false None 0
              (snd (@link_repository system two_projects false None)))
    as (_ & _ & Hinstalls).
  - vm_compute. reflexivity.
  - split; [reflexivity | exact Hinstalls].
Defined.

End MoreExamples.
